(** * xv6 lock labs: the per-CPU page allocator (kernel/kalloc.c) and the
      hashed buffer cache (kernel/bio.c)

    A shallow embedding of the two files and the properties their
    specification states about them.  Machine integers are [Z] with the
    C wrap-around written out; physical memory is a byte-addressed
    function; the buffer cache keeps its buffers in an array and each
    hash bucket's chain as the list of array indices met by following
    [next] from the bucket head. *)

From Stdlib Require Import ZArith Lia String List Bool.
From stdpp Require Import base list.

Local Open Scope Z_scope.

(** Outcome of a kernel routine that may call [panic]. *)
Inductive result (A : Type) : Type :=
| Ok (a : A)
| Panic (msg : string).
Arguments Ok {A} a.
Arguments Panic {A} msg.

(** Arrays indexed by a small integer (kmem[NCPU]) are total functions;
    [fupd f i v] is the array after [f[i] = v]. *)
Definition fupd {A : Type} (f : nat -> A) (i : nat) (v : A) : nat -> A :=
  fun j => if Nat.eqb j i then v else f j.

(* ================================================================== *)
(** * Physical page allocator *)
(* ================================================================== *)

Module Kalloc.

(** Byte-addressed physical memory: address to byte value. *)
Definition memory := Z -> Z.

(** Modelled from the spec: riscv.h is not among the sources; the page
    size is the spec's PAGE_SIZE = 4096. *)
Definition PGSIZE : Z := 4096.

(** [memset(dst, c, n)]. *)
Definition memset (m : memory) (dst c n : Z) : memory :=
  fun x => if (dst <=? x) && (x <? dst + n) then c mod 256 else m x.

(** A little-endian store and load of [n] bytes; [struct run *] is a
    64-bit pointer, so [r->next] is 8 bytes at offset 0 of the page. *)
Fixpoint store_le (n : nat) (m : memory) (a v : Z) : memory :=
  match n with
  | O => m
  | S k => store_le k (fun x => if x =? a then v mod 256 else m x) (a + 1) (v / 256)
  end.

Fixpoint load_le (n : nat) (m : memory) (a : Z) : Z :=
  match n with
  | O => 0
  | S k => m a + 256 * load_le k m (a + 1)
  end.

Definition store64 := store_le 8.
Definition load64 := load_le 8.

(** struct { struct spinlock lock; struct run *freelist; } kmem[NCPU],
    together with the memory the list nodes live in. *)
Record kmem_t : Type := {
  freelist : nat -> Z;
  mem : memory
}.

Definition set_freelist (i : nat) (p : Z) (s : kmem_t) : kmem_t :=
  {| freelist := fupd (freelist s) i p; mem := mem s |}.

Definition set_mem (m : memory) (s : kmem_t) : kmem_t :=
  {| freelist := freelist s; mem := m |}.

Section WithLayout.

(** [NCPU] (param.h), the linker symbol [end] and [PHYSTOP]
    (memlayout.h) are declared outside the sources at hand. *)
Variable NCPU : nat.
Variable kend : Z.
Variable PHYSTOP : Z.

(** kfree, run on CPU [cpu] (the value of cpuid() under push_off). *)
Definition kfree (cpu : nat) (pa : Z) (s : kmem_t) : result kmem_t :=
  if negb (pa mod PGSIZE =? 0) || (pa <? kend) || (PHYSTOP <=? pa)
  then Panic "kfree"
  else
    (* memset(pa, 1, PGSIZE) *)
    let s1 := set_mem (memset (mem s) pa 1 PGSIZE) s in
    let r := pa in
    (* r->next = kmem[cpu].freelist *)
    let s2 := set_mem (store64 (mem s1) r (freelist s1 cpu)) s1 in
    (* kmem[cpu].freelist = r *)
    Ok (set_freelist cpu r s2).

(** Pointers and uint64 values are 64 bits wide: arithmetic on them
    wraps at 2^64. *)
Definition wrap64 (z : Z) : Z := z mod 2 ^ 64.

(** Modelled from the spec: the macro PGROUNDUP of riscv.h is not among
    the sources; it rounds an address up to page alignment, in uint64
    arithmetic: (sz + PGSIZE - 1) & ~(PGSIZE - 1). *)
Definition PGROUNDUP (sz : Z) : Z := wrap64 (sz + PGSIZE - 1) / PGSIZE * PGSIZE.

(** The loop of freerange:
    for (; p + PGSIZE <= (char* )pa_end; p += PGSIZE) kfree(p).
    [p + PGSIZE] is pointer arithmetic and wraps at 2^64, so the test
    can hold again after the last page of the address space.  [fuel]
    bounds the number of times the test is made; the result is [None]
    when the loop has not ended by then. *)
Fixpoint freerange_loop (fuel : nat) (cpu : nat) (pa_end p : Z) (s : kmem_t)
  : option (result kmem_t) :=
  match fuel with
  | O => None
  | S k =>
      if wrap64 (p + PGSIZE) <=? pa_end then
        match kfree cpu p s with
        | Ok s' => freerange_loop k cpu pa_end (wrap64 (p + PGSIZE)) s'
        | Panic msg => Some (Panic msg)
        end
      else Some (Ok s)
  end.

Definition freerange (fuel : nat) (cpu : nat) (pa_start pa_end : Z) (s : kmem_t)
  : option (result kmem_t) :=
  freerange_loop fuel cpu pa_end (PGROUNDUP pa_start) s.

(** kinit on the booting CPU: freerange(end, (void* )PHYSTOP). *)
Definition kinit (fuel : nat) (cpu : nat) (s : kmem_t) : option (result kmem_t) :=
  freerange fuel cpu kend PHYSTOP s.

(** The inner loop of kalloc: while (other_freelist && steal_page_nums > 0).
    The counter only ever counts down from 64, so it is a [nat]; the
    result carries its final value. *)
Fixpoint steal_loop (steal_page_nums : nat) (cpu i : nat) (s : kmem_t)
  : kmem_t * nat :=
  match steal_page_nums with
  | O => (s, O)
  | S n =>
      let other_freelist := freelist s i in
      if other_freelist =? 0 then (s, S n)
      else
        (* kmem[i].freelist = other_freelist->next *)
        let s1 := set_freelist i (load64 (mem s) other_freelist) s in
        (* other_freelist->next = kmem[cpu].freelist *)
        let s2 := set_mem (store64 (mem s1) other_freelist (freelist s1 cpu)) s1 in
        (* kmem[cpu].freelist = other_freelist *)
        let s3 := set_freelist cpu other_freelist s2 in
        steal_loop n cpu i s3
  end.

(** The outer loop: for (i = 0; i < NCPU; ++i), over the CPUs still to
    visit. *)
Fixpoint steal_cpus (cpus : list nat) (cpu : nat) (steal_page_nums : nat)
  (s : kmem_t) : kmem_t :=
  match cpus with
  | [] => s
  | i :: rest =>
      if Nat.eqb i cpu then steal_cpus rest cpu steal_page_nums s
      else
        let '(s', n') := steal_loop steal_page_nums cpu i s in
        if Nat.leb n' 0 then s' else steal_cpus rest cpu n' s'
  end.

Definition STEAL_BATCH : nat := 64.

(** kalloc on CPU [cpu]: the returned pointer (0 when no page is left)
    and the state after. *)
Definition kalloc (cpu : nat) (s : kmem_t) : Z * kmem_t :=
  let s1 :=
    if freelist s cpu =? 0
    then steal_cpus (seq 0 NCPU) cpu STEAL_BATCH s
    else s in
  let r := freelist s1 cpu in
  (* if (r) kmem[cpu].freelist = r->next *)
  let s2 := if r =? 0 then s1 else set_freelist cpu (load64 (mem s1) r) s1 in
  (* if (r) memset((char* )r, 5, PGSIZE) *)
  let s3 := if r =? 0 then s2 else set_mem (memset (mem s2) r 5 PGSIZE) s2 in
  (r, s3).

(** ** The free lists as lists of pages

    [flist m h l]: following [next] in memory [m] from pointer [h] meets
    exactly the pages [l], in this order, and then the null pointer. *)
Fixpoint flist (m : memory) (h : Z) (l : list Z) : Prop :=
  match l with
  | [] => h = 0
  | p :: l' => h = p /\ flist m (load64 m p) l'
  end.

(** A page address: aligned, not null, a 64-bit pointer. *)
Definition page_ok (p : Z) : Prop :=
  p mod PGSIZE = 0 /\ 0 < p < 2 ^ 64.

(** [arenas s L]: for every CPU [i], the free list of arena [i] holds
    the pages [L i]; no page is twice in a list or in two lists. *)
Definition arenas (s : kmem_t) (L : nat -> list Z) : Prop :=
  (forall i, (i < NCPU)%nat -> flist (mem s) (freelist s i) (L i)) /\
  (forall i p, (i < NCPU)%nat -> p ∈ L i -> page_ok p) /\
  (forall i, (i < NCPU)%nat -> NoDup (L i)) /\
  (forall i j p, (i < NCPU)%nat -> (j < NCPU)%nat -> i <> j ->
     p ∈ L i -> p ∈ L j -> False).

(** The stealing loops told on the lists of pages: what the spec calls
    moving up to STEAL_BATCH pages from the head of the victim's list
    to the head of the local list, one at a time. *)
Definition move_page (L : nat -> list Z) (i cpu : nat) (p : Z) (t : list Z)
  : nat -> list Z :=
  let L1 := fupd L i t in
  fupd L1 cpu (p :: L1 cpu).

Fixpoint steal_loop_model (n : nat) (cpu i : nat) (L : nat -> list Z)
  : (nat -> list Z) * nat :=
  match n with
  | O => (L, O)
  | S n' =>
      match L i with
      | [] => (L, S n')
      | p :: t => steal_loop_model n' cpu i (move_page L i cpu p t)
      end
  end.

Fixpoint steal_cpus_model (cpus : list nat) (cpu : nat) (n : nat)
  (L : nat -> list Z) : nat -> list Z :=
  match cpus with
  | [] => L
  | i :: rest =>
      if Nat.eqb i cpu then steal_cpus_model rest cpu n L
      else
        let '(L', n') := steal_loop_model n cpu i L in
        if Nat.leb n' 0 then L' else steal_cpus_model rest cpu n' L'
  end.

(** kalloc and kfree told on the lists of pages. *)
Definition kalloc_model (cpu : nat) (L : nat -> list Z) : Z * (nat -> list Z) :=
  let L1 :=
    match L cpu with
    | [] => steal_cpus_model (seq 0 NCPU) cpu STEAL_BATCH L
    | _ :: _ => L
    end in
  match L1 cpu with
  | [] => (0, L1)
  | r :: t => (r, fupd L1 cpu t)
  end.

Definition kfree_model (cpu : nat) (pa : Z) (L : nat -> list Z) : nat -> list Z :=
  fupd L cpu (pa :: L cpu).

(** Pages that the arenas [cpus] other than [cpu] hold in [L] and no
    longer in [L']. *)
Fixpoint pages_lost (cpus : list nat) (cpu : nat) (L L' : nat -> list Z) : nat :=
  match cpus with
  | [] => O
  | i :: rest =>
      ((if Nat.eqb i cpu then 0 else length (L i) - length (L' i))
       + pages_lost rest cpu L L')%nat
  end.

End WithLayout.

(** Executable forms of [flist], [page_ok] and [arenas]. *)
Fixpoint flistb (m : memory) (h : Z) (l : list Z) : bool :=
  match l with
  | [] => h =? 0
  | p :: l' => (h =? p) && flistb m (load64 m p) l'
  end.

Definition page_okb (p : Z) : bool :=
  (p mod PGSIZE =? 0) && (0 <? p) && (p <? 2 ^ 64).

Fixpoint nodupb (l : list Z) : bool :=
  match l with
  | [] => true
  | x :: l' => negb (existsb (Z.eqb x) l') && nodupb l'
  end.

Definition arenasb (NCPU : nat) (s : kmem_t) (L : nat -> list Z) : bool :=
  forallb (fun i => flistb (mem s) (freelist s i) (L i) && forallb page_okb (L i))
    (seq 0 NCPU)
  && nodupb (concat (map L (seq 0 NCPU))).

Definition ok_or {A : Type} (d : A) (r : result A) : A :=
  match r with
  | Ok a => a
  | Panic _ => d
  end.

(** The state a loop with fuel ended in, or [d] if it panicked or did
    not end. *)
Definition ended_or {A : Type} (d : A) (r : option (result A)) : A :=
  match r with
  | Some (Ok a) => a
  | _ => d
  end.

(** The state before kinit: no page in any list, memory all zero. *)
Definition kmem_bss : kmem_t :=
  {| freelist := fun _ => 0; mem := fun _ => 0 |}.

(** A two-CPU machine for the examples: the kernel ends at 0x80021000
    and physical memory at 0x88000000. *)
Definition ex_end : Z := 0x80021000.
Definition ex_PHYSTOP : Z := 0x88000000.



(** A page whose holder filled it with the byte 0xAA and then freed it
    on CPU 0. *)
Definition ex_dirty : kmem_t :=
  ok_or kmem_bss
    (kfree ex_end ex_PHYSTOP 0%nat ex_end
       (set_mem (memset (mem kmem_bss) ex_end 0xAA PGSIZE) kmem_bss)).

(** Three pages above the kernel: CPU 1 has freed the second and then
    the first, CPU 0 the third. *)
Definition ex_pageA : Z := ex_end.
Definition ex_pageB : Z := ex_end + PGSIZE.
Definition ex_pageC : Z := ex_end + 2 * PGSIZE.
Definition ex_shared : kmem_t :=
  ok_or kmem_bss
    (kfree ex_end ex_PHYSTOP 0%nat ex_pageC
       (ok_or kmem_bss
          (kfree ex_end ex_PHYSTOP 1%nat ex_pageA
             (ok_or kmem_bss (kfree ex_end ex_PHYSTOP 1%nat ex_pageB kmem_bss))))).
Definition ex_shared_lists : nat -> list Z :=
  fun i => match i with
           | O => [ex_pageC]
           | S O => [ex_pageA; ex_pageB]
           | _ => []
           end.

Definition is_panic {A : Type} (r : result A) : Prop :=
  match r with
  | Panic _ => True
  | Ok _ => False
  end.

(** [is_free NCPU L q]: page [q] is on the free list of some arena. *)
Definition is_free (NCPU : nat) (L : nat -> list Z) (q : Z) : Prop :=
  exists i, (i < NCPU)%nat /\ q ∈ L i.

(** The [n] pages from [p] upwards, in ascending order: the pages that
    the loop of freerange hands to kfree. *)
Definition page_range (p : Z) (n : nat) : list Z :=
  map (fun k => p + Z.of_nat k * PGSIZE) (seq 0 n).

(** A small machine for examples: memory ends 100 bytes after the third
    page above the kernel; CPU 1 has run kinit. *)
Definition ex_small_PHYSTOP : Z := ex_end + 3 * PGSIZE + 100.
Definition ex_small : kmem_t :=
  ended_or kmem_bss (kinit ex_end ex_small_PHYSTOP 4 1%nat kmem_bss).
Definition ex_small_lists : nat -> list Z :=
  fupd (fun _ => []) 1%nat [ex_end + 2 * PGSIZE; ex_end + PGSIZE; ex_end].

End Kalloc.

(* ================================================================== *)
(** * Buffer cache *)
(* ================================================================== *)

Module Bio.

(** uint arithmetic wraps modulo 2^32. *)
Definition wrap32 (z : Z) : Z := z mod 2 ^ 32.

Definition NBUFMAP_BUCKET : Z := 13.

(** #define BUFMAP_HASH(dev, blockno)
      ((((dev) << 27) | (blockno)) % NBUFMAP_BUCKET)
    on uint operands. *)
Definition BUFMAP_HASH (dev blockno : Z) : Z :=
  Z.lor (wrap32 (Z.shiftl dev 27)) blockno mod NBUFMAP_BUCKET.

(** Modelled from the spec: param.h and fs.h are not among the sources;
    the spec's reference values are NBUF = 30 and BLOCK_SIZE = 1024. *)
Definition NBUF : nat := 30.
Definition BSIZE : nat := 1024.

Definition block := list Byte.byte.

(** struct buf.  The [next] link is not a field here: the chain of a
    bucket is kept as a list in [bufmap].
    Modelled from the spec: sleeplock.c is not among the sources; a
    sleep lock has at most one holder, a process, so [lock] is the pid
    of the holder if there is one. *)
Record buf : Type := {
  valid : Z;
  disk : Z;
  dev : Z;
  blockno : Z;
  lock : option nat;
  refcnt : Z;
  lastuse : Z;
  data : block
}.

Definition set_valid (v : Z) (b : buf) : buf :=
  {| valid := v; disk := disk b; dev := dev b; blockno := blockno b;
     lock := lock b; refcnt := refcnt b; lastuse := lastuse b; data := data b |}.
Definition set_dev (v : Z) (b : buf) : buf :=
  {| valid := valid b; disk := disk b; dev := v; blockno := blockno b;
     lock := lock b; refcnt := refcnt b; lastuse := lastuse b; data := data b |}.
Definition set_blockno (v : Z) (b : buf) : buf :=
  {| valid := valid b; disk := disk b; dev := dev b; blockno := v;
     lock := lock b; refcnt := refcnt b; lastuse := lastuse b; data := data b |}.
Definition set_lock (v : option nat) (b : buf) : buf :=
  {| valid := valid b; disk := disk b; dev := dev b; blockno := blockno b;
     lock := v; refcnt := refcnt b; lastuse := lastuse b; data := data b |}.
Definition set_refcnt (v : Z) (b : buf) : buf :=
  {| valid := valid b; disk := disk b; dev := dev b; blockno := blockno b;
     lock := lock b; refcnt := v; lastuse := lastuse b; data := data b |}.
Definition set_lastuse (v : Z) (b : buf) : buf :=
  {| valid := valid b; disk := disk b; dev := dev b; blockno := blockno b;
     lock := lock b; refcnt := refcnt b; lastuse := v; data := data b |}.
Definition set_data (v : block) (b : buf) : buf :=
  {| valid := valid b; disk := disk b; dev := dev b; blockno := blockno b;
     lock := lock b; refcnt := refcnt b; lastuse := lastuse b; data := v |}.

(** A buffer of the zero-initialised static storage. *)
Definition zero_buf : buf :=
  {| valid := 0; disk := 0; dev := 0; blockno := 0; lock := None;
     refcnt := 0; lastuse := 0; data := repeat Byte.x00 BSIZE |}.

(** The [bcache] structure: [bufs] is [bcache.buf], a buffer is named by
    its index there; [bufmap] gives for each bucket the buffers reached
    from [bcache.bufmap[i].next], in chain order. *)
Record bcache_t : Type := {
  bufs : list buf;
  bufmap : list (list nat)
}.

(** One transfer of the disk driver. *)
Inductive io_event : Type :=
| IoRead (dev blockno : Z)
| IoWrite (dev blockno : Z) (d : block).

(** What the cache code sees of the rest of the kernel: the tick counter
    [ticks] and the disk behind virtio_disk_rw.
    Modelled from the spec: the driver is not among the sources; it is a
    synchronous block transfer, so the disk is a map from device and
    block number to contents, and [io] records the transfers made,
    latest first. *)
Record kstate : Type := {
  bcache : bcache_t;
  ticks : Z;
  dsk : Z -> Z -> block;
  io : list io_event
}.

Definition set_bcache (c : bcache_t) (s : kstate) : kstate :=
  {| bcache := c; ticks := ticks s; dsk := dsk s; io := io s |}.

(** [bcache.buf[n]]. *)
Definition buf_at (c : bcache_t) (n : nat) : buf := nth n (bufs c) zero_buf.

(** The chain hanging off [bcache.bufmap[i]]. *)
Definition chain_at (c : bcache_t) (i : nat) : list nat := nth i (bufmap c) [].

(** Apply [f] to [bcache.buf[n]]. *)
Definition upd_buf (n : nat) (f : buf -> buf) (c : bcache_t) : bcache_t :=
  {| bufs := <[n := f (buf_at c n)]> (bufs c); bufmap := bufmap c |}.

Definition set_chain (i : nat) (ch : list nat) (c : bcache_t) : bcache_t :=
  {| bufs := bufs c; bufmap := <[i := ch]> (bufmap c) |}.

Definition upd_buf_s (n : nat) (f : buf -> buf) (s : kstate) : kstate :=
  set_bcache (upd_buf n f (bcache s)) s.

(** ** binit *)

(** The two loops of binit. *)
Definition binit_buckets (c : bcache_t) : bcache_t :=
  fold_left (fun c i => set_chain i [] c) (seq 0 (Z.to_nat NBUFMAP_BUCKET)) c.

Definition binit_buf (c : bcache_t) (i : nat) : bcache_t :=
  let c1 := upd_buf i (fun b => set_refcnt 0 (set_lastuse 0 (set_lock None b))) c in
  (* b->next = bcache.bufmap[0].next; bcache.bufmap[0].next = b *)
  set_chain 0 (i :: chain_at c1 0) c1.

Definition binit (c : bcache_t) : bcache_t :=
  fold_left binit_buf (seq 0 NBUF) (binit_buckets c).

(** The static storage before binit, and the cache after it. *)
Definition bcache_bss : bcache_t :=
  {| bufs := repeat zero_buf NBUF;
     bufmap := repeat [] (Z.to_nat NBUFMAP_BUCKET) |}.

Definition boot (t : Z) (d : Z -> Z -> block) : kstate :=
  {| bcache := binit bcache_bss; ticks := t; dsk := d; io := [] |}.

(** ** Sleep lock *)

(** Outcome of a routine that may sleep on a buffer's lock: it returns,
    or the caller is asleep waiting for buffer [b]'s lock in state [s],
    or the kernel has panicked. *)
Inductive outcome (A : Type) : Type :=
| Done (s : kstate) (a : A)
| Blocked (s : kstate) (b : nat)
| Panicked (msg : string).
Arguments Done {A} s a.
Arguments Blocked {A} s b.
Arguments Panicked {A} msg.

(** acquiresleep(&b->lock) by process [p]. *)
Definition acquiresleep (p : nat) (n : nat) (s : kstate) : outcome nat :=
  match lock (buf_at (bcache s) n) with
  | None => Done (upd_buf_s n (set_lock (Some p)) s) n
  | Some _ => Blocked s n
  end.

(** holdingsleep(&b->lock) asked by process [p]. *)
Definition holdingsleep (p : nat) (b : buf) : bool :=
  match lock b with
  | Some q => Nat.eqb q p
  | None => false
  end.

(** ** bget *)

(** The walk over a chain looking for (dev, blockno): the loops at the
    start of bget and again under the eviction lock. *)
Fixpoint chain_find (c : bcache_t) (chain : list nat) (d bn : Z) : option nat :=
  match chain with
  | [] => None
  | n :: rest =>
      if (dev (buf_at c n) =? d) && (blockno (buf_at c n) =? bn)
      then Some n
      else chain_find c rest d bn
  end.

(** The found path: b->refcnt++, then acquiresleep. *)
Definition bget_found (p : nat) (n : nat) (s : kstate) : outcome nat :=
  acquiresleep p n (upd_buf_s n (fun b => set_refcnt (wrap32 (refcnt b + 1)) b) s).

(** [brefore_least] points at the node before the candidate: the node
    at position [c_pos] of bucket [c_bucket]'s chain, position 0 being
    the bucket head; [c_buf] is [brefore_least->next]. *)
Record cand : Type := {
  c_bucket : nat;
  c_pos : nat;
  c_buf : nat
}.

(** The inner loop over one bucket: [pos] is where [b] stands and
    [chain] what is left from [b->next] on. *)
Fixpoint scan_chain (c : bcache_t) (i pos : nat) (chain : list nat)
  (brefore_least : option cand) (newfound : bool) : option cand * bool :=
  match chain with
  | [] => (brefore_least, newfound)
  | n :: rest =>
      if (refcnt (buf_at c n) =? 0)
         && match brefore_least with
            | None => true
            | Some l => lastuse (buf_at c n) <? lastuse (buf_at c (c_buf l))
            end
      then scan_chain c i (S pos) rest
             (Some {| c_bucket := i; c_pos := pos; c_buf := n |}) true
      else scan_chain c i (S pos) rest brefore_least newfound
  end.

(** The outer loop over the buckets still to visit. *)
Fixpoint scan_buckets (c : bcache_t) (buckets : list nat)
  (brefore_least : option cand) (holding_bucket : Z) : option cand * Z :=
  match buckets with
  | [] => (brefore_least, holding_bucket)
  | i :: rest =>
      let '(l, newfound) := scan_chain c i 0 (chain_at c i) brefore_least false in
      scan_buckets c rest l (if newfound then Z.of_nat i else holding_bucket)
  end.

(** struct buf *brefore_least = 0; uint holding_bucket = -1; and the
    scan of all buckets. *)
Definition find_victim (c : bcache_t) : option cand * Z :=
  scan_buckets c (seq 0 (Z.to_nat NBUFMAP_BUCKET)) None (wrap32 (-1)).

(** if (holding_bucket != key): unlink [b] from its chain and put it at
    the head of the key bucket's chain. *)
Definition relink (l : cand) (holding_bucket key : Z) (c : bcache_t) : bcache_t :=
  let b := c_buf l in
  if negb (holding_bucket =? key) then
    (* brefore_least->next = b->next *)
    let c' := set_chain (c_bucket l) (delete (c_pos l) (chain_at c (c_bucket l))) c in
    (* b->next = bcache.bufmap[key].next; bcache.bufmap[key].next = b *)
    set_chain (Z.to_nat key) (b :: chain_at c' (Z.to_nat key)) c'
  else c.

(** b->dev = dev; b->blockno = blockno; b->refcnt = 1; b->valid = 0 *)
Definition claim (d bn : Z) (x : buf) : buf :=
  set_valid 0 (set_refcnt 1 (set_blockno bn (set_dev d x))).

(** From [b = brefore_least->next] to the end of bget. *)
Definition bget_recycle (p : nat) (d bn : Z) (l : cand) (holding_bucket : Z)
  (s : kstate) : outcome nat :=
  let key := BUFMAP_HASH d bn in
  let b := c_buf l in
  let c1 := relink l holding_bucket key (bcache s) in
  let c2 := upd_buf b (claim d bn) c1 in
  acquiresleep p b (set_bcache c2 s).

(** bget from the point where it holds the eviction lock: the second
    look at the key bucket, then the choice of a victim. *)
Definition bget_evict (p : nat) (d bn : Z) (s : kstate) : outcome nat :=
  let key := BUFMAP_HASH d bn in
  match chain_find (bcache s) (chain_at (bcache s) (Z.to_nat key)) d bn with
  | Some n => bget_found p n s
  | None =>
      match find_victim (bcache s) with
      | (None, _) => Panicked "bget: no buffers"
      | (Some l, holding_bucket) => bget_recycle p d bn l holding_bucket s
      end
  end.

(** bget run without interruption by process [p]. *)
Definition bget (p : nat) (d bn : Z) (s : kstate) : outcome nat :=
  let key := BUFMAP_HASH d bn in
  match chain_find (bcache s) (chain_at (bcache s) (Z.to_nat key)) d bn with
  | Some n => bget_found p n s
  | None => bget_evict p d bn s
  end.

(** ** bread, bwrite, brelse, bpin, bunpin *)

(** virtio_disk_rw(b, 0) and virtio_disk_rw(b, 1). *)
Definition disk_read (n : nat) (s : kstate) : kstate :=
  let b := buf_at (bcache s) n in
  {| bcache := upd_buf n (set_data (dsk s (dev b) (blockno b))) (bcache s);
     ticks := ticks s; dsk := dsk s;
     io := IoRead (dev b) (blockno b) :: io s |}.

Definition disk_write (n : nat) (s : kstate) : kstate :=
  let b := buf_at (bcache s) n in
  {| bcache := bcache s; ticks := ticks s;
     dsk := fun d bn =>
              if (d =? dev b) && (bn =? blockno b) then data b else dsk s d bn;
     io := IoWrite (dev b) (blockno b) (data b) :: io s |}.

(** bread after bget has returned [n]. *)
Definition bread_fill (n : nat) (s : kstate) : kstate :=
  if valid (buf_at (bcache s) n) =? 0
  then upd_buf_s n (set_valid 1) (disk_read n s)
  else s.

Definition bread (p : nat) (d bn : Z) (s : kstate) : outcome nat :=
  match bget p d bn s with
  | Done s1 n => Done (bread_fill n s1) n
  | Blocked s1 n => Blocked s1 n
  | Panicked m => Panicked m
  end.

(** A caller asleep in acquiresleep goes on when the lock is free: the
    rest of bget, and of bread. *)
Definition bget_wakeup (p : nat) (n : nat) (s : kstate) : outcome nat :=
  acquiresleep p n s.


Definition bwrite (p : nat) (n : nat) (s : kstate) : result kstate :=
  if negb (holdingsleep p (buf_at (bcache s) n)) then Panic "bwrite"
  else Ok (disk_write n s).

Definition brelse (p : nat) (n : nat) (s : kstate) : result kstate :=
  if negb (holdingsleep p (buf_at (bcache s) n)) then Panic "brelse"
  else
    (* releasesleep(&b->lock) *)
    let s1 := upd_buf_s n (set_lock None) s in
    (* b->refcnt-- *)
    let s2 := upd_buf_s n (fun b => set_refcnt (wrap32 (refcnt b - 1)) b) s1 in
    (* if (b->refcnt == 0) b->lastuse = ticks *)
    if refcnt (buf_at (bcache s2) n) =? 0
    then Ok (upd_buf_s n (set_lastuse (ticks s2)) s2)
    else Ok s2.

Definition bpin (n : nat) (s : kstate) : kstate :=
  upd_buf_s n (fun b => set_refcnt (wrap32 (refcnt b + 1)) b) s.

Definition bunpin (n : nat) (s : kstate) : kstate :=
  upd_buf_s n (fun b => set_refcnt (wrap32 (refcnt b - 1)) b) s.

(** ** Notions used to state the properties *)

(** The buffer a call ends with, returned or still to be locked. *)
Definition outcome_buf (o : outcome nat) : option nat :=
  match o with
  | Done _ n => Some n
  | Blocked _ n => Some n
  | Panicked _ => None
  end.

Definition outcome_state (o : outcome nat) : option kstate :=
  match o with
  | Done s _ => Some s
  | Blocked s _ => Some s
  | Panicked _ => None
  end.

(** The key bucket's answer for (d, bn). *)
Definition lookup (c : bcache_t) (d bn : Z) : option nat :=
  chain_find c (chain_at c (Z.to_nat (BUFMAP_HASH d bn))) d bn.

(** The buffers in the order in which the victim scan meets them:
    bucket by bucket, each chain from its head. *)
Definition scan_order (c : bcache_t) : list nat :=
  concat (map (chain_at c) (seq 0 (Z.to_nat NBUFMAP_BUCKET))).

(** [first_least c order v]: among the buffers of [order] with no
    reference, [v] has the least [lastuse], and it is the first such
    buffer of [order]. *)
Definition first_least (c : bcache_t) (order : list nat) (v : nat) : Prop :=
  refcnt (buf_at c v) = 0 /\
  exists pre post,
    order = pre ++ v :: post /\
    (forall u, u ∈ pre -> refcnt (buf_at c u) = 0 ->
       lastuse (buf_at c v) < lastuse (buf_at c u)) /\
    (forall u, u ∈ post -> refcnt (buf_at c u) = 0 ->
       lastuse (buf_at c v) <= lastuse (buf_at c u)).

(** What a scan of [order] has to show for its candidate. *)
Definition scan_result (c : bcache_t) (order : list nat) (l : option cand) : Prop :=
  match l with
  | None => forall u, u ∈ order -> refcnt (buf_at c u) <> 0
  | Some l => first_least c order (c_buf l)
  end.

(** The candidate stands where its predecessor pointer says. *)
Definition cand_ok (c : bcache_t) (l : cand) : Prop :=
  (c_bucket l < Z.to_nat NBUFMAP_BUCKET)%nat /\
  chain_at c (c_bucket l) !! c_pos l = Some (c_buf l).

(** An update of a buffer that leaves its identity alone. *)
Definition keeps_fp (f : buf -> buf) : Prop :=
  forall b, dev (f b) = dev b /\ blockno (f b) = blockno b.

(** The linkage of a cache: 13 buckets, every buffer of the array on
    exactly one chain, once, and on the chain of its hash. *)
Definition wf (c : bcache_t) : Prop :=
  length (bufmap c) = Z.to_nat NBUFMAP_BUCKET /\
  (forall i, NoDup (chain_at c i)) /\
  (forall n, (n < length (bufs c))%nat <-> exists i, n ∈ chain_at c i) /\
  (forall i n, n ∈ chain_at c i ->
     BUFMAP_HASH (dev (buf_at c n)) (blockno (buf_at c n)) = Z.of_nat i).

(** ** The cache and its clients as a transition system

    A client names a buffer by the [struct buf *] it got from bget or
    bread, so the system state has, next to the kernel state, the list
    of the buffers handed out so far.  One step is one of the routines
    run to its end, or one of the stretches between which a routine can
    be overtaken by other processes: bget from the point where it holds
    the eviction lock (its first look at the key bucket, under the
    bucket lock, changes nothing when it finds nothing), the return from
    acquiresleep of a caller that had to wait, and the part of bread
    that follows bget.  A panic ends the run. *)
Inductive op : Type :=
| OpTick
| OpBget (p : nat) (d bn : Z)
| OpBgetEvict (p : nat) (d bn : Z)
| OpBread (p : nat) (d bn : Z)
| OpWakeup (p : nat) (n : nat)
| OpFill (n : nat)
| OpModify (p : nat) (n : nat) (d : block)
| OpBwrite (p : nat) (n : nat)
| OpBrelse (p : nat) (n : nat)
| OpBpin (n : nat)
| OpBunpin (n : nat).

Definition set_ticks (t : Z) (s : kstate) : kstate :=
  {| bcache := bcache s; ticks := t; dsk := dsk s; io := io s |}.

(** The holder of the lease writes [b->data]. *)
Definition bmodify (n : nat) (d : block) (s : kstate) : kstate :=
  upd_buf_s n (set_data d) s.

Definition hand_out (o : outcome nat) (H : list nat) : option (kstate * list nat) :=
  match o with
  | Done s n => Some (s, n :: H)
  | Blocked s n => Some (s, n :: H)
  | Panicked _ => None
  end.

Definition step (o : op) (s : kstate) (H : list nat) : option (kstate * list nat) :=
  match o with
  | OpTick => Some (set_ticks (wrap32 (ticks s + 1)) s, H)
  | OpBget p d bn => hand_out (bget p d bn s) H
  | OpBgetEvict p d bn => hand_out (bget_evict p d bn s) H
  | OpBread p d bn => hand_out (bread p d bn s) H
  | OpWakeup p n =>
      if decide (n ∈ H) then
        match acquiresleep p n s with
        | Done s' _ => Some (s', H)
        | _ => None
        end
      else None
  | OpFill n => if decide (n ∈ H) then Some (bread_fill n s, H) else None
  | OpModify p n d =>
      if decide (n ∈ H) then
        if holdingsleep p (buf_at (bcache s) n) then Some (bmodify n d s, H) else None
      else None
  | OpBwrite p n =>
      if decide (n ∈ H) then
        match bwrite p n s with
        | Ok s' => Some (s', H)
        | Panic _ => None
        end
      else None
  | OpBrelse p n =>
      if decide (n ∈ H) then
        match brelse p n s with
        | Ok s' => Some (s', H)
        | Panic _ => None
        end
      else None
  | OpBpin n => if decide (n ∈ H) then Some (bpin n s, H) else None
  | OpBunpin n => if decide (n ∈ H) then Some (bunpin n s, H) else None
  end.

Fixpoint run (ops : list op) (s : kstate) (H : list nat) : option (kstate * list nat) :=
  match ops with
  | [] => Some (s, H)
  | o :: rest =>
      match step o s H with
      | Some (s', H') => run rest s' H'
      | None => None
      end
  end.

(** The states reached from binit, with any tick count and disk. *)
Inductive reachable : kstate -> list nat -> Prop :=
| reach_boot t d : reachable (boot t d) []
| reach_step s H o s' H' :
    reachable s H -> step o s H = Some (s', H') -> reachable s' H'.

(** What holds of every reachable state: the linkage is sound, a buffer
    handed out is a buffer of the array, and a buffer that the lookup of
    its own (dev, blockno) does not reach has no reference and was never
    handed out. *)
Definition inv (c : bcache_t) (H : list nat) : Prop :=
  wf c /\
  (forall n, n ∈ H -> (n < length (bufs c))%nat) /\
  (forall n, (n < length (bufs c))%nat ->
     lookup c (dev (buf_at c n)) (blockno (buf_at c n)) <> Some n ->
     refcnt (buf_at c n) = 0 /\ n ∉ H).

Definition is_panicked {A : Type} (o : outcome A) : Prop :=
  match o with
  | Panicked _ => True
  | _ => False
  end.

(** The cached copy of block (d, bn), when there is a valid one, is what
    the disk holds: nobody has changed it since it was read or written
    back. *)
Definition clean (s : kstate) (d bn : Z) : Prop :=
  forall m, lookup (bcache s) d bn = Some m ->
    valid (buf_at (bcache s) m) <> 0 ->
    data (buf_at (bcache s) m) = dsk s d bn.






(** ** Example runs *)

(** A blank disk, and the machine after binit at tick 0. *)
Definition ex_disk : Z -> Z -> block := fun _ _ => repeat Byte.x00 BSIZE.
Definition ex_boot : kstate := boot 0 ex_disk.

Definition run_state (ops : list op) : kstate :=
  match run ops ex_boot [] with
  | Some (s, _) => s
  | None => ex_boot
  end.

(** Two blocks of the same bucket in use, one of them pinned, and a bget
    for the first that reaches the eviction lock late. *)
Definition ex_ops_busy : list op :=
  [OpBread 1 1 7; OpBread 2 1 20; OpBpin 29; OpBrelse 2 28; OpTick;
   OpBgetEvict 3 1 7].

(** Process 1 reads block (1, 7), overwrites the data and releases the
    buffer without writing it back. *)
Definition ex_pattern : block := repeat Byte.xaa BSIZE.

(** Process 1 reads thirty different blocks and keeps them all. *)
Definition ex_ops_full : list op :=
  map (fun k => OpBread 1 1 (Z.of_nat k)) (seq 0 NBUF).

(** Process 1 reads block (0, 0) and, still holding the buffer's sleep
    lock, drops its reference with bunpin. *)
Definition ex_ops_unpinned : list op :=
  [OpBread 1 0 0; OpBunpin 29].


(** A buffer is released, unpinned once too often, and pinned again. *)
Definition ex_ops_wrap : list op :=
  [OpBread 1 0 0; OpBrelse 1 29; OpBunpin 29; OpBpin 29].

End Bio.

(* ================================================================== *)
(** * Facts about the page allocator *)
(* ================================================================== *)

Module KallocProofs.
Import Kalloc.

Lemma fupd_eq {A} (f : nat -> A) i v : fupd f i v i = v.
Proof. unfold fupd. now rewrite Nat.eqb_refl. Qed.

Lemma fupd_ne {A} (f : nat -> A) i j v : j <> i -> fupd f i v j = f j.
Proof. unfold fupd. intros H. apply Nat.eqb_neq in H. now rewrite H. Qed.

(** *** Memory *)

Lemma store_le_out n : forall m a v x,
  x < a \/ a + Z.of_nat n <= x -> store_le n m a v x = m x.
Proof.
  induction n as [|n IH]; intros m a v x Hx; simpl; [reflexivity|].
  rewrite IH by lia. destruct (Z.eqb_spec x a); [lia | reflexivity].
Qed.

Lemma load_le_ext n : forall m m' a,
  (forall x, a <= x < a + Z.of_nat n -> m x = m' x) ->
  load_le n m a = load_le n m' a.
Proof.
  induction n as [|n IH]; intros m m' a H; simpl; [reflexivity|].
  rewrite (H a) by lia. rewrite (IH m m' (a + 1)); [reflexivity|].
  intros x Hx. apply H. lia.
Qed.

Lemma load_store_le n : forall m a v,
  load_le n (store_le n m a v) a = v mod 256 ^ Z.of_nat n.
Proof.
  induction n as [|n IH]; intros m a v.
  - simpl. now rewrite Z.mod_1_r.
  - cbn [load_le store_le]. rewrite IH. rewrite store_le_out by lia.
    rewrite Z.eqb_refl.
    replace (256 ^ Z.of_nat (S n)) with (256 * 256 ^ Z.of_nat n)
      by (rewrite Nat2Z.inj_succ, Z.pow_succ_r by lia; reflexivity).
    rewrite Z.rem_mul_r by lia. reflexivity.
Qed.

Lemma load64_store64 m a v : 0 <= v < 2 ^ 64 -> load64 (store64 m a v) a = v.
Proof.
  intros Hv. unfold load64, store64. rewrite load_store_le.
  change (256 ^ Z.of_nat 8) with (2 ^ 64). apply Z.mod_small. exact Hv.
Qed.

Lemma store64_out m a v x : x < a \/ a + 8 <= x -> store64 m a v x = m x.
Proof. intros H. unfold store64. apply store_le_out. simpl. lia. Qed.

Lemma load64_ext m m' a :
  (forall x, a <= x < a + 8 -> m x = m' x) -> load64 m a = load64 m' a.
Proof. intros H. unfold load64. apply load_le_ext. simpl. exact H. Qed.

Lemma memset_in m dst c n x : dst <= x < dst + n -> memset m dst c n x = c mod 256.
Proof.
  intros H. unfold memset.
  destruct (Z.leb_spec dst x); [|lia]. destruct (Z.ltb_spec x (dst + n)); [|lia].
  reflexivity.
Qed.

Lemma memset_out m dst c n x : x < dst \/ dst + n <= x -> memset m dst c n x = m x.
Proof.
  intros H. unfold memset.
  destruct (Z.leb_spec dst x); [|reflexivity].
  destruct (Z.ltb_spec x (dst + n)); [lia|reflexivity].
Qed.

(** Two different pages do not overlap. *)
Lemma pages_apart p q :
  p mod PGSIZE = 0 -> q mod PGSIZE = 0 -> p <> q ->
  p + PGSIZE <= q \/ q + PGSIZE <= p.
Proof.
  unfold PGSIZE. intros Hp Hq Hne.
  apply Z.mod_divide in Hp; [|lia]. apply Z.mod_divide in Hq; [|lia].
  destruct Hp as [a ->], Hq as [b ->]. lia.
Qed.

(** *** Lists of pages in memory *)

(** A list is not disturbed by writes outside the link words of its pages. *)
Lemma flist_frame m m' l : forall h,
  (forall p x, p ∈ l -> p <= x < p + 8 -> m' x = m x) ->
  flist m h l -> flist m' h l.
Proof.
  induction l as [|p l IH]; intros h Hfr Hl; simpl in *; [exact Hl|].
  destruct Hl as [-> Hl]. split; [reflexivity|].
  rewrite (load64_ext m' m p) by (intros x Hx; apply (Hfr p x); [left | exact Hx]).
  apply IH; [|exact Hl]. intros q x Hq Hx. apply (Hfr q x); [now right | exact Hx].
Qed.

Lemma flist_frame_page m m' l q h :
  (forall x, x < q \/ q + PGSIZE <= x -> m' x = m x) ->
  q mod PGSIZE = 0 -> (forall p, p ∈ l -> page_ok p) -> q ∉ l ->
  flist m h l -> flist m' h l.
Proof.
  intros Hout Hq Hal Hnin. apply flist_frame. intros p x Hp Hx.
  apply Hout.
  assert (Hne : p <> q) by (intros ->; contradiction).
  destruct (Hal p Hp) as [Hpa _].
  pose proof (pages_apart p q Hpa Hq Hne) as Hap. unfold PGSIZE in *. lia.
Qed.

Lemma flist_head_range m h l :
  flist m h l -> (forall p, p ∈ l -> page_ok p) -> 0 <= h < 2 ^ 64.
Proof.
  destruct l as [|p l]; simpl.
  - intros -> _. lia.
  - intros [-> _] H. destruct (H p) as [_ ?]; [left | lia].
Qed.

Lemma flist_null m l : flist m 0 l -> (forall p, p ∈ l -> page_ok p) -> l = [].
Proof.
  destruct l as [|p l]; [reflexivity|]. simpl. intros [<- _] H.
  destruct (H 0) as [_ ?]; [left | lia].
Qed.

Lemma flist_nonnull m h l :
  flist m h l -> h <> 0 -> exists t, l = h :: t /\ flist m (load64 m h) t.
Proof.
  destruct l as [|p l]; simpl; [congruence|].
  intros [-> Hl] _. eauto.
Qed.

Lemma flist_store64 m p v l h :
  p mod PGSIZE = 0 -> (forall q, q ∈ l -> page_ok q) -> p ∉ l ->
  flist m h l -> flist (store64 m p v) h l.
Proof.
  intros Hp Hok Hnin. apply (flist_frame_page m _ l p h); auto.
  intros x Hx. apply store64_out. unfold PGSIZE in Hx. lia.
Qed.

Lemma flist_memset m p c l h :
  p mod PGSIZE = 0 -> (forall q, q ∈ l -> page_ok q) -> p ∉ l ->
  flist m h l -> flist (memset m p c PGSIZE) h l.
Proof.
  intros Hp Hok Hnin. apply (flist_frame_page m _ l p h); auto.
  intros x Hx. apply memset_out. lia.
Qed.

(** *** The list model of stealing *)

Section StealModel.

Local Open Scope nat_scope.

Variable cpu : nat.

Lemma steal_loop_model_spec i : i <> cpu -> forall n L,
  let k := n `min` length (L i) in
  (steal_loop_model n cpu i L).2 = n - k /\
  (steal_loop_model n cpu i L).1 i = drop k (L i) /\
  length ((steal_loop_model n cpu i L).1 cpu) = k + length (L cpu) /\
  (forall j, j <> i -> j <> cpu -> (steal_loop_model n cpu i L).1 j = L j).
Proof.
  intros Hne. induction n as [|n IH]; intros L; cbn zeta.
  - simpl. repeat split; auto.
  - cbn [steal_loop_model]. destruct (L i) as [|p t] eqn:HLi.
    + simpl. repeat split; auto.
    + specialize (IH (move_page L i cpu p t)). cbn zeta in IH.
      assert (Hi : move_page L i cpu p t i = t).
      { unfold move_page. rewrite fupd_ne by congruence. apply fupd_eq. }
      assert (Hc : move_page L i cpu p t cpu = p :: L cpu).
      { unfold move_page. rewrite fupd_eq. now rewrite fupd_ne by congruence. }
      assert (Ho : forall j, j <> i -> j <> cpu -> move_page L i cpu p t j = L j).
      { intros j Hji Hjc. unfold move_page. now rewrite !fupd_ne by congruence. }
      rewrite Hi, Hc in IH. destruct IH as (H1 & H2 & H3 & H4).
      simpl length. rewrite <- Nat.succ_min_distr.
      repeat split.
      * rewrite H1. lia.
      * rewrite H2. reflexivity.
      * rewrite H3. simpl. lia.
      * intros j Hji Hjc. rewrite H4 by assumption. now apply Ho.
Qed.

Lemma pages_lost_ext cpus (L1 L2 L' : nat -> list Z) :
  (forall j, j ∈ cpus -> j <> cpu -> L1 j = L2 j) ->
  pages_lost cpus cpu L1 L' = pages_lost cpus cpu L2 L'.
Proof.
  induction cpus as [|i rest IH]; intros H; [reflexivity|]. simpl.
  rewrite IH by (intros j Hj; apply H; now right).
  destruct (Nat.eqb_spec i cpu); [reflexivity|].
  rewrite (H i) by (auto; left). reflexivity.
Qed.

Lemma pages_lost_none cpus (L L' : nat -> list Z) :
  (forall j, j ∈ cpus -> j <> cpu -> L' j = L j) ->
  pages_lost cpus cpu L L' = 0.
Proof.
  induction cpus as [|i rest IH]; intros H; [reflexivity|]. simpl.
  rewrite IH by (intros j Hj; apply H; now right).
  destruct (Nat.eqb_spec i cpu); [reflexivity|].
  rewrite (H i) by (auto; left). lia.
Qed.



Lemma steal_cpus_model_spec cpus : NoDup cpus -> forall n L,
  let L' := steal_cpus_model cpus cpu n L in
  (forall j, j <> cpu -> j ∉ cpus -> L' j = L j) /\
  (forall j, j <> cpu -> exists k, L' j = drop k (L j)) /\
  length (L' cpu) = length (L cpu) + pages_lost cpus cpu L L' /\
  pages_lost cpus cpu L L' <= n /\
  (pages_lost cpus cpu L L' = n \/ forall j, j ∈ cpus -> j <> cpu -> L' j = []).
Proof.
  induction cpus as [|i rest IH]; intros Hnd n L; cbn zeta.
  - simpl. repeat split; auto; try lia.
    + intros j _. exists 0. reflexivity.
    + right. intros j Hj. inversion Hj.
  - apply NoDup_cons in Hnd as [Hi Hnd]. specialize (IH Hnd).
    cbn [steal_cpus_model pages_lost].
    destruct (Nat.eqb_spec i cpu) as [-> | Hne].
    + destruct (IH n L) as (H1 & H2 & H3 & H4 & H5). repeat split; auto.
      * intros j Hjc Hj. apply H1; auto. intros Hin. apply Hj. now right.
      * destruct H5 as [H5 | H5]; [now left | right].
        intros j [-> | Hj]%elem_of_cons Hjc; [contradiction | auto].
    + pose proof (steal_loop_model_spec i Hne n L) as Hloop. cbn zeta in Hloop.
      destruct (steal_loop_model n cpu i L) as [L1 n1]. simpl in Hloop.
      destruct Hloop as (Hn1 & HL1i & HL1c & HL1o).
      assert (Hsame : forall j, j ∈ rest -> j <> cpu -> L1 j = L j).
      { intros j Hj Hjc. apply HL1o; auto. intros ->. contradiction. }
      assert (Hlen : length (L i) - length (drop (n `min` length (L i)) (L i))
                     = n `min` length (L i))
        by (rewrite length_drop; lia).
      destruct (Nat.leb_spec n1 0) as [Hz | Hpos].
      * (* the batch is full *)
        rewrite HL1i, Hlen.
        rewrite (pages_lost_none rest L L1) by (intros j Hj Hjc; now apply Hsame).
        repeat split; try lia.
        -- intros j Hjc Hj. apply HL1o; auto. intros ->. apply Hj. left.
        -- intros j Hjc. destruct (Nat.eq_dec j i) as [-> | Hji]; [eauto|].
           exists 0. simpl. now apply HL1o.
      * destruct (IH n1 L1) as (H1 & H2 & H3 & H4 & H5).
        rewrite (H1 i) by auto. rewrite HL1i, Hlen.
        rewrite <- (pages_lost_ext rest L1 L) by exact Hsame.
        repeat split; try lia.
        -- intros j Hjc Hj. rewrite H1; auto.
           ++ apply HL1o; auto. intros ->. apply Hj. left.
           ++ intros Hin. apply Hj. now right.
        -- intros j Hjc. destruct (H2 j Hjc) as [k Hk].
           destruct (Nat.eq_dec j i) as [-> | Hji].
           ++ rewrite Hk, HL1i, drop_drop. eauto.
           ++ rewrite Hk, HL1o by auto. eauto.
        -- destruct H5 as [H5 | H5]; [left; lia | right].
           intros j [-> | Hj]%elem_of_cons Hjc; [|auto].
           rewrite (H1 i) by auto. rewrite HL1i. apply drop_ge. lia.
Qed.


End StealModel.

Section Arenas.

Variable NCPU : nat.

Ltac fupd_simpl :=
  repeat first
    [ rewrite fupd_eq
    | rewrite fupd_ne by (try assumption; congruence) ].

(** Moving the head page [p] of arena [i] to the head of arena [cpu]. *)
Lemma move_page_arenas s L i cpu p t :
  arenas NCPU s L -> (i < NCPU)%nat -> (cpu < NCPU)%nat -> i <> cpu ->
  L i = p :: t ->
  arenas NCPU
    (set_freelist cpu p
       (set_mem (store64 (mem s) p (freelist s cpu))
          (set_freelist i (load64 (mem s) p) s)))
    (move_page L i cpu p t).
Proof.
  intros (Hfl & Hok & Hnd & Hdj) Hi Hc Hne HLi.
  assert (Hp : page_ok p) by (apply (Hok i); [assumption | rewrite HLi; left]).
  pose proof (Hnd i Hi) as Hndi. rewrite HLi in Hndi.
  apply NoDup_cons in Hndi. destruct Hndi as [Hpt Hndt].
  assert (Htok : forall q, q ∈ t -> page_ok q).
  { intros q Hq. apply (Hok i); [assumption | rewrite HLi; now right]. }
  assert (Hpo : forall j, (j < NCPU)%nat -> j <> i -> p ∉ L j).
  { intros j Hj Hji Hin. apply (Hdj i j p); auto. rewrite HLi. left. }
  pose proof (Hfl i Hi) as Hfi. rewrite HLi in Hfi. simpl in Hfi.
  destruct Hfi as [Hhd Hft].
  pose proof (flist_head_range _ _ _ (Hfl cpu Hc) (fun q => Hok cpu q Hc)) as Hrange.
  unfold move_page. split; [|split; [|split]]; simpl.
  - (* the lists in memory *)
    intros j Hj. destruct (Nat.eq_dec j cpu) as [-> | Hjc].
    + fupd_simpl. simpl. split; [reflexivity|].
      rewrite load64_store64 by exact Hrange.
      apply flist_store64; auto; [apply Hp | intros q; apply Hok; assumption].
    + destruct (Nat.eq_dec j i) as [-> | Hji].
      * fupd_simpl. apply flist_store64; auto. apply Hp.
      * fupd_simpl. apply flist_store64; auto;
          [apply Hp | intros q; apply Hok; assumption].
  - intros j q Hj. destruct (Nat.eq_dec j cpu) as [-> | Hjc].
    + fupd_simpl. intros [-> | Hq]%elem_of_cons; [exact Hp | now apply (Hok cpu)].
    + destruct (Nat.eq_dec j i) as [-> | Hji]; fupd_simpl; auto.
      apply Hok; assumption.
  - intros j Hj. destruct (Nat.eq_dec j cpu) as [-> | Hjc].
    + fupd_simpl. apply NoDup_cons. split; auto.
    + destruct (Nat.eq_dec j i) as [-> | Hji]; fupd_simpl; auto.
  - intros j k q Hj Hk Hjk.
    assert (Hsub : forall a, (a < NCPU)%nat -> a <> cpu ->
              q ∈ fupd (fupd L i t) cpu (p :: fupd L i t cpu) a -> q ∈ L a).
    { intros a Ha Hac. destruct (Nat.eq_dec a i) as [-> | Hai]; fupd_simpl; auto.
      rewrite HLi. now right. }
    assert (Hcpu : forall a, (a < NCPU)%nat -> a <> cpu ->
              q ∈ fupd (fupd L i t) cpu (p :: fupd L i t cpu) cpu ->
              q ∈ fupd (fupd L i t) cpu (p :: fupd L i t cpu) a -> False).
    { intros a Ha Hac. fupd_simpl. intros [-> | Hq]%elem_of_cons Hqa.
      - destruct (Nat.eq_dec a i) as [-> | Hai]; revert Hqa; fupd_simpl.
        + exact Hpt.
        + apply (Hpo a); auto.
      - apply (Hdj cpu a q); auto. apply Hsub; auto. now fupd_simpl. }
    destruct (Nat.eq_dec j cpu) as [-> | Hjc].
    + intros H1 H2. apply (Hcpu k); auto.
    + destruct (Nat.eq_dec k cpu) as [-> | Hkc].
      * intros H1 H2. apply (Hcpu j); auto.
      * intros H1 H2. apply (Hdj j k q); auto.
Qed.

(** The inner loop moves pages as its list model says. *)
Lemma steal_loop_refines n cpu i : forall s L,
  arenas NCPU s L -> (i < NCPU)%nat -> (cpu < NCPU)%nat -> i <> cpu ->
  arenas NCPU (steal_loop n cpu i s).1 (steal_loop_model n cpu i L).1 /\
  (steal_loop n cpu i s).2 = (steal_loop_model n cpu i L).2.
Proof.
  induction n as [|n IH]; intros s L HA Hi Hc Hne; [split; [exact HA | reflexivity]|].
  cbn [steal_loop steal_loop_model].
  pose proof HA as (Hfl & Hok & _).
  destruct (Z.eqb_spec (freelist s i) 0) as [Hz | Hnz].
  - pose proof (Hfl i Hi) as Hfi. rewrite Hz in Hfi.
    apply flist_null in Hfi; [|intros q; apply Hok; assumption].
    rewrite Hfi. split; [exact HA | reflexivity].
  - destruct (flist_nonnull _ _ _ (Hfl i Hi) Hnz) as (t & HLi & _).
    rewrite HLi. apply IH; auto.
    pose proof (move_page_arenas s L i cpu (freelist s i) t HA Hi Hc Hne HLi) as H.
    cbn [mem freelist set_freelist set_mem] in *.
    rewrite (fupd_ne (freelist s) i cpu) by congruence. exact H.
Qed.

Lemma steal_cpus_refines cpus cpu : forall n s L,
  arenas NCPU s L -> (cpu < NCPU)%nat -> (forall i, i ∈ cpus -> (i < NCPU)%nat) ->
  arenas NCPU (steal_cpus cpus cpu n s) (steal_cpus_model cpus cpu n L).
Proof.
  induction cpus as [|i rest IH]; intros n s L HA Hc Hin; [exact HA|].
  cbn [steal_cpus steal_cpus_model].
  assert (Hrest : forall j, j ∈ rest -> (j < NCPU)%nat)
    by (intros j Hj; apply Hin; now right).
  destruct (Nat.eqb_spec i cpu) as [-> | Hne]; [now apply IH|].
  assert (Hi : (i < NCPU)%nat) by (apply Hin; left).
  destruct (steal_loop_refines n cpu i s L HA Hi Hc Hne) as [HA' Hn].
  destruct (steal_loop n cpu i s) as [s' n'].
  destruct (steal_loop_model n cpu i L) as [L' m']. simpl in HA', Hn. subst m'.
  destruct (Nat.leb n' 0); [exact HA' | now apply IH].
Qed.

(** Popping the head page of arena [cpu] and filling it with junk. *)
Lemma pop_page_arenas s L cpu r t c :
  arenas NCPU s L -> (cpu < NCPU)%nat -> L cpu = r :: t ->
  arenas NCPU
    (set_mem (memset (mem s) r c PGSIZE) (set_freelist cpu (load64 (mem s) r) s))
    (fupd L cpu t).
Proof.
  intros (Hfl & Hok & Hnd & Hdj) Hc HLc.
  assert (Hr : page_ok r) by (apply (Hok cpu); [assumption | rewrite HLc; left]).
  pose proof (Hnd cpu Hc) as Hndc. rewrite HLc in Hndc.
  apply NoDup_cons in Hndc. destruct Hndc as [Hrt Hndt].
  pose proof (Hfl cpu Hc) as Hfc. rewrite HLc in Hfc. destruct Hfc as [_ Hft].
  split; [|split; [|split]]; simpl.
  - intros j Hj. destruct (Nat.eq_dec j cpu) as [-> | Hjc]; fupd_simpl.
    + apply flist_memset; auto; [apply Hr|].
      intros q Hq. apply (Hok cpu); auto. rewrite HLc. now right.
    + apply flist_memset; auto; [apply Hr | intros q; apply Hok; assumption |].
      intros Hin. apply (Hdj cpu j r); auto. rewrite HLc. left.
  - intros j q Hj. destruct (Nat.eq_dec j cpu) as [-> | Hjc]; fupd_simpl.
    + intros Hq. apply (Hok cpu); auto. rewrite HLc. now right.
    + apply Hok; assumption.
  - intros j Hj. destruct (Nat.eq_dec j cpu) as [-> | Hjc]; fupd_simpl; auto.
  - intros j k q Hj Hk Hjk.
    assert (Hsub : forall a, (a < NCPU)%nat -> q ∈ fupd L cpu t a -> q ∈ L a).
    { intros a Ha. destruct (Nat.eq_dec a cpu) as [-> | Hac]; fupd_simpl; auto.
      rewrite HLc. now right. }
    intros H1 H2. apply (Hdj j k q); auto.
Qed.

(** Pushing a page that is in no list onto arena [cpu]. *)
Lemma push_page_arenas s L cpu pa c :
  arenas NCPU s L -> (cpu < NCPU)%nat -> page_ok pa ->
  (forall i, (i < NCPU)%nat -> pa ∉ L i) ->
  arenas NCPU
    (set_freelist cpu pa
       (set_mem (store64 (memset (mem s) pa c PGSIZE) pa (freelist s cpu)) s))
    (kfree_model cpu pa L).
Proof.
  intros (Hfl & Hok & Hnd & Hdj) Hc Hpa Hfree.
  pose proof (flist_head_range _ _ _ (Hfl cpu Hc) (fun q => Hok cpu q Hc)) as Hrange.
  assert (Hkeep : forall j, (j < NCPU)%nat ->
            flist (store64 (memset (mem s) pa c PGSIZE) pa (freelist s cpu))
              (freelist s j) (L j)).
  { intros j Hj. apply flist_store64; auto; [apply Hpa | intros q; apply Hok; assumption|].
    apply flist_memset; auto; [apply Hpa | intros q; apply Hok; assumption]. }
  unfold kfree_model. split; [|split; [|split]]; simpl.
  - intros j Hj. destruct (Nat.eq_dec j cpu) as [-> | Hjc]; fupd_simpl; auto.
    simpl. split; [reflexivity|]. rewrite load64_store64 by exact Hrange. auto.
  - intros j q Hj. destruct (Nat.eq_dec j cpu) as [-> | Hjc]; fupd_simpl.
    + intros [-> | Hq]%elem_of_cons; [exact Hpa | now apply (Hok cpu)].
    + apply Hok; assumption.
  - intros j Hj. destruct (Nat.eq_dec j cpu) as [-> | Hjc]; fupd_simpl; auto.
    apply NoDup_cons. split; auto.
  - intros j k q Hj Hk Hjk.
    destruct (Nat.eq_dec j cpu) as [-> | Hjc]; fupd_simpl.
    + intros [-> | Hq]%elem_of_cons Hqk; [now apply (Hfree k) | apply (Hdj cpu k q); auto].
    + destruct (Nat.eq_dec k cpu) as [-> | Hkc]; fupd_simpl.
      * intros Hqj [-> | Hq]%elem_of_cons; [now apply (Hfree j) | apply (Hdj j cpu q); auto].
      * apply Hdj; auto.
Qed.

(** kalloc does on the arenas what its list model does on the lists. *)
Lemma kalloc_refines cpu s L :
  arenas NCPU s L -> (cpu < NCPU)%nat ->
  (kalloc NCPU cpu s).1 = (kalloc_model NCPU cpu L).1 /\
  arenas NCPU (kalloc NCPU cpu s).2 (kalloc_model NCPU cpu L).2.
Proof.
  intros HA Hc. unfold kalloc, kalloc_model.
  set (s1 := if freelist s cpu =? 0 then _ else s).
  set (L1 := match L cpu with [] => _ | _ :: _ => L end).
  assert (HA1 : arenas NCPU s1 L1).
  { subst s1 L1. pose proof HA as (Hfl & Hok & _).
    destruct (Z.eqb_spec (freelist s cpu) 0) as [Hz | Hnz].
    - pose proof (Hfl cpu Hc) as Hfc. rewrite Hz in Hfc.
      apply flist_null in Hfc; [|intros q; apply Hok; assumption].
      rewrite Hfc. apply steal_cpus_refines; auto.
      intros i Hi. apply elem_of_seq in Hi. lia.
    - destruct (flist_nonnull _ _ _ (Hfl cpu Hc) Hnz) as (t & -> & _). exact HA. }
  clearbody s1 L1. pose proof HA1 as (Hfl & Hok & _).
  destruct (Z.eqb_spec (freelist s1 cpu) 0) as [Hz | Hnz].
  - pose proof (Hfl cpu Hc) as Hfc. rewrite Hz in Hfc.
    apply flist_null in Hfc; [|intros q; apply Hok; assumption].
    rewrite Hfc. simpl. auto.
  - destruct (flist_nonnull _ _ _ (Hfl cpu Hc) Hnz) as (t & HLc & _).
    rewrite HLc. simpl. split; [reflexivity|].
    now apply pop_page_arenas.
Qed.

End Arenas.

(** *** The executable checks are sound *)

Lemma flistb_sound m l : forall h, flistb m h l = true -> flist m h l.
Proof.
  induction l as [|p l IH]; intros h; simpl.
  - intros H. now apply Z.eqb_eq.
  - intros [H1 H2]%andb_true_iff. apply Z.eqb_eq in H1. auto.
Qed.

Lemma page_okb_sound p : page_okb p = true -> page_ok p.
Proof.
  unfold page_okb, page_ok.
  intros [[H1 H2]%andb_true_iff H3]%andb_true_iff.
  apply Z.eqb_eq in H1. apply Z.ltb_lt in H2, H3. lia.
Qed.

Lemma nodupb_sound l : nodupb l = true -> NoDup l.
Proof.
  induction l as [|x l IH]; simpl; [constructor|].
  intros [H1 H2]%andb_true_iff. apply NoDup_cons. split; [|auto].
  intros Hin. apply negb_true_iff in H1.
  assert (existsb (Z.eqb x) l = true); [|congruence].
  apply existsb_exists. exists x. split; [|apply Z.eqb_refl].
  now apply list_elem_of_In.
Qed.

Lemma NoDup_concat_map (L : nat -> list Z) cpus :
  NoDup cpus -> NoDup (concat (map L cpus)) ->
  (forall i, i ∈ cpus -> NoDup (L i)) /\
  (forall i j p, i ∈ cpus -> j ∈ cpus -> i <> j -> p ∈ L i -> p ∈ L j -> False).
Proof.
  induction cpus as [|a cpus IH]; simpl; intros Hc Hnd.
  - split; intros i; inversion 1.
  - apply NoDup_cons in Hc as [Ha Hc]. apply NoDup_app in Hnd as (H1 & H2 & H3).
    destruct (IH Hc H3) as [IH1 IH2].
    assert (Hcross : forall j p, j ∈ cpus -> p ∈ L a -> p ∈ L j -> False).
    { intros j p Hj Hpa Hpj. apply (H2 p Hpa).
      apply list_elem_of_In, in_concat. exists (L j).
      split; [apply in_map|]; now apply list_elem_of_In. }
    split.
    + intros i [-> | Hi]%elem_of_cons; auto.
    + intros i j p [-> | Hi]%elem_of_cons [-> | Hj]%elem_of_cons Hij; eauto;
        congruence.
Qed.

Lemma arenasb_sound NCPU s L : arenasb NCPU s L = true -> arenas NCPU s L.
Proof.
  unfold arenasb. intros [H1 H2]%andb_true_iff.
  apply nodupb_sound in H2.
  destruct (NoDup_concat_map L (seq 0 NCPU) (NoDup_seq _ _) H2) as [H3 H4].
  assert (Hseq : forall i, (i < NCPU)%nat -> i ∈ seq 0 NCPU)
    by (intros i Hi; apply elem_of_seq; lia).
  assert (H1' : forall i, (i < NCPU)%nat ->
            flistb (mem s) (freelist s i) (L i) = true /\
            forallb page_okb (L i) = true).
  { intros i Hi. rewrite forallb_forall in H1.
    apply andb_true_iff. apply H1. apply list_elem_of_In. auto. }
  split; [|split; [|split]].
  - intros i Hi. apply flistb_sound. now apply H1'.
  - intros i p Hi Hp. apply page_okb_sound.
    destruct (H1' i Hi) as [_ Hall]. rewrite forallb_forall in Hall.
    apply Hall. now apply list_elem_of_In.
  - auto.
  - intros i j p Hi Hj. apply H4; auto.
Qed.

(** ** What the specification states about the allocator *)

(** C7 as amended.  kfree panics exactly when the address is not
    page-aligned, is below the end of the kernel, or is at or above
    PHYSTOP.  For every other address it returns: the page has been
    overwritten with the byte 1 and then linked in front of the free
    list of the current CPU (so its first 8 bytes hold the old head of
    that list and all its other bytes hold 1), the free-list heads of
    the other arenas and all memory outside the page are as before,
    and so is every list of pages that does not go through the freed
    page. *)
Theorem kfree_spec (kend PHYSTOP : Z) (cpu : nat) (pa : Z) (s : kmem_t) :
  (is_panic (kfree kend PHYSTOP cpu pa s) <->
     pa mod PGSIZE <> 0 \/ pa < kend \/ PHYSTOP <= pa) /\
  (pa mod PGSIZE = 0 -> kend <= pa -> pa < PHYSTOP ->
   exists s',
     kfree kend PHYSTOP cpu pa s = Ok s' /\
     (exists m1,
        (forall x, pa <= x < pa + PGSIZE -> m1 x = 1) /\
        (forall x, x < pa \/ pa + PGSIZE <= x -> m1 x = mem s x) /\
        (forall x, mem s' x = store64 m1 pa (freelist s cpu) x)) /\
     freelist s' cpu = pa /\
     (0 <= freelist s cpu < 2 ^ 64 -> load64 (mem s') pa = freelist s cpu) /\
     (forall x, pa + 8 <= x < pa + PGSIZE -> mem s' x = 1) /\
     (forall i, i <> cpu -> freelist s' i = freelist s i) /\
     (forall x, x < pa \/ pa + PGSIZE <= x -> mem s' x = mem s x) /\
     (forall i l, i <> cpu -> (forall q, q ∈ l -> page_ok q) -> pa ∉ l ->
        flist (mem s) (freelist s i) l -> flist (mem s') (freelist s' i) l)).
Proof.
  unfold kfree. split.
  - destruct (Z.eqb_spec (pa mod PGSIZE) 0), (Z.ltb_spec pa kend),
      (Z.leb_spec PHYSTOP pa); simpl; intuition lia.
  - intros Hal Hlo Hhi.
    destruct (Z.eqb_spec (pa mod PGSIZE) 0); [|lia].
    destruct (Z.ltb_spec pa kend); [lia|].
    destruct (Z.leb_spec PHYSTOP pa); [lia|]. simpl.
    eexists. split; [reflexivity|]. simpl.
    assert (Hfill : forall x, pa <= x < pa + PGSIZE ->
              memset (mem s) pa 1 PGSIZE x = 1)
      by (intros x Hx; now rewrite memset_in).
    split; [|split; [|split; [|split; [|split; [|split]]]]].
    + exists (memset (mem s) pa 1 PGSIZE). split; [exact Hfill|]. split; [|reflexivity].
      intros x Hx. now apply memset_out.
    + apply fupd_eq.
    + intros Hr. now apply load64_store64.
    + intros x Hx. rewrite store64_out by lia. apply Hfill. lia.
    + intros i Hi. now apply fupd_ne.
    + intros x Hx. rewrite store64_out by (unfold PGSIZE in Hx; lia).
      now apply memset_out.
    + intros i l Hi Hok Hnin Hl. rewrite fupd_ne by exact Hi.
      apply flist_store64; auto. apply flist_memset; auto.
Qed.

Lemma kfree_spec_witness :
  exists s', kfree ex_end ex_PHYSTOP 0%nat ex_end kmem_bss = Ok s' /\
             freelist s' 0%nat = ex_end /\ mem s' (ex_end + 100) = 1.
Proof.
  destruct (kfree_spec ex_end ex_PHYSTOP 0%nat ex_end kmem_bss) as [_ H].
  destruct H as (s' & H1 & _ & H2 & _ & H3 & _);
    [vm_compute; reflexivity | vm_compute; discriminate | vm_compute; reflexivity |].
  exists s'. split; [exact H1|]. split; [exact H2|].
  apply H3. vm_compute. split; [discriminate | reflexivity].
Defined.

(** C7 as stated fails for a valid page that is on the list of another
    CPU: kfree does not look for the page on the lists.  In
    [ex_shared] the lists are well formed and CPU 1 holds pages A and
    B; kfree(A) on CPU 0 returns, and CPU 1's list is then A followed
    by C, the page that was on CPU 0's list, and no longer A, B. *)
Lemma kfree_changes_other_list :
  arenas 2 ex_shared ex_shared_lists /\
  (ex_pageA mod PGSIZE = 0) /\ (ex_end <= ex_pageA) /\ (ex_pageA < ex_PHYSTOP) /\
  flist (mem ex_shared) (freelist ex_shared 1) [ex_pageA; ex_pageB] /\
  exists s',
    kfree ex_end ex_PHYSTOP 0%nat ex_pageA ex_shared = Ok s' /\
    flist (mem s') (freelist s' 1) [ex_pageA; ex_pageC] /\
    ~ flist (mem s') (freelist s' 1) [ex_pageA; ex_pageB].
Proof.
  split; [apply arenasb_sound; vm_compute; reflexivity|].
  split; [vm_compute; reflexivity|].
  split; [vm_compute; discriminate|].
  split; [vm_compute; reflexivity|].
  split; [vm_compute; auto|].
  unfold kfree.
  change (negb (ex_pageA mod PGSIZE =? 0) || (ex_pageA <? ex_end)
          || (ex_PHYSTOP <=? ex_pageA)) with false.
  cbv iota. eexists. split; [reflexivity|].
  split; [vm_compute; auto|].
  intros H. vm_compute in H. destruct H as (_ & H & _). discriminate.
Qed.

(** kfree keeps the arenas well formed when the page is in no list. *)
Lemma kfree_arenas NCPU kend PHYSTOP cpu pa s L :
  0 < kend -> PHYSTOP <= 2 ^ 64 ->
  arenas NCPU s L -> (cpu < NCPU)%nat ->
  pa mod PGSIZE = 0 -> kend <= pa -> pa < PHYSTOP ->
  (forall i, (i < NCPU)%nat -> pa ∉ L i) ->
  exists s', kfree kend PHYSTOP cpu pa s = Ok s' /\
             arenas NCPU s' (kfree_model cpu pa L).
Proof.
  intros Hk Hp HA Hc Hal Hlo Hhi Hfree. unfold kfree.
  destruct (Z.eqb_spec (pa mod PGSIZE) 0); [|lia].
  destruct (Z.ltb_spec pa kend); [lia|].
  destruct (Z.leb_spec PHYSTOP pa); [lia|]. simpl.
  eexists. split; [reflexivity|].
  apply (push_page_arenas NCPU s L cpu pa 1); auto. split; [exact Hal | lia].
Qed.

(** C8 as amended.  Whatever the state and whatever its previous holder
    wrote into it, a page returned by kalloc holds the byte 5 in every
    position. *)
Theorem kalloc_fills_junk (NCPU cpu : nat) (s : kmem_t) :
  (kalloc NCPU cpu s).1 <> 0 ->
  forall x, (kalloc NCPU cpu s).1 <= x < (kalloc NCPU cpu s).1 + PGSIZE ->
    mem (kalloc NCPU cpu s).2 x = 5.
Proof.
  unfold kalloc. cbn zeta.
  set (s1 := if freelist s cpu =? 0 then _ else s). clearbody s1. simpl.
  intros Hr x Hx. destruct (Z.eqb_spec (freelist s1 cpu) 0); [contradiction|].
  simpl. now rewrite memset_in.
Qed.

Lemma kalloc_fills_junk_witness :
  (kalloc 2 0%nat ex_dirty).1 = ex_end /\
  mem (kalloc 2 0%nat ex_dirty).2 (ex_end + 100) = 5.
Proof.
  split; [vm_compute; reflexivity|].
  apply (kalloc_fills_junk 2 0%nat ex_dirty).
  - vm_compute. discriminate.
  - vm_compute. split; [discriminate | reflexivity].
Defined.

(** C8 as stated fails: the page freed in [ex_dirty] comes back from
    kalloc with the byte 5, not the byte 1 that kfree wrote. *)
Lemma kalloc_roundtrip_not_freed_junk :
  ~ is_panic (kfree ex_end ex_PHYSTOP 0%nat ex_end
                (set_mem (memset (mem kmem_bss) ex_end 0xAA PGSIZE) kmem_bss)) /\
  (kalloc 2 0%nat ex_dirty).1 = ex_end /\
  ~ (forall x, ex_end <= x < ex_end + PGSIZE ->
       mem (kalloc 2 0%nat ex_dirty).2 x = 1).
Proof.
  split; [vm_compute; tauto|]. split; [vm_compute; reflexivity|].
  intros H. specialize (H (ex_end + 100)).
  assert (Hx : ex_end <= ex_end + 100 < ex_end + PGSIZE)
    by (vm_compute; split; [discriminate | reflexivity]).
  specialize (H Hx). vm_compute in H. discriminate.
Qed.



End KallocProofs.

(* ================================================================== *)
(** * Facts about the buffer cache *)
(* ================================================================== *)

Module BioProofs.
Import Bio.

(** *** Array and chain updates *)

Lemma buf_at_upd_buf c n f m :
  (n < length (bufs c))%nat ->
  buf_at (upd_buf n f c) m = if decide (m = n) then f (buf_at c n) else buf_at c m.
Proof.
  intros Hn. unfold buf_at, upd_buf. simpl.
  destruct (decide (m = n)) as [-> | Hne].
  - apply nth_lookup_Some with (d := zero_buf). now apply list_lookup_insert_eq.
  - rewrite !nth_lookup. now rewrite list_lookup_insert_ne.
Qed.

Lemma buf_at_upd_buf_eq c n f :
  (n < length (bufs c))%nat -> buf_at (upd_buf n f c) n = f (buf_at c n).
Proof. intros Hn. rewrite buf_at_upd_buf by exact Hn. now rewrite decide_True. Qed.

Lemma buf_at_upd_buf_ne c n f m :
  m <> n -> buf_at (upd_buf n f c) m = buf_at c m.
Proof.
  intros Hne. unfold buf_at, upd_buf. simpl.
  rewrite !nth_lookup. now rewrite list_lookup_insert_ne.
Qed.

(** An update that keeps a field keeps it at every index, in range or not. *)
Lemma buf_at_upd_buf_field {A} (g : buf -> A) c n f m :
  (forall b, g (f b) = g b) -> g (buf_at (upd_buf n f c) m) = g (buf_at c m).
Proof.
  intros Hg. destruct (decide (m = n)) as [-> | Hne].
  - destruct (decide (n < length (bufs c))%nat) as [Hlt | Hge].
    + rewrite buf_at_upd_buf_eq by exact Hlt. apply Hg.
    + unfold upd_buf, buf_at. simpl. now rewrite list_insert_ge by lia.
  - now rewrite buf_at_upd_buf_ne.
Qed.

Lemma length_bufs_upd_buf c n f : length (bufs (upd_buf n f c)) = length (bufs c).
Proof. unfold upd_buf. simpl. apply length_insert. Qed.

Lemma chain_at_upd_buf c n f i : chain_at (upd_buf n f c) i = chain_at c i.
Proof. reflexivity. Qed.

Lemma chain_at_set_chain c i ch j :
  (i < length (bufmap c))%nat ->
  chain_at (set_chain i ch c) j = if decide (j = i) then ch else chain_at c j.
Proof.
  intros Hi. unfold chain_at, set_chain. simpl.
  destruct (decide (j = i)) as [-> | Hne].
  - apply nth_lookup_Some with (d := []). now apply list_lookup_insert_eq.
  - rewrite !nth_lookup. now rewrite list_lookup_insert_ne.
Qed.

Lemma buf_at_set_chain c i ch n : buf_at (set_chain i ch c) n = buf_at c n.
Proof. reflexivity. Qed.

Lemma chain_at_ge c i : (length (bufmap c) <= i)%nat -> chain_at c i = [].
Proof. intros H. unfold chain_at. now apply nth_overflow. Qed.

Lemma hash_range d bn : 0 <= BUFMAP_HASH d bn < NBUFMAP_BUCKET.
Proof. unfold BUFMAP_HASH, NBUFMAP_BUCKET. apply Z.mod_pos_bound. lia. Qed.

(** *** The victim scan *)

Section Scan.

Variable c : bcache_t.

Lemma scan_chain_result i : forall chain seen pos l nf,
  scan_result c seen l ->
  scan_result c (seen ++ chain) (scan_chain c i pos chain l nf).1.
Proof.
  induction chain as [|n rest IH]; intros seen pos l nf Hl; cbn [scan_chain].
  - now rewrite app_nil_r.
  - replace (seen ++ n :: rest) with ((seen ++ [n]) ++ rest)
      by (now rewrite <- app_assoc).
    destruct (Z.eqb_spec (refcnt (buf_at c n)) 0) as [Hz | Hnz]; cbn [andb].
    + destruct l as [l|]; cbn [scan_result] in Hl.
      * destruct (Z.ltb_spec (lastuse (buf_at c n)) (lastuse (buf_at c (c_buf l))))
          as [Hlt | Hge]; apply IH; cbn [scan_result c_buf].
        -- destruct Hl as (Hv & pre & post & -> & Hpre & Hpost).
           split; [exact Hz|]. exists (pre ++ c_buf l :: post), []. split; [reflexivity|].
           split; [|intros u Hu; inversion Hu].
           intros u [Hu | [-> | Hu]%elem_of_cons]%elem_of_app Hr.
           ++ specialize (Hpre u Hu Hr). lia.
           ++ exact Hlt.
           ++ specialize (Hpost u Hu Hr). lia.
        -- destruct Hl as (Hv & pre & post & -> & Hpre & Hpost).
           split; [exact Hv|]. exists pre, (post ++ [n]).
           split; [now rewrite <- app_assoc|]. split; [exact Hpre|].
           intros u [Hu | ->%list_elem_of_singleton]%elem_of_app Hr; auto.
      * apply IH. cbn [scan_result c_buf]. split; [exact Hz|].
        exists seen, []. split; [reflexivity|].
        split; [|intros u Hu; inversion Hu].
        intros u Hu Hr. now specialize (Hl u Hu).
    + apply IH. destruct l as [l|]; cbn [scan_result] in *.
      * destruct Hl as (Hv & pre & post & -> & Hpre & Hpost).
        split; [exact Hv|]. exists pre, (post ++ [n]).
        split; [now rewrite <- app_assoc|]. split; [exact Hpre|].
        intros u [Hu | ->%list_elem_of_singleton]%elem_of_app Hr; [auto | contradiction].
      * intros u [Hu | ->%list_elem_of_singleton]%elem_of_app; auto.
Qed.

Lemma scan_chain_pos i : (i < Z.to_nat NBUFMAP_BUCKET)%nat ->
  forall chain done l nf,
  chain_at c i = done ++ chain ->
  (forall l0, l = Some l0 -> cand_ok c l0) ->
  forall l', (scan_chain c i (length done) chain l nf).1 = Some l' -> cand_ok c l'.
Proof.
  intros Hi. induction chain as [|n rest IH]; intros done l nf Hch Hl l';
    cbn [scan_chain].
  - simpl. auto.
  - assert (Hch' : chain_at c i = (done ++ [n]) ++ rest)
      by (now rewrite <- app_assoc).
    assert (Hlen : length (done ++ [n]) = S (length done))
      by (rewrite length_app; simpl; lia).
    rewrite <- Hlen.
    destruct (_ && _); apply IH; auto.
    intros l0 [= <-]. split; [exact Hi|]. simpl. rewrite Hch.
    rewrite lookup_app_r by lia. now rewrite Nat.sub_diag.
Qed.

Lemma scan_chain_bucket i : forall chain pos l0 nf,
  c_bucket l0 = i ->
  exists l, (scan_chain c i pos chain (Some l0) nf).1 = Some l /\ c_bucket l = i.
Proof.
  induction chain as [|n rest IH]; intros pos l0 nf Hb; cbn [scan_chain].
  - simpl. eauto.
  - destruct (_ && _); apply IH; auto.
Qed.

Lemma scan_chain_flag i : forall chain pos l nf,
  ((scan_chain c i pos chain l nf).2 = false ->
     nf = false /\ (scan_chain c i pos chain l nf).1 = l) /\
  ((scan_chain c i pos chain l nf).2 = true ->
     nf = true \/ exists l', (scan_chain c i pos chain l nf).1 = Some l' /\ c_bucket l' = i).
Proof.
  induction chain as [|n rest IH]; intros pos l nf; cbn [scan_chain].
  - simpl. split; auto.
  - destruct (_ && _).
    + destruct (IH (S pos) (Some {| c_bucket := i; c_pos := pos; c_buf := n |}) true)
        as [IH1 IH2].
      split.
      * intros H. destruct (IH1 H) as [? _]. discriminate.
      * intros _. right. now apply scan_chain_bucket.
    + apply IH.
Qed.

Lemma scan_buckets_result : forall buckets seen l hb,
  scan_result c seen l ->
  scan_result c (seen ++ concat (map (chain_at c) buckets))
    (scan_buckets c buckets l hb).1.
Proof.
  induction buckets as [|i rest IH]; intros seen l hb Hl; cbn [scan_buckets].
  - simpl. now rewrite app_nil_r.
  - pose proof (scan_chain_result i (chain_at c i) seen 0%nat l false Hl) as H.
    destruct (scan_chain c i 0 (chain_at c i) l false) as [l' nf'].
    simpl in H. simpl map. simpl concat. rewrite app_assoc. now apply IH.
Qed.

Lemma scan_buckets_pos : forall buckets l hb,
  (forall i, i ∈ buckets -> (i < Z.to_nat NBUFMAP_BUCKET)%nat) ->
  (forall l0, l = Some l0 -> cand_ok c l0 /\ hb = Z.of_nat (c_bucket l0)) ->
  forall l', (scan_buckets c buckets l hb).1 = Some l' ->
    cand_ok c l' /\ (scan_buckets c buckets l hb).2 = Z.of_nat (c_bucket l').
Proof.
  induction buckets as [|i rest IH]; intros l hb Hin Hl l'; cbn [scan_buckets].
  - simpl. auto.
  - assert (Hi : (i < Z.to_nat NBUFMAP_BUCKET)%nat) by (apply Hin; left).
    pose proof (scan_chain_pos i Hi (chain_at c i) [] l false eq_refl
                  (fun l0 H => proj1 (Hl l0 H))) as Hpos.
    pose proof (scan_chain_flag i (chain_at c i) 0%nat l false) as [Hf Ht].
    simpl length in Hpos.
    destruct (scan_chain c i 0 (chain_at c i) l false) as [l1 nf1].
    simpl in Hpos, Hf, Ht.
    apply IH; [intros j Hj; apply Hin; now right|].
    intros l0 ->. split; [now apply Hpos|].
    destruct nf1.
    + destruct Ht as [? | (l2 & [= <-] & <-)]; [reflexivity | discriminate | reflexivity].
    + destruct (Hf eq_refl) as [_ <-]. now apply Hl.
Qed.

(** The scan ends on the first buffer of least [lastuse] among those
    without a reference, and knows where it is. *)
Lemma find_victim_spec :
  scan_result c (scan_order c) (find_victim c).1 /\
  (forall l, (find_victim c).1 = Some l ->
     cand_ok c l /\ (find_victim c).2 = Z.of_nat (c_bucket l)).
Proof.
  unfold find_victim, scan_order. split.
  - apply (scan_buckets_result _ [] None); simpl. intros u Hu. inversion Hu.
  - apply scan_buckets_pos; [|discriminate].
    intros i Hi. apply elem_of_seq in Hi. lia.
Qed.

End Scan.

(** *** Looking a block up on a chain *)

Lemma chain_find_Some c chain d bn n :
  chain_find c chain d bn = Some n ->
  n ∈ chain /\ dev (buf_at c n) = d /\ blockno (buf_at c n) = bn.
Proof.
  induction chain as [|m rest IH]; simpl; [discriminate|].
  destruct (Z.eqb_spec (dev (buf_at c m)) d) as [Hd | Hd]; simpl.
  - destruct (Z.eqb_spec (blockno (buf_at c m)) bn) as [Hb | Hb].
    + intros [= <-]. split; [left | auto].
    + intros H. destruct (IH H) as (? & ? & ?). split; [now right | auto].
  - intros H. destruct (IH H) as (? & ? & ?). split; [now right | auto].
Qed.

Lemma chain_find_None c chain d bn :
  chain_find c chain d bn = None ->
  forall m, m ∈ chain -> ~ (dev (buf_at c m) = d /\ blockno (buf_at c m) = bn).
Proof.
  induction chain as [|x rest IH]; simpl; intros H m Hm; [inversion Hm|].
  destruct (Z.eqb_spec (dev (buf_at c x)) d) as [Hd | Hd]; simpl in H.
  - destruct (Z.eqb_spec (blockno (buf_at c x)) bn) as [Hb | Hb]; [discriminate|].
    apply elem_of_cons in Hm as [-> | Hm]; [tauto | now apply IH].
  - apply elem_of_cons in Hm as [-> | Hm]; [tauto | now apply IH].
Qed.

(** The walk reads nothing but [dev] and [blockno]. *)
Lemma chain_find_ext c c' chain d bn :
  (forall m, m ∈ chain ->
     dev (buf_at c' m) = dev (buf_at c m) /\
     blockno (buf_at c' m) = blockno (buf_at c m)) ->
  chain_find c' chain d bn = chain_find c chain d bn.
Proof.
  induction chain as [|x rest IH]; intros H; simpl; [reflexivity|].
  destruct (H x) as [-> ->]; [left|].
  rewrite IH by (intros m Hm; apply H; now right). reflexivity.
Qed.

(** A buffer that is not the one found can change or leave the chain. *)
Lemma chain_find_skip c c' chain d bn n v :
  chain_find c chain d bn = Some n -> n <> v ->
  (forall m, m <> v ->
     dev (buf_at c' m) = dev (buf_at c m) /\
     blockno (buf_at c' m) = blockno (buf_at c m)) ->
  ~ (dev (buf_at c' v) = d /\ blockno (buf_at c' v) = bn) ->
  chain_find c' chain d bn = Some n.
Proof.
  intros Hf Hne Hsame Hv. induction chain as [|x rest IH]; simpl in *; [discriminate|].
  destruct (decide (x = v)) as [-> | Hxv].
  - assert (Hc' : (dev (buf_at c' v) =? d) && (blockno (buf_at c' v) =? bn) = false).
    { apply not_true_is_false. intros [H1 H2]%andb_true_iff.
      apply Z.eqb_eq in H1, H2. tauto. }
    rewrite Hc'. apply IH.
    destruct ((dev (buf_at c v) =? d) && (blockno (buf_at c v) =? bn));
      [congruence | exact Hf].
  - destruct (Hsame x Hxv) as [-> ->].
    destruct ((dev (buf_at c x) =? d) && (blockno (buf_at c x) =? bn));
      [exact Hf | now apply IH].
Qed.

Lemma chain_find_delete c chain d bn n v : forall pos,
  chain !! pos = Some v ->
  chain_find c chain d bn = Some n -> n <> v ->
  chain_find c (delete pos chain) d bn = Some n.
Proof.
  induction chain as [|x rest IH]; intros pos Hpos Hf Hne; [discriminate|].
  destruct pos as [|pos]; simpl in *.
  - injection Hpos as ->.
    destruct ((dev (buf_at c v) =? d) && (blockno (buf_at c v) =? bn));
      [congruence | exact Hf].
  - destruct ((dev (buf_at c x) =? d) && (blockno (buf_at c x) =? bn));
      [exact Hf | now apply IH].
Qed.

(** A chain without a match for (d, bn) finds the buffer that takes
    this identity. *)
Lemma chain_find_new c c' chain d bn v :
  chain_find c chain d bn = None -> v ∈ chain ->
  (forall m, m <> v ->
     dev (buf_at c' m) = dev (buf_at c m) /\
     blockno (buf_at c' m) = blockno (buf_at c m)) ->
  dev (buf_at c' v) = d -> blockno (buf_at c' v) = bn ->
  chain_find c' chain d bn = Some v.
Proof.
  intros Hf Hin Hsame Hd Hb. induction chain as [|x rest IH]; simpl in *;
    [inversion Hin|].
  destruct (decide (x = v)) as [-> | Hxv].
  - rewrite Hd, Hb, !Z.eqb_refl. reflexivity.
  - destruct (Hsame x Hxv) as [-> ->].
    destruct ((dev (buf_at c x) =? d) && (blockno (buf_at c x) =? bn));
      [discriminate|].
    apply IH; auto. apply elem_of_cons in Hin as [-> | Hin]; [contradiction | exact Hin].
Qed.

Lemma lookup_Some c d bn n :
  lookup c d bn = Some n ->
  n ∈ chain_at c (Z.to_nat (BUFMAP_HASH d bn)) /\
  dev (buf_at c n) = d /\ blockno (buf_at c n) = bn.
Proof. apply chain_find_Some. Qed.

(** *** Lists *)

Lemma elem_of_delete_ne {A} (l : list A) pos v n :
  l !! pos = Some v -> n ∈ l -> n <> v -> n ∈ delete pos l.
Proof.
  revert pos. induction l as [|x l IH]; intros pos Hpos Hn Hne; [inversion Hn|].
  destruct pos as [|pos]; simpl in *.
  - injection Hpos as ->. apply elem_of_cons in Hn as [-> | Hn]; [contradiction | exact Hn].
  - apply elem_of_cons in Hn as [-> | Hn]; [left | right; now apply (IH pos)].
Qed.

Lemma elem_of_delete_sub {A} (l : list A) pos n : n ∈ delete pos l -> n ∈ l.
Proof.
  revert pos. induction l as [|x l IH]; intros pos Hn; [exact Hn|].
  destruct pos as [|pos]; simpl in *; [now right|].
  apply elem_of_cons in Hn as [-> | Hn]; [left | right; now apply (IH pos)].
Qed.

Lemma NoDup_delete {A} (l : list A) pos : NoDup l -> NoDup (delete pos l).
Proof.
  revert pos. induction l as [|x l IH]; intros pos Hnd; [exact Hnd|].
  apply NoDup_cons in Hnd as [Hx Hnd].
  destruct pos as [|pos]; simpl; [exact Hnd|].
  apply NoDup_cons. split; [|now apply IH].
  intros Hin. apply Hx. now apply elem_of_delete_sub in Hin.
Qed.

Lemma not_elem_of_delete {A} (l : list A) pos v :
  NoDup l -> l !! pos = Some v -> v ∉ delete pos l.
Proof.
  revert pos. induction l as [|x l IH]; intros pos Hnd Hpos; [discriminate|].
  apply NoDup_cons in Hnd as [Hx Hnd].
  destruct pos as [|pos]; simpl in *.
  - now injection Hpos as ->.
  - intros [-> | Hin]%elem_of_cons.
    + apply Hx. now apply list_elem_of_lookup_2 in Hpos.
    + now apply (IH pos Hnd Hpos).
Qed.

(** *** The invariant under updates that keep a buffer's identity *)

Lemma fp_upd_buf c n f m : keeps_fp f ->
  dev (buf_at (upd_buf n f c) m) = dev (buf_at c m) /\
  blockno (buf_at (upd_buf n f c) m) = blockno (buf_at c m).
Proof.
  intros Hf. split.
  - apply (buf_at_upd_buf_field dev). intros b. apply Hf.
  - apply (buf_at_upd_buf_field blockno). intros b. apply Hf.
Qed.

Lemma lookup_upd_buf c n f d bn : keeps_fp f ->
  lookup (upd_buf n f c) d bn = lookup c d bn.
Proof.
  intros Hf. unfold lookup. rewrite chain_at_upd_buf.
  apply chain_find_ext. intros m _. now apply fp_upd_buf.
Qed.

Lemma wf_upd_buf c n f : keeps_fp f -> wf c -> wf (upd_buf n f c).
Proof.
  intros Hf (Hlen & Hnd & Hcov & Hhash). split; [|split; [|split]].
  - exact Hlen.
  - exact Hnd.
  - intros m. rewrite length_bufs_upd_buf. apply Hcov.
  - intros i m Hm. rewrite chain_at_upd_buf in Hm.
    destruct (fp_upd_buf c n f m Hf) as [-> ->]. now apply Hhash.
Qed.

(** A change of the reference count of a buffer that its lookup finds. *)
Lemma inv_upd_found c H n f H' :
  keeps_fp f -> inv c H ->
  lookup c (dev (buf_at c n)) (blockno (buf_at c n)) = Some n ->
  (n < length (bufs c))%nat ->
  (forall m, m ∈ H' -> m = n \/ m ∈ H) ->
  inv (upd_buf n f c) H'.
Proof.
  intros Hf (Hwf & Hhand & Hshadow) Hfound Hn Hsub. split; [|split].
  - now apply wf_upd_buf.
  - intros m Hm. rewrite length_bufs_upd_buf.
    destruct (Hsub m Hm) as [-> | HmH]; auto.
  - intros m Hm. rewrite length_bufs_upd_buf in Hm.
    destruct (fp_upd_buf c n f m Hf) as [-> ->].
    rewrite lookup_upd_buf by exact Hf. intros Hnot.
    assert (Hmn : m <> n) by (intros ->; contradiction).
    destruct (Hshadow m Hm Hnot) as [Hr HmH].
    rewrite buf_at_upd_buf_ne by exact Hmn. split; [exact Hr|].
    intros Hin. destruct (Hsub m Hin); [contradiction | contradiction].
Qed.

(** A buffer handed out is found by its lookup. *)
Lemma handed_found c H n :
  inv c H -> n ∈ H ->
  (n < length (bufs c))%nat /\
  lookup c (dev (buf_at c n)) (blockno (buf_at c n)) = Some n.
Proof.
  intros (_ & Hhand & Hshadow) Hn. split; [auto|].
  destruct (decide (lookup c (dev (buf_at c n)) (blockno (buf_at c n)) = Some n))
    as [Hl | Hl]; [exact Hl|].
  destruct (Hshadow n (Hhand n Hn) Hl) as [_ ?]. contradiction.
Qed.

(** A change that also keeps the reference count. *)
Lemma inv_upd_neutral c H n f :
  keeps_fp f -> (forall b, refcnt (f b) = refcnt b) ->
  inv c H -> inv (upd_buf n f c) H.
Proof.
  intros Hf Hr (Hwf & Hhand & Hshadow). split; [|split].
  - now apply wf_upd_buf.
  - intros m Hm. rewrite length_bufs_upd_buf. auto.
  - intros m Hm. rewrite length_bufs_upd_buf in Hm.
    destruct (fp_upd_buf c n f m Hf) as [-> ->].
    rewrite lookup_upd_buf by exact Hf. intros Hnot.
    rewrite (buf_at_upd_buf_field refcnt) by exact Hr. now apply Hshadow.
Qed.

Lemma inv_weaken c H H' :
  inv c H -> (forall m, m ∈ H' -> m ∈ H) -> inv c H'.
Proof.
  intros (Hwf & Hhand & Hshadow) Hsub. split; [exact Hwf|]. split.
  - intros m Hm. auto.
  - intros m Hm Hnot. destruct (Hshadow m Hm Hnot) as [Hr HmH].
    split; [exact Hr|]. intros Hin. apply HmH. auto.
Qed.

(** The one thing the invariant is for: two buffers with the same
    (dev, blockno) do not both have references. *)
Lemma inv_unique c H n1 n2 :
  inv c H ->
  (n1 < length (bufs c))%nat -> (n2 < length (bufs c))%nat ->
  dev (buf_at c n1) = dev (buf_at c n2) ->
  blockno (buf_at c n1) = blockno (buf_at c n2) ->
  refcnt (buf_at c n1) <> 0 -> refcnt (buf_at c n2) <> 0 ->
  n1 = n2.
Proof.
  intros (_ & _ & Hshadow) H1 H2 Hd Hb Hr1 Hr2.
  destruct (decide (lookup c (dev (buf_at c n1)) (blockno (buf_at c n1)) = Some n1))
    as [Hl1 | Hl1]; [|destruct (Hshadow n1 H1 Hl1); contradiction].
  destruct (decide (lookup c (dev (buf_at c n2)) (blockno (buf_at c n2)) = Some n2))
    as [Hl2 | Hl2]; [|destruct (Hshadow n2 H2 Hl2); contradiction].
  rewrite Hd, Hb in Hl1. congruence.
Qed.

(** *** The invariant when a buffer is recycled *)

Lemma relink_spec c l hb d bn :
  wf c -> cand_ok c l -> hb = Z.of_nat (c_bucket l) ->
  let key := Z.to_nat (BUFMAP_HASH d bn) in
  let c1 := relink l hb (BUFMAP_HASH d bn) c in
  bufs c1 = bufs c /\
  length (bufmap c1) = length (bufmap c) /\
  (forall i, chain_at c1 i =
     if decide (c_bucket l = key) then chain_at c i
     else if decide (i = key) then c_buf l :: chain_at c key
     else if decide (i = c_bucket l)
          then delete (c_pos l) (chain_at c (c_bucket l))
          else chain_at c i).
Proof.
  intros (Hlen & _) [Hh Hpos] -> key c1. subst c1. unfold relink.
  pose proof (hash_range d bn) as Hk.
  assert (Hkey : (key < length (bufmap c))%nat)
    by (rewrite Hlen; subst key; unfold NBUFMAP_BUCKET in *; lia).
  destruct (Z.eqb_spec (Z.of_nat (c_bucket l)) (BUFMAP_HASH d bn)) as [He | Hne];
    cbn [negb].
  - assert (c_bucket l = key) by (subst key; lia).
    repeat split; auto. intros i. now rewrite decide_True.
  - assert (Hnk : c_bucket l <> key) by (subst key; lia).
    split; [reflexivity|]. split.
    + simpl. now rewrite !length_insert.
    + intros i. rewrite decide_False by exact Hnk.
      rewrite chain_at_set_chain by (simpl; now rewrite length_insert).
      fold key. destruct (decide (i = key)) as [-> | Hik].
      * rewrite chain_at_set_chain by (rewrite Hlen; exact Hh).
        now rewrite decide_False by congruence.
      * rewrite chain_at_set_chain by (rewrite Hlen; exact Hh). reflexivity.
Qed.

Section Recycle.

(** Buffer [v], at position [pos] of bucket [h], takes the identity
    (d, bn); [c1] is the cache after relinking and [g] the update of
    the buffer. *)
Variables (c c1 : bcache_t) (d bn : Z) (v h pos : nat) (g : buf -> buf).

Let key := Z.to_nat (BUFMAP_HASH d bn).
Let c2 := upd_buf v g c1.

Hypothesis Hwf : wf c.
Hypothesis Hmiss : lookup c d bn = None.
Hypothesis Hpos : chain_at c h !! pos = Some v.
Hypothesis Hbufs : bufs c1 = bufs c.
Hypothesis Hlen1 : length (bufmap c1) = length (bufmap c).
Hypothesis Hch : forall i, chain_at c1 i =
     if decide (h = key) then chain_at c i
     else if decide (i = key) then v :: chain_at c key
     else if decide (i = h) then delete pos (chain_at c h)
          else chain_at c i.
Hypothesis Hg : forall b, dev (g b) = d /\ blockno (g b) = bn.

Lemma recycle_v_in : v ∈ chain_at c h.
Proof. now apply list_elem_of_lookup_2 in Hpos. Qed.

Lemma recycle_v_lt : (v < length (bufs c))%nat.
Proof. destruct Hwf as (_ & _ & Hcov & _). apply Hcov. exists h. apply recycle_v_in. Qed.

Lemma recycle_buf_v : buf_at c2 v = g (buf_at c v).
Proof.
  subst c2. rewrite buf_at_upd_buf_eq by (rewrite Hbufs; apply recycle_v_lt).
  unfold buf_at. now rewrite Hbufs.
Qed.

Lemma recycle_buf_other m : m <> v -> buf_at c2 m = buf_at c m.
Proof.
  intros Hm. subst c2. rewrite buf_at_upd_buf_ne by exact Hm.
  unfold buf_at. now rewrite Hbufs.
Qed.

Lemma recycle_fp_v : dev (buf_at c2 v) = d /\ blockno (buf_at c2 v) = bn.
Proof. rewrite recycle_buf_v. apply Hg. Qed.

Lemma recycle_length : length (bufs c2) = length (bufs c).
Proof. subst c2. rewrite length_bufs_upd_buf. now rewrite Hbufs. Qed.

Lemma recycle_chain i : chain_at c2 i = chain_at c1 i.
Proof. reflexivity. Qed.

Lemma recycle_sub i m : m ∈ chain_at c2 i -> m <> v -> m ∈ chain_at c i.
Proof.
  rewrite recycle_chain, Hch. repeat case_decide; subst; auto.
  - intros [-> | Hm]%elem_of_cons; [contradiction | auto].
  - intros Hm _. now apply elem_of_delete_sub in Hm.
Qed.

Lemma recycle_sup i m : m ∈ chain_at c i -> m <> v -> m ∈ chain_at c2 i.
Proof.
  rewrite recycle_chain, Hch. repeat case_decide; subst; auto.
  - intros Hm _. now right.
  - intros Hm Hne. now apply (elem_of_delete_ne _ _ v).
Qed.

Lemma recycle_v_bucket i : v ∈ chain_at c2 i -> i = key.
Proof.
  destruct Hwf as (_ & Hnd & _ & Hhash).
  pose proof (Hhash h v recycle_v_in) as Hvh.
  rewrite recycle_chain, Hch. repeat case_decide; subst; auto.
  - intros Hvi. apply Hhash in Hvi. lia.
  - intros Hvi. exfalso. revert Hvi. now apply not_elem_of_delete.
  - intros Hvi. apply Hhash in Hvi. lia.
Qed.

Lemma recycle_v_key : v ∈ chain_at c2 key.
Proof.
  pose proof recycle_v_in.
  rewrite recycle_chain, Hch. repeat case_decide; subst; auto; try congruence. left.
Qed.

(** The lookup of the new identity finds [v]. *)
Lemma recycle_lookup : lookup c2 d bn = Some v.
Proof.
  pose proof recycle_fp_v as Hfv. pose proof recycle_v_in as Hvh.
  unfold lookup. fold key. rewrite recycle_chain, Hch.
  destruct (decide (h = key)) as [Hhk | Hhk].
  - rewrite <- Hhk. apply (chain_find_new c); auto.
    + unfold lookup in Hmiss. fold key in Hmiss. now rewrite Hhk.
    + intros m Hm. now rewrite recycle_buf_other.
    + apply Hfv.
    + apply Hfv.
  - rewrite decide_True by reflexivity. simpl.
    destruct Hfv as [-> ->]. now rewrite !Z.eqb_refl.
Qed.

Lemma wf_recycle : wf c2.
Proof.
  pose proof recycle_v_in as Hvh. pose proof recycle_v_lt as Hv.
  pose proof recycle_fp_v as Hfv.
  destruct Hwf as (Hlen & Hnd & Hcov & Hhash).
  assert (Hkeyhash : BUFMAP_HASH d bn = Z.of_nat key)
    by (subst key; pose proof (hash_range d bn); lia).
  split; [|split; [|split]].
  - subst c2. simpl. congruence.
  - intros i. rewrite recycle_chain, Hch. repeat case_decide; subst; auto.
    + apply NoDup_cons. split; [|auto]. intros Hin.
      apply Hhash in Hin. apply Hhash in Hvh. lia.
    + now apply NoDup_delete.
  - intros m. rewrite recycle_length. split.
    + intros Hm. destruct (decide (m = v)) as [-> | Hmv];
        [exists key; apply recycle_v_key|].
      apply Hcov in Hm as [i Hi]. exists i. now apply recycle_sup.
    + intros [i Hi]. destruct (decide (m = v)) as [-> | Hmv]; [exact Hv|].
      apply Hcov. exists i. now apply recycle_sub.
  - intros i m Hm. destruct (decide (m = v)) as [-> | Hmv].
    + destruct Hfv as [-> ->]. rewrite (recycle_v_bucket i Hm). exact Hkeyhash.
    + rewrite recycle_buf_other by exact Hmv. apply Hhash. now apply recycle_sub.
Qed.

(** A buffer other than [v] that its lookup found is still found. *)
Lemma recycle_lookup_other m :
  m <> v ->
  lookup c (dev (buf_at c m)) (blockno (buf_at c m)) = Some m ->
  lookup c2 (dev (buf_at c m)) (blockno (buf_at c m)) = Some m.
Proof.
  intros Hmv Hold. pose proof recycle_fp_v as Hfv.
  set (d' := dev (buf_at c m)) in *. set (bn' := blockno (buf_at c m)) in *.
  assert (Hdiff : ~ (dev (buf_at c2 v) = d' /\ blockno (buf_at c2 v) = bn')).
  { destruct Hfv as [-> ->]. intros [<- <-]. congruence. }
  assert (Hfp2 : forall x, x <> v ->
            dev (buf_at c2 x) = dev (buf_at c x) /\
            blockno (buf_at c2 x) = blockno (buf_at c x))
    by (intros x Hx; now rewrite recycle_buf_other).
  unfold lookup in *. set (k' := Z.to_nat (BUFMAP_HASH d' bn')) in *.
  rewrite recycle_chain, Hch.
  destruct (decide (h = key)) as [Hhk | Hhk];
    [now apply (chain_find_skip c c2 _ d' bn' m v)|].
  destruct (decide (k' = key)) as [Hk | Hk].
  - rewrite Hk in Hold. cbn [chain_find].
    assert (Hvno : (dev (buf_at c2 v) =? d') && (blockno (buf_at c2 v) =? bn') = false).
    { apply not_true_is_false. intros [H1 H2]%andb_true_iff.
      apply Z.eqb_eq in H1, H2. tauto. }
    rewrite Hvno. now apply (chain_find_skip c c2 _ d' bn' m v).
  - destruct (decide (k' = h)) as [Hkh | Hkh].
    + apply (chain_find_skip c c2 _ d' bn' m v); auto.
      rewrite Hkh in Hold. now apply (chain_find_delete c _ d' bn' m v).
    + now apply (chain_find_skip c c2 _ d' bn' m v).
Qed.

End Recycle.

Lemma inv_recycle c c1 H d bn v h pos g :
  inv c H -> lookup c d bn = None ->
  chain_at c h !! pos = Some v ->
  bufs c1 = bufs c -> length (bufmap c1) = length (bufmap c) ->
  (forall i, chain_at c1 i =
     if decide (h = Z.to_nat (BUFMAP_HASH d bn)) then chain_at c i
     else if decide (i = Z.to_nat (BUFMAP_HASH d bn))
          then v :: chain_at c (Z.to_nat (BUFMAP_HASH d bn))
     else if decide (i = h) then delete pos (chain_at c h)
          else chain_at c i) ->
  (forall b, dev (g b) = d /\ blockno (g b) = bn) ->
  inv (upd_buf v g c1) (v :: H).
Proof.
  intros (Hwf & Hhand & Hshadow) Hmiss Hpos Hbufs Hlen1 Hch Hg.
  assert (Hlb2 : length (bufs (upd_buf v g c1)) = length (bufs c))
    by (eapply recycle_length; eauto).
  assert (Hfv : dev (buf_at (upd_buf v g c1) v) = d /\
                blockno (buf_at (upd_buf v g c1) v) = bn)
    by (eapply recycle_fp_v; eauto).
  split; [|split].
  - eapply wf_recycle; eauto.
  - intros m [-> | Hm]%elem_of_cons; rewrite Hlb2; auto.
    eapply recycle_v_lt; eauto.
  - intros m Hm. rewrite Hlb2 in Hm.
    destruct (decide (m = v)) as [-> | Hmv].
    + destruct Hfv as [-> ->]. intros Hnot. exfalso. apply Hnot.
      eapply recycle_lookup; eauto.
    + assert (Hbm : buf_at (upd_buf v g c1) m = buf_at c m)
        by (eapply recycle_buf_other; eauto).
      rewrite Hbm. intros Hnot.
      assert (Hold : lookup c (dev (buf_at c m)) (blockno (buf_at c m)) <> Some m).
      { intros Hold. apply Hnot. eapply recycle_lookup_other; eauto. }
      destruct (Hshadow m Hm Hold) as [Hr HmH]. split; [exact Hr|].
      intros [-> | Hin]%elem_of_cons; contradiction.
Qed.

(** *** Every step keeps the invariant *)

Lemma keeps_fp_set_lock v : keeps_fp (set_lock v).
Proof. intros b. split; reflexivity. Qed.
Lemma keeps_fp_set_valid v : keeps_fp (set_valid v).
Proof. intros b. split; reflexivity. Qed.
Lemma keeps_fp_set_data v : keeps_fp (set_data v).
Proof. intros b. split; reflexivity. Qed.
Lemma keeps_fp_set_lastuse v : keeps_fp (set_lastuse v).
Proof. intros b. split; reflexivity. Qed.
Lemma keeps_fp_refcnt (g : buf -> Z) : keeps_fp (fun b => set_refcnt (g b) b).
Proof. intros b. split; reflexivity. Qed.

Lemma acquiresleep_cases p n s :
  (lock (buf_at (bcache s) n) = None /\
   acquiresleep p n s = Done (upd_buf_s n (set_lock (Some p)) s) n) \/
  (lock (buf_at (bcache s) n) <> None /\ acquiresleep p n s = Blocked s n).
Proof.
  unfold acquiresleep. destruct (lock (buf_at (bcache s) n)); [right | left]; auto.
Qed.

Lemma acquiresleep_inv p n s H :
  inv (bcache s) H ->
  forall s', outcome_state (acquiresleep p n s) = Some s' -> inv (bcache s') H.
Proof.
  intros Hinv s'. destruct (acquiresleep_cases p n s) as [[_ ->] | [_ ->]]; simpl.
  - intros [= <-]. simpl. apply inv_upd_neutral; auto. apply keeps_fp_set_lock.
  - now intros [= <-].
Qed.

Lemma acquiresleep_buf p n s : outcome_buf (acquiresleep p n s) = Some n.
Proof. destruct (acquiresleep_cases p n s) as [[_ ->] | [_ ->]]; reflexivity. Qed.

Lemma hand_out_Some o H s' H' :
  hand_out o H = Some (s', H') ->
  exists n, outcome_state o = Some s' /\ outcome_buf o = Some n /\ H' = n :: H.
Proof. destruct o; simpl; intros [= <- <-]; eauto. Qed.

Lemma bget_found_inv p n s H d bn :
  inv (bcache s) H -> lookup (bcache s) d bn = Some n ->
  outcome_buf (bget_found p n s) = Some n /\
  forall s', outcome_state (bget_found p n s) = Some s' -> inv (bcache s') (n :: H).
Proof.
  intros Hinv Hl. unfold bget_found. split; [apply acquiresleep_buf|].
  intros s' Hs'. eapply acquiresleep_inv; [|exact Hs'].
  simpl. destruct (lookup_Some _ _ _ _ Hl) as (Hin & Hd & Hb).
  apply (inv_upd_found _ H); auto.
  - apply (keeps_fp_refcnt (fun b => wrap32 (refcnt b + 1))).
  - now rewrite Hd, Hb.
  - destruct Hinv as ((_ & _ & Hcov & _) & _). apply Hcov. eauto.
  - intros m [-> | Hm]%elem_of_cons; auto.
Qed.

Lemma bget_recycle_inv p d bn l hb s H :
  inv (bcache s) H -> lookup (bcache s) d bn = None ->
  find_victim (bcache s) = (Some l, hb) ->
  outcome_buf (bget_recycle p d bn l hb s) = Some (c_buf l) /\
  forall s', outcome_state (bget_recycle p d bn l hb s) = Some s' ->
    inv (bcache s') (c_buf l :: H).
Proof.
  intros Hinv Hmiss Hfind. unfold bget_recycle. split; [apply acquiresleep_buf|].
  intros s' Hs'. eapply acquiresleep_inv; [|exact Hs'].
  simpl. destruct (find_victim_spec (bcache s)) as [_ Hpos]. rewrite Hfind in Hpos.
  destruct (Hpos l eq_refl) as [Hok Hhb]. simpl in Hhb.
  pose proof Hinv as (Hwf & _).
  destruct (relink_spec (bcache s) l hb d bn Hwf Hok Hhb) as (Hb & Hlen & Hch).
  destruct Hok as [_ Hlk].
  apply (inv_recycle (bcache s) _ H d bn (c_buf l) (c_bucket l) (c_pos l)); auto;
    intros b; split; reflexivity.
Qed.

Lemma bget_evict_inv p d bn s H :
  inv (bcache s) H ->
  forall s' H', hand_out (bget_evict p d bn s) H = Some (s', H') -> inv (bcache s') H'.
Proof.
  intros Hinv s' H' Hout. apply hand_out_Some in Hout as (n & Hs & Hn & ->).
  unfold bget_evict in *. fold (lookup (bcache s) d bn) in *.
  destruct (lookup (bcache s) d bn) as [m|] eqn:Hl.
  - destruct (bget_found_inv p m s H d bn Hinv Hl) as [Hb Hi].
    rewrite Hb in Hn. injection Hn as <-. auto.
  - destruct (find_victim (bcache s)) as [[l|] hb] eqn:Hf; [|discriminate].
    destruct (bget_recycle_inv p d bn l hb s H Hinv Hl Hf) as [Hb Hi].
    rewrite Hb in Hn. injection Hn as <-. auto.
Qed.

Lemma bget_inv p d bn s H :
  inv (bcache s) H ->
  forall s' H', hand_out (bget p d bn s) H = Some (s', H') -> inv (bcache s') H'.
Proof.
  intros Hinv s' H'. unfold bget. fold (lookup (bcache s) d bn).
  destruct (lookup (bcache s) d bn) as [m|] eqn:Hl; [|now apply bget_evict_inv].
  intros Hout. apply hand_out_Some in Hout as (n & Hs & Hn & ->).
  destruct (bget_found_inv p m s H d bn Hinv Hl) as [Hb Hi].
  rewrite Hb in Hn. injection Hn as <-. auto.
Qed.

Lemma bread_fill_inv n s H : inv (bcache s) H -> inv (bcache (bread_fill n s)) H.
Proof.
  intros Hinv. unfold bread_fill. destruct (_ =? 0); [|exact Hinv]. simpl.
  apply inv_upd_neutral; auto; [apply keeps_fp_set_valid|].
  apply inv_upd_neutral; auto. apply keeps_fp_set_data.
Qed.

Lemma bread_inv p d bn s H :
  inv (bcache s) H ->
  forall s' H', hand_out (bread p d bn s) H = Some (s', H') -> inv (bcache s') H'.
Proof.
  intros Hinv s' H'. unfold bread.
  pose proof (bget_inv p d bn s H Hinv) as Hb.
  destruct (bget p d bn s) as [s1 n | s1 n | msg]; simpl in *; [| apply Hb | discriminate].
  intros [= <- <-]. apply bread_fill_inv. now apply Hb.
Qed.

Lemma brelse_inv p n s H s' :
  inv (bcache s) H -> n ∈ H -> brelse p n s = Ok s' -> inv (bcache s') H.
Proof.
  intros Hinv Hn. unfold brelse. destruct (negb _); [discriminate|].
  set (s1 := upd_buf_s n (set_lock None) s).
  assert (H1 : inv (bcache s1) H)
    by (apply inv_upd_neutral; auto; apply keeps_fp_set_lock).
  set (s2 := upd_buf_s n _ s1).
  assert (H2 : inv (bcache s2) H).
  { destruct (handed_found _ _ _ H1 Hn) as [Hlt Hl].
    apply (inv_upd_found _ H); auto.
    apply (keeps_fp_refcnt (fun b => wrap32 (refcnt b - 1))). }
  destruct (_ =? 0); intros [= <-]; [|exact H2].
  apply inv_upd_neutral; auto. apply keeps_fp_set_lastuse.
Qed.

Lemma bpin_inv n s H : inv (bcache s) H -> n ∈ H -> inv (bcache (bpin n s)) H.
Proof.
  intros Hinv Hn. destruct (handed_found _ _ _ Hinv Hn) as [Hlt Hl].
  apply (inv_upd_found _ H); auto.
  apply (keeps_fp_refcnt (fun b => wrap32 (refcnt b + 1))).
Qed.

Lemma bunpin_inv n s H : inv (bcache s) H -> n ∈ H -> inv (bcache (bunpin n s)) H.
Proof.
  intros Hinv Hn. destruct (handed_found _ _ _ Hinv Hn) as [Hlt Hl].
  apply (inv_upd_found _ H); auto.
  apply (keeps_fp_refcnt (fun b => wrap32 (refcnt b - 1))).
Qed.

Lemma step_inv o s H s' H' :
  inv (bcache s) H -> step o s H = Some (s', H') -> inv (bcache s') H'.
Proof.
  intros Hinv. destruct o; simpl.
  - now intros [= <- <-].
  - now apply bget_inv.
  - now apply bget_evict_inv.
  - now apply bread_inv.
  - case_decide; [|discriminate].
    pose proof (acquiresleep_inv p n s H Hinv) as Ha.
    destruct (acquiresleep p n s); try discriminate.
    intros [= <- <-]. now apply Ha.
  - case_decide; [|discriminate]. intros [= <- <-]. now apply bread_fill_inv.
  - case_decide; [|discriminate]. destruct (holdingsleep _ _); [|discriminate].
    intros [= <- <-]. apply inv_upd_neutral; auto. apply keeps_fp_set_data.
  - case_decide; [|discriminate]. unfold bwrite.
    destruct (negb _); [discriminate|]. now intros [= <- <-].
  - case_decide; [|discriminate].
    destruct (brelse p n s) as [s1|] eqn:Hr; [|discriminate].
    intros [= <- <-]. now apply (brelse_inv p n s).
  - case_decide; [|discriminate]. intros [= <- <-]. now apply bpin_inv.
  - case_decide; [|discriminate]. intros [= <- <-]. now apply bunpin_inv.
Qed.

(** *** The cache after binit *)

Lemma binit_bss :
  binit bcache_bss =
  {| bufs := repeat zero_buf NBUF;
     bufmap := rev (seq 0 NBUF) :: repeat [] 12 |}.
Proof. vm_compute. reflexivity. Qed.

Lemma buf_at_binit n : buf_at (binit bcache_bss) n = zero_buf.
Proof. rewrite binit_bss. unfold buf_at. cbn [bufs]. apply nth_repeat. Qed.

Lemma chain_at_binit i :
  chain_at (binit bcache_bss) i = match i with O => rev (seq 0 NBUF) | S _ => [] end.
Proof.
  rewrite binit_bss. unfold chain_at. cbn [bufmap]. destruct i as [|i]; [reflexivity|].
  cbn [nth]. apply nth_repeat.
Qed.

Lemma inv_binit : inv (binit bcache_bss) [].
Proof.
  split; [|split].
  - split; [|split; [|split]].
    + rewrite binit_bss. reflexivity.
    + intros i. rewrite chain_at_binit. destruct i; [|constructor].
      apply NoDup_ListNoDup, NoDup_rev, seq_NoDup.
    + intros n. rewrite binit_bss at 1. cbn [bufs]. rewrite repeat_length. split.
      * intros Hn. exists 0%nat. rewrite chain_at_binit.
        apply list_elem_of_In. rewrite <- in_rev. apply in_seq. lia.
      * intros [i Hi]. rewrite chain_at_binit in Hi. destruct i; [|inversion Hi].
        apply list_elem_of_In in Hi. rewrite <- in_rev in Hi. apply in_seq in Hi. lia.
    + intros i n. rewrite chain_at_binit, buf_at_binit. destruct i; [|inversion 1].
      intros _. reflexivity.
  - intros n Hn. inversion Hn.
  - intros n _ _. rewrite buf_at_binit. split; [reflexivity|]. inversion 1.
Qed.

Lemma reachable_inv s H : reachable s H -> inv (bcache s) H.
Proof.
  induction 1 as [t d | s H o s' H' _ IH Hstep].
  - apply inv_binit.
  - now apply (step_inv o s H).
Qed.

Lemma run_reachable ops : forall s H s' H',
  reachable s H -> run ops s H = Some (s', H') -> reachable s' H'.
Proof.
  induction ops as [|o rest IH]; intros s H s' H' Hr; simpl.
  - now intros [= <- <-].
  - destruct (step o s H) as [[s1 H1]|] eqn:Hs; [|discriminate].
    apply IH. now apply (reach_step s H o).
Qed.

Lemma run_state_reachable ops :
  run ops ex_boot [] <> None -> exists H, reachable (run_state ops) H.
Proof.
  unfold run_state. destruct (run ops ex_boot []) as [[s H]|] eqn:E; [|congruence].
  intros _. exists H. apply (run_reachable ops ex_boot [] s H); [apply reach_boot | exact E].
Qed.

(** The found path changes no chain and no buffer's identity. *)
Lemma bget_found_frame p n s s' :
  outcome_state (bget_found p n s) = Some s' ->
  bufmap (bcache s') = bufmap (bcache s) /\
  forall k, dev (buf_at (bcache s') k) = dev (buf_at (bcache s) k) /\
            blockno (buf_at (bcache s') k) = blockno (buf_at (bcache s) k).
Proof.
  unfold bget_found.
  set (s1 := upd_buf_s n _ s).
  assert (H1 : forall k, dev (buf_at (bcache s1) k) = dev (buf_at (bcache s) k) /\
                         blockno (buf_at (bcache s1) k) = blockno (buf_at (bcache s) k)).
  { intros k. apply fp_upd_buf.
    apply (keeps_fp_refcnt (fun b => wrap32 (refcnt b + 1))). }
  destruct (acquiresleep_cases p n s1) as [[_ ->] | [_ ->]]; simpl; intros [= <-].
  - split; [reflexivity|]. intros k. destruct (H1 k) as [<- <-].
    apply (fp_upd_buf (bcache s1) n (set_lock (Some p)) k (keeps_fp_set_lock _)).
  - split; [reflexivity | exact H1].
Qed.

Lemma buf_at_upd_buf_s_eq n f s :
  (n < length (bufs (bcache s)))%nat ->
  buf_at (bcache (upd_buf_s n f s)) n = f (buf_at (bcache s) n).
Proof. apply buf_at_upd_buf_eq. Qed.

Lemma buf_at_upd_buf_s_ne n f s m :
  m <> n -> buf_at (bcache (upd_buf_s n f s)) m = buf_at (bcache s) m.
Proof. apply buf_at_upd_buf_ne. Qed.

Lemma length_upd_buf_s n f s :
  length (bufs (bcache (upd_buf_s n f s))) = length (bufs (bcache s)).
Proof. apply length_bufs_upd_buf. Qed.

(** *** What brelse and a cache hit do to the state *)

Lemma brelse_effect p n s :
  (n < length (bufs (bcache s)))%nat ->
  holdingsleep p (buf_at (bcache s) n) = true ->
  exists s',
    brelse p n s = Ok s' /\
    refcnt (buf_at (bcache s') n) = wrap32 (refcnt (buf_at (bcache s) n) - 1) /\
    (0 < refcnt (buf_at (bcache s) n) < 2 ^ 32 ->
       refcnt (buf_at (bcache s') n) = refcnt (buf_at (bcache s) n) - 1) /\
    (refcnt (buf_at (bcache s') n) = 0 ->
       lastuse (buf_at (bcache s') n) = ticks s) /\
    (refcnt (buf_at (bcache s') n) <> 0 ->
       lastuse (buf_at (bcache s') n) = lastuse (buf_at (bcache s) n)) /\
    dev (buf_at (bcache s') n) = dev (buf_at (bcache s) n) /\
    blockno (buf_at (bcache s') n) = blockno (buf_at (bcache s) n) /\
    valid (buf_at (bcache s') n) = valid (buf_at (bcache s) n) /\
    data (buf_at (bcache s') n) = data (buf_at (bcache s) n) /\
    lock (buf_at (bcache s') n) = None /\
    bufmap (bcache s') = bufmap (bcache s) /\
    length (bufs (bcache s')) = length (bufs (bcache s)) /\
    (forall m, m <> n -> buf_at (bcache s') m = buf_at (bcache s) m) /\
    ticks s' = ticks s /\ io s' = io s /\ dsk s' = dsk s.
Proof.
  intros Hn Hhold. unfold brelse. rewrite Hhold. cbn [negb].
  set (b := buf_at (bcache s) n).
  set (s1 := upd_buf_s n (set_lock None) s).
  set (s2 := upd_buf_s n (fun x => set_refcnt (wrap32 (refcnt x - 1)) x) s1).
  assert (Hb1 : buf_at (bcache s1) n = set_lock None b)
    by (unfold s1; now rewrite buf_at_upd_buf_s_eq).
  assert (Hl1 : length (bufs (bcache s1)) = length (bufs (bcache s)))
    by apply length_upd_buf_s.
  assert (Hb2 : buf_at (bcache s2) n
                = set_refcnt (wrap32 (refcnt b - 1)) (set_lock None b)).
  { unfold s2. rewrite buf_at_upd_buf_s_eq by (now rewrite Hl1). now rewrite Hb1. }
  assert (Hl2 : length (bufs (bcache s2)) = length (bufs (bcache s)))
    by (unfold s2; now rewrite length_upd_buf_s).
  assert (Ho2 : forall m, m <> n -> buf_at (bcache s2) m = buf_at (bcache s) m).
  { intros m Hm. unfold s2, s1. now rewrite !buf_at_upd_buf_s_ne. }
  assert (Hwrap : 0 < refcnt b < 2 ^ 32 -> wrap32 (refcnt b - 1) = refcnt b - 1)
    by (intros Hr; unfold wrap32; apply Z.mod_small; lia).
  destruct (Z.eqb_spec (refcnt (buf_at (bcache s2) n)) 0) as [Hz | Hnz].
  - eexists. split; [reflexivity|].
    rewrite buf_at_upd_buf_s_eq by (now rewrite Hl2).
    rewrite length_upd_buf_s, Hl2.
    rewrite Hb2 in *. cbn [set_lastuse set_refcnt set_lock refcnt lastuse dev blockno
                            valid data lock] in *.
    repeat split; auto; try congruence.
    intros m Hm. rewrite buf_at_upd_buf_s_ne by exact Hm. now apply Ho2.
  - eexists. split; [reflexivity|]. rewrite Hl2.
    rewrite Hb2 in *. cbn [set_lastuse set_refcnt set_lock refcnt lastuse dev blockno
                            valid data lock] in *.
    repeat split; auto; try congruence.
Qed.

(** bget on a block that is cached in a buffer whose lock is free. *)
Lemma bget_hit q d bn s n :
  lookup (bcache s) d bn = Some n ->
  (n < length (bufs (bcache s)))%nat ->
  lock (buf_at (bcache s) n) = None ->
  exists s',
    bget q d bn s = Done s' n /\
    buf_at (bcache s') n
      = set_lock (Some q)
          (set_refcnt (wrap32 (refcnt (buf_at (bcache s) n) + 1)) (buf_at (bcache s) n)) /\
    (forall m, m <> n -> buf_at (bcache s') m = buf_at (bcache s) m) /\
    bufmap (bcache s') = bufmap (bcache s) /\
    length (bufs (bcache s')) = length (bufs (bcache s)) /\
    ticks s' = ticks s /\ io s' = io s /\ dsk s' = dsk s.
Proof.
  intros Hl Hn Hlk. unfold bget. fold (lookup (bcache s) d bn). rewrite Hl.
  unfold bget_found.
  set (s1 := upd_buf_s n _ s).
  assert (Hb1 : buf_at (bcache s1) n
                = set_refcnt (wrap32 (refcnt (buf_at (bcache s) n) + 1))
                    (buf_at (bcache s) n))
    by (unfold s1; now rewrite buf_at_upd_buf_s_eq).
  assert (Hl1 : length (bufs (bcache s1)) = length (bufs (bcache s)))
    by apply length_upd_buf_s.
  assert (Hlk1 : lock (buf_at (bcache s1) n) = None) by (now rewrite Hb1).
  destruct (acquiresleep_cases q n s1) as [[_ ->] | [Hne _]]; [|contradiction].
  eexists. split; [reflexivity|].
  rewrite buf_at_upd_buf_s_eq by (now rewrite Hl1). rewrite Hb1.
  rewrite length_upd_buf_s, Hl1.
  repeat split; auto.
  intros m Hm. unfold s1. now rewrite !buf_at_upd_buf_s_ne.
Qed.

(** What a bget that returns leaves behind. *)
Lemma bget_done p d bn s s0 n :
  wf (bcache s) -> bget p d bn s = Done s0 n ->
  (n < length (bufs (bcache s0)))%nat /\
  lookup (bcache s0) d bn = Some n /\
  lock (buf_at (bcache s0) n) = Some p /\
  dev (buf_at (bcache s0) n) = d /\ blockno (buf_at (bcache s0) n) = bn /\
  dsk s0 = dsk s /\ io s0 = io s /\
  ((lookup (bcache s) d bn = Some n /\
    valid (buf_at (bcache s0) n) = valid (buf_at (bcache s) n) /\
    data (buf_at (bcache s0) n) = data (buf_at (bcache s) n)) \/
   (lookup (bcache s) d bn = None /\ valid (buf_at (bcache s0) n) = 0)).
Proof.
  intros Hwf. unfold bget, bget_evict. fold (lookup (bcache s) d bn).
  destruct (lookup (bcache s) d bn) as [m|] eqn:Hl.
  - (* hit *)
    destruct (lookup_Some _ _ _ _ Hl) as (Hin & Hd & Hb).
    assert (Hm : (m < length (bufs (bcache s)))%nat)
      by (destruct Hwf as (_ & _ & Hcov & _); apply Hcov; eauto).
    unfold bget_found. set (s1 := upd_buf_s m _ s).
    assert (Hb1 : buf_at (bcache s1) m
                  = set_refcnt (wrap32 (refcnt (buf_at (bcache s) m) + 1))
                      (buf_at (bcache s) m))
      by (unfold s1; now rewrite buf_at_upd_buf_s_eq).
    assert (Hl1 : length (bufs (bcache s1)) = length (bufs (bcache s)))
      by apply length_upd_buf_s.
    assert (Hlook1 : lookup (bcache s1) d bn = Some m).
    { unfold s1. cbn [bcache upd_buf_s set_bcache].
      rewrite lookup_upd_buf; [exact Hl|].
      apply (keeps_fp_refcnt (fun b => wrap32 (refcnt b + 1))). }
    destruct (acquiresleep_cases p m s1) as [[_ ->] | [_ ->]]; [|discriminate].
    intros [= <- <-].
    rewrite buf_at_upd_buf_s_eq by (now rewrite Hl1). rewrite Hb1.
    rewrite length_upd_buf_s, Hl1.
    cbn [bcache upd_buf_s set_bcache]. rewrite lookup_upd_buf by apply keeps_fp_set_lock.
    repeat split; auto.
  - (* miss *)
    destruct (find_victim_spec (bcache s)) as [_ Hpos].
    destruct (find_victim (bcache s)) as [[l|] hb]; [|discriminate].
    destruct (Hpos l eq_refl) as [Hok Hhb]. simpl in Hhb.
    destruct (relink_spec (bcache s) l hb d bn Hwf Hok Hhb) as (Hbufs & Hlen & Hch).
    destruct Hok as [_ Hlk].
    unfold bget_recycle.
    set (c1 := relink l hb (BUFMAP_HASH d bn) (bcache s)) in *.
    set (c2 := upd_buf (c_buf l) (claim d bn) c1).
    assert (Hg : forall b, dev (claim d bn b) = d /\ blockno (claim d bn b) = bn)
      by (intros b; split; reflexivity).
    assert (Hv : (c_buf l < length (bufs (bcache s)))%nat)
      by (eapply recycle_v_lt; eauto).
    assert (Hbv : buf_at c2 (c_buf l) = claim d bn (buf_at (bcache s) (c_buf l)))
      by (eapply recycle_buf_v; eauto).
    assert (Hl2 : length (bufs c2) = length (bufs (bcache s)))
      by (eapply recycle_length; eauto).
    assert (Hlook : lookup c2 d bn = Some (c_buf l))
      by (eapply recycle_lookup; eauto).
    set (sx := set_bcache c2 s).
    assert (Hsx : bcache sx = c2) by reflexivity.
    destruct (acquiresleep_cases p (c_buf l) sx) as [[_ ->] | [_ ->]];
      [|discriminate].
    intros [= <- <-].
    rewrite buf_at_upd_buf_s_eq by (now rewrite Hsx, Hl2). rewrite Hsx, Hbv.
    rewrite length_upd_buf_s, Hsx, Hl2.
    cbn [bcache upd_buf_s set_bcache]. rewrite lookup_upd_buf by apply keeps_fp_set_lock.
    repeat split; auto.
Qed.

Lemma lookup_ext c c' d bn :
  bufmap c' = bufmap c ->
  (forall m, dev (buf_at c' m) = dev (buf_at c m) /\
             blockno (buf_at c' m) = blockno (buf_at c m)) ->
  lookup c' d bn = lookup c d bn.
Proof.
  intros Hm Hfp. unfold lookup, chain_at. rewrite Hm.
  apply chain_find_ext. intros m _. apply Hfp.
Qed.

(** The part of bread after bget. *)
Lemma bread_fill_effect n s :
  (n < length (bufs (bcache s)))%nat ->
  valid (buf_at (bcache (bread_fill n s)) n) <> 0 /\
  lock (buf_at (bcache (bread_fill n s)) n) = lock (buf_at (bcache s) n) /\
  refcnt (buf_at (bcache (bread_fill n s)) n) = refcnt (buf_at (bcache s) n) /\
  length (bufs (bcache (bread_fill n s))) = length (bufs (bcache s)) /\
  bufmap (bcache (bread_fill n s)) = bufmap (bcache s) /\
  (forall m, dev (buf_at (bcache (bread_fill n s)) m) = dev (buf_at (bcache s) m) /\
             blockno (buf_at (bcache (bread_fill n s)) m) = blockno (buf_at (bcache s) m)) /\
  (forall m, m <> n -> buf_at (bcache (bread_fill n s)) m = buf_at (bcache s) m) /\
  dsk (bread_fill n s) = dsk s /\ ticks (bread_fill n s) = ticks s /\
  (valid (buf_at (bcache s) n) <> 0 -> bread_fill n s = s) /\
  (valid (buf_at (bcache s) n) = 0 ->
     valid (buf_at (bcache (bread_fill n s)) n) = 1 /\
     data (buf_at (bcache (bread_fill n s)) n)
       = dsk s (dev (buf_at (bcache s) n)) (blockno (buf_at (bcache s) n)) /\
     io (bread_fill n s)
       = IoRead (dev (buf_at (bcache s) n)) (blockno (buf_at (bcache s) n)) :: io s).
Proof.
  intros Hn. unfold bread_fill.
  destruct (Z.eqb_spec (valid (buf_at (bcache s) n)) 0) as [Hz | Hnz].
  - set (b := buf_at (bcache s) n).
    assert (Hr : bcache (disk_read n s)
                 = upd_buf n (set_data (dsk s (dev b) (blockno b))) (bcache s))
      by reflexivity.
    assert (Hb1 : buf_at (bcache (disk_read n s)) n
                  = set_data (dsk s (dev b) (blockno b)) b)
      by (rewrite Hr; now rewrite buf_at_upd_buf_eq).
    assert (Hl1 : length (bufs (bcache (disk_read n s))) = length (bufs (bcache s)))
      by (rewrite Hr; apply length_bufs_upd_buf).
    rewrite buf_at_upd_buf_s_eq by (now rewrite Hl1). rewrite Hb1.
    rewrite length_upd_buf_s, Hl1.
    repeat split; try (intros; congruence); try reflexivity.
    + simpl. discriminate.
    + destruct (fp_upd_buf (bcache (disk_read n s)) n (set_valid 1) m
                  (keeps_fp_set_valid 1)) as [E _].
      cbn [bcache upd_buf_s set_bcache]. rewrite E. rewrite Hr.
      apply (fp_upd_buf (bcache s) n _ m (keeps_fp_set_data _)).
    + destruct (fp_upd_buf (bcache (disk_read n s)) n (set_valid 1) m
                  (keeps_fp_set_valid 1)) as [_ E].
      cbn [bcache upd_buf_s set_bcache]. rewrite E. rewrite Hr.
      apply (fp_upd_buf (bcache s) n _ m (keeps_fp_set_data _)).
    + intros m Hm. rewrite buf_at_upd_buf_s_ne by exact Hm. rewrite Hr.
      now apply buf_at_upd_buf_ne.
    + intros Hv. unfold b in Hv. contradiction.
  - repeat split; auto; try (intros; contradiction).
Qed.

(** ** What the specification states about the cache *)

(** C1.  In every state reached from binit by bget, bread, brelse, bpin,
    bunpin and the clients' other moves, no two buffers with the same
    (dev, blockno) both have a reference.  And when bget, holding the
    eviction lock, looks at the key bucket again and a buffer for the
    block is there (installed by another call since the first look), it
    takes that buffer and relinks or renames nothing. *)
Theorem one_buffer_per_block (s : kstate) (H : list nat) :
  reachable s H ->
  (forall n1 n2,
     (n1 < length (bufs (bcache s)))%nat -> (n2 < length (bufs (bcache s)))%nat ->
     dev (buf_at (bcache s) n1) = dev (buf_at (bcache s) n2) ->
     blockno (buf_at (bcache s) n1) = blockno (buf_at (bcache s) n2) ->
     0 < refcnt (buf_at (bcache s) n1) -> 0 < refcnt (buf_at (bcache s) n2) ->
     n1 = n2) /\
  (forall p d bn m,
     lookup (bcache s) d bn = Some m ->
     outcome_buf (bget_evict p d bn s) = Some m /\
     forall s', outcome_state (bget_evict p d bn s) = Some s' ->
       bufmap (bcache s') = bufmap (bcache s) /\
       forall k, dev (buf_at (bcache s') k) = dev (buf_at (bcache s) k) /\
                 blockno (buf_at (bcache s') k) = blockno (buf_at (bcache s) k)).
Proof.
  intros Hr. apply reachable_inv in Hr. split.
  - intros n1 n2 H1 H2 Hd Hb Hr1 Hr2. apply (inv_unique (bcache s) H); auto; lia.
  - intros p d bn m Hl. unfold bget_evict. fold (lookup (bcache s) d bn). rewrite Hl.
    split; [apply acquiresleep_buf | apply bget_found_frame].
Qed.

Lemma one_buffer_per_block_witness :
  reachable (run_state ex_ops_busy) [29; 28; 29]%nat /\
  forall n1 n2,
    (n1 < 30)%nat -> (n2 < 30)%nat ->
    dev (buf_at (bcache (run_state ex_ops_busy)) n1)
      = dev (buf_at (bcache (run_state ex_ops_busy)) n2) ->
    blockno (buf_at (bcache (run_state ex_ops_busy)) n1)
      = blockno (buf_at (bcache (run_state ex_ops_busy)) n2) ->
    0 < refcnt (buf_at (bcache (run_state ex_ops_busy)) n1) ->
    0 < refcnt (buf_at (bcache (run_state ex_ops_busy)) n2) ->
    n1 = n2.
Proof.
  assert (Hr : reachable (run_state ex_ops_busy) [29; 28; 29]%nat).
  { apply (run_reachable ex_ops_busy ex_boot []); [apply reach_boot|].
    vm_compute. reflexivity. }
  split; [exact Hr|].
  intros n1 n2 H1 H2.
  apply (proj1 (one_buffer_per_block _ _ Hr) n1 n2); vm_compute; lia.
Defined.

(** C2.  When bget misses, the buffer it takes over has no reference and
    is, in the order of the scan (bucket by bucket, each chain from its
    head), the first buffer of least [lastuse] among the buffers without
    a reference: strictly older than every such buffer before it, at
    least as old as every such buffer after it, and so at least as old
    as every buffer of the array without a reference. *)
Theorem bget_victim_least (p : nat) (d bn : Z) (s : kstate) (v : nat) :
  lookup (bcache s) d bn = None ->
  outcome_buf (bget p d bn s) = Some v ->
  first_least (bcache s) (scan_order (bcache s)) v /\
  (wf (bcache s) ->
   forall u, (u < length (bufs (bcache s)))%nat ->
     refcnt (buf_at (bcache s) u) = 0 ->
     lastuse (buf_at (bcache s) v) <= lastuse (buf_at (bcache s) u)).
Proof.
  intros Hl. unfold bget, bget_evict. fold (lookup (bcache s) d bn). rewrite Hl.
  destruct (find_victim_spec (bcache s)) as [Hres _].
  destruct (find_victim (bcache s)) as [[l|] hb]; [|discriminate].
  unfold bget_recycle. rewrite acquiresleep_buf. intros [= <-].
  simpl in Hres. split; [exact Hres|].
  intros (Hlen & _ & Hcov & _) u Hu Hz.
  destruct Hres as (_ & pre & post & Hord & Hpre & Hpost).
  assert (Hin : u ∈ scan_order (bcache s)).
  { apply Hcov in Hu as [i Hi].
    assert (Hi13 : (i < Z.to_nat NBUFMAP_BUCKET)%nat).
    { destruct (decide (i < Z.to_nat NBUFMAP_BUCKET)%nat) as [|Hge]; [assumption|].
      rewrite chain_at_ge in Hi by lia. inversion Hi. }
    unfold scan_order. apply list_elem_of_In, in_concat.
    exists (chain_at (bcache s) i). split; [|now apply list_elem_of_In].
    apply in_map, in_seq. lia. }
  rewrite Hord in Hin.
  apply elem_of_app in Hin as [Hin | [-> | Hin]%elem_of_cons].
  - specialize (Hpre u Hin Hz). lia.
  - lia.
  - now apply Hpost.
Qed.

Lemma bget_victim_least_witness :
  first_least (bcache ex_boot) (scan_order (bcache ex_boot)) 29.
Proof.
  apply (bget_victim_least 1 1 7 ex_boot 29); vm_compute; reflexivity.
Defined.

(** C5 as amended.  bget panics exactly when it misses and every buffer
    of the array has a reference; its message is then
    "bget: no buffers".  In every other case it ends with a buffer:
    returned if the buffer's sleep lock is free, and otherwise with the
    caller asleep on that lock, which its holder keeps. *)
Theorem bget_panics_iff_exhausted (p : nat) (d bn : Z) (s : kstate) :
  wf (bcache s) ->
  (is_panicked (bget p d bn s) <->
     lookup (bcache s) d bn = None /\
     forall n, (n < length (bufs (bcache s)))%nat ->
       refcnt (buf_at (bcache s) n) <> 0) /\
  (forall msg, bget p d bn s = Panicked msg -> msg = "bget: no buffers"%string) /\
  (forall n, (n < length (bufs (bcache s)))%nat ->
     refcnt (buf_at (bcache s) n) = 0 ->
     exists v, outcome_buf (bget p d bn s) = Some v) /\
  (forall v, outcome_buf (bget p d bn s) = Some v ->
     lock (buf_at (bcache s) v) = None ->
     exists s', bget p d bn s = Done s' v) /\
  (forall v h, outcome_buf (bget p d bn s) = Some v ->
     lock (buf_at (bcache s) v) = Some h ->
     exists s', bget p d bn s = Blocked s' v /\
                lock (buf_at (bcache s') v) = Some h).
Proof.
  intros Hwf. pose proof Hwf as (Hlen & _ & Hcov & _).
  assert (Hall : forall u, (u < length (bufs (bcache s)))%nat <->
                           u ∈ scan_order (bcache s)).
  { intros u. rewrite Hcov. unfold scan_order. split.
    - intros [i Hi].
      assert (Hi13 : (i < Z.to_nat NBUFMAP_BUCKET)%nat).
      { destruct (decide (i < Z.to_nat NBUFMAP_BUCKET)%nat) as [|Hge]; [assumption|].
        rewrite chain_at_ge in Hi by lia. inversion Hi. }
      apply list_elem_of_In, in_concat.
      exists (chain_at (bcache s) i). split; [|now apply list_elem_of_In].
      apply in_map, in_seq. lia.
    - intros Hin. apply list_elem_of_In, in_concat in Hin as (ch & Hch & Hu).
      apply in_map_iff in Hch as (i & <- & _). exists i. now apply list_elem_of_In. }
  assert (Hfound : forall m, outcome_buf (bget_found p m s) = Some m /\
            (lock (buf_at (bcache s) m) = None ->
             exists s', bget_found p m s = Done s' m) /\
            (forall h, lock (buf_at (bcache s) m) = Some h ->
             exists s', bget_found p m s = Blocked s' m /\
                        lock (buf_at (bcache s') m) = Some h)).
  { intros m. unfold bget_found. split; [apply acquiresleep_buf|].
    set (s1 := upd_buf_s m _ s).
    assert (Hlk1 : lock (buf_at (bcache s1) m) = lock (buf_at (bcache s) m)).
    { subst s1. simpl. rewrite (buf_at_upd_buf_field lock); auto. }
    split.
    - intros Hlk. rewrite Hlk in Hlk1.
      destruct (acquiresleep_cases p m s1) as [[_ ->] | [Hne _]]; [eauto | contradiction].
    - intros h Hlk. rewrite Hlk in Hlk1.
      destruct (acquiresleep_cases p m s1) as [[Hfree _] | [_ ->]]; [congruence | eauto]. }
  unfold bget, bget_evict. fold (lookup (bcache s) d bn).
  destruct (lookup (bcache s) d bn) as [m|] eqn:Hl.
  - destruct (Hfound m) as (Hb & Hd & Hw). split; [|split; [|split; [|split]]].
    + split; [|intros [? _]; discriminate].
      destruct (bget_found p m s); simpl in *; try discriminate; tauto.
    + intros msg Hp. rewrite Hp in Hb. discriminate.
    + eauto.
    + intros v Hv. rewrite Hb in Hv. injection Hv as <-. exact Hd.
    + intros v h Hv. rewrite Hb in Hv. injection Hv as <-. apply Hw.
  - destruct (find_victim_spec (bcache s)) as [Hres _].
    destruct (find_victim (bcache s)) as [[l|] hb]; simpl in Hres.
    + assert (Hb : outcome_buf (bget_recycle p d bn l hb s) = Some (c_buf l))
        by apply acquiresleep_buf.
      destruct Hres as (Hz & pre & post & Hord & _).
      assert (Hlk1 : lock (buf_at (bcache (set_bcache
                (upd_buf (c_buf l) (claim d bn)
                   (relink l hb (BUFMAP_HASH d bn) (bcache s))) s)) (c_buf l))
              = lock (buf_at (bcache s) (c_buf l))).
      { simpl. rewrite (buf_at_upd_buf_field lock) by reflexivity.
        unfold relink. destruct (negb _); reflexivity. }
      split; [|split; [|split; [|split]]].
      * split.
        -- destruct (bget_recycle p d bn l hb s); simpl in *; try discriminate; tauto.
        -- intros [_ Hbusy]. exfalso. apply (Hbusy (c_buf l)); [|exact Hz].
           apply Hall. rewrite Hord. apply elem_of_app. right. left.
      * intros msg Hp. rewrite Hp in Hb. discriminate.
      * eauto.
      * intros v Hv Hlk. rewrite Hb in Hv. injection Hv as <-.
        unfold bget_recycle. rewrite Hlk in Hlk1.
        destruct (acquiresleep_cases p (c_buf l) (set_bcache
                    (upd_buf (c_buf l) (claim d bn)
                       (relink l hb (BUFMAP_HASH d bn) (bcache s))) s))
          as [[_ ->] | [Hne _]]; [eauto | contradiction].
      * intros v h Hv Hlk. rewrite Hb in Hv. injection Hv as <-.
        unfold bget_recycle. rewrite Hlk in Hlk1.
        destruct (acquiresleep_cases p (c_buf l) (set_bcache
                    (upd_buf (c_buf l) (claim d bn)
                       (relink l hb (BUFMAP_HASH d bn) (bcache s))) s))
          as [[Hfree _] | [_ ->]]; [congruence | eauto].
    + split; [|split; [|split; [|split]]].
      * simpl. split; [|tauto]. intros _. split; [reflexivity|].
        intros n Hn. apply Hres. now apply Hall.
      * now intros msg [= <-].
      * intros n Hn Hz. exfalso. apply (Hres n); [now apply Hall | exact Hz].
      * discriminate.
      * discriminate.
Qed.

Lemma bget_panics_iff_exhausted_witness :
  is_panicked (bget 2 1 30 (run_state ex_ops_full)).
Proof.
  destruct (run_state_reachable ex_ops_full) as [H Hr]; [vm_compute; discriminate|].
  apply reachable_inv in Hr. destruct Hr as [Hwf _].
  pose proof (bget_panics_iff_exhausted 2 1 30 (run_state ex_ops_full) Hwf)
    as [[_ Hp] _].
  apply Hp. split; [vm_compute; reflexivity|].
  assert (Hlen : length (bufs (bcache (run_state ex_ops_full))) = 30%nat)
    by (vm_compute; reflexivity).
  rewrite Hlen. intros n Hn.
  do 30 (destruct n as [|n]; [vm_compute; discriminate|]). lia.
Defined.

(** C5 as stated fails: with a buffer free, bget need not return.  In
    the run [ex_ops_unpinned] process 1 holds the sleep lock of buffer
    29 and has dropped its reference with bunpin, so every buffer has
    refcnt 0.  A bget of block (1, 7) misses, takes buffer 29 as its
    victim and goes to sleep on its lock; asked by process 1 itself, it
    waits for a lock that only the sleeper could release. *)
Lemma bget_sleeps_with_free_buffer :
  (exists H, reachable (run_state ex_ops_unpinned) H) /\
  (forall n, (n < NBUF)%nat ->
     refcnt (buf_at (bcache (run_state ex_ops_unpinned)) n) = 0) /\
  lookup (bcache (run_state ex_ops_unpinned)) 1 7 = None /\
  lock (buf_at (bcache (run_state ex_ops_unpinned)) 29) = Some 1%nat /\
  forall p, exists s',
    bget p 1 7 (run_state ex_ops_unpinned) = Blocked s' 29%nat /\
    lock (buf_at (bcache s') 29) = Some 1%nat.
Proof.
  split; [apply run_state_reachable; vm_compute; discriminate|].
  split.
  { intros n Hn. unfold NBUF in Hn.
    do 30 (destruct n as [|n]; [vm_compute; reflexivity|]). lia. }
  split; [vm_compute; reflexivity|].
  split; [vm_compute; reflexivity|].
  intros p. eexists. split; [vm_compute; reflexivity|].
  vm_compute. reflexivity.
Qed.

(** C9.  For a buffer whose sleep lock the caller holds, brelse returns,
    the reference count has gone down by one (in uint arithmetic),
    [lastuse] is the tick counter if the new count is zero and is
    untouched otherwise; [dev], [blockno], [valid] and the data are as
    before, the sleep lock is free, and no chain and no other buffer
    has changed. *)
Theorem brelse_spec (p n : nat) (s : kstate) :
  (n < length (bufs (bcache s)))%nat ->
  holdingsleep p (buf_at (bcache s) n) = true ->
  exists s',
    brelse p n s = Ok s' /\
    refcnt (buf_at (bcache s') n) = wrap32 (refcnt (buf_at (bcache s) n) - 1) /\
    (0 < refcnt (buf_at (bcache s) n) < 2 ^ 32 ->
       refcnt (buf_at (bcache s') n) = refcnt (buf_at (bcache s) n) - 1) /\
    (refcnt (buf_at (bcache s') n) = 0 ->
       lastuse (buf_at (bcache s') n) = ticks s) /\
    (refcnt (buf_at (bcache s') n) <> 0 ->
       lastuse (buf_at (bcache s') n) = lastuse (buf_at (bcache s) n)) /\
    dev (buf_at (bcache s') n) = dev (buf_at (bcache s) n) /\
    blockno (buf_at (bcache s') n) = blockno (buf_at (bcache s) n) /\
    valid (buf_at (bcache s') n) = valid (buf_at (bcache s) n) /\
    data (buf_at (bcache s') n) = data (buf_at (bcache s) n) /\
    lock (buf_at (bcache s') n) = None /\
    bufmap (bcache s') = bufmap (bcache s) /\
    length (bufs (bcache s')) = length (bufs (bcache s)) /\
    (forall m, m <> n -> buf_at (bcache s') m = buf_at (bcache s) m) /\
    ticks s' = ticks s /\ io s' = io s /\ dsk s' = dsk s.
Proof. apply brelse_effect. Qed.

Lemma brelse_spec_witness :
  exists s', brelse 1 29 (run_state [OpBread 1 1 7; OpTick]) = Ok s' /\
             refcnt (buf_at (bcache s') 29) = 0 /\
             lastuse (buf_at (bcache s') 29) = 1.
Proof.
  pose proof (brelse_spec 1 29 (run_state [OpBread 1 1 7; OpTick])) as Hs.
  destruct Hs as (s' & H1 & H2 & _ & H3 & _);
    [vm_compute; lia | vm_compute; reflexivity |].
  assert (E1 : wrap32 (refcnt (buf_at (bcache (run_state [OpBread 1 1 7; OpTick])) 29) - 1)
               = 0) by (vm_compute; reflexivity).
  assert (E2 : ticks (run_state [OpBread 1 1 7; OpTick]) = 1)
    by (vm_compute; reflexivity).
  rewrite E1 in H2. rewrite E2 in H3.
  exists s'. split; [exact H1|]. split; [exact H2|]. apply H3. exact H2.
Defined.

(** C10 as amended.  bunpin of a buffer without a reference takes the
    count to 2^32 - 1; it is a plain decrement and cannot fail.  The
    victim scan then passes the buffer over, and so does every later
    bget for as long as the count is not zero. *)
Theorem bunpin_wraps (n : nat) (s : kstate) :
  (n < length (bufs (bcache s)))%nat ->
  refcnt (buf_at (bcache s) n) = 0 ->
  refcnt (buf_at (bcache (bunpin n s)) n) = 2 ^ 32 - 1 /\
  (forall l hb, find_victim (bcache (bunpin n s)) = (Some l, hb) -> c_buf l <> n) /\
  (forall s2 p d bn v,
     refcnt (buf_at (bcache s2) n) <> 0 ->
     lookup (bcache s2) d bn = None ->
     outcome_buf (bget p d bn s2) = Some v -> v <> n).
Proof.
  intros Hn Hz.
  assert (Hw : refcnt (buf_at (bcache (bunpin n s)) n) = 2 ^ 32 - 1).
  { unfold bunpin. rewrite buf_at_upd_buf_s_eq by exact Hn. simpl. rewrite Hz.
    reflexivity. }
  split; [exact Hw|]. split.
  - intros l hb Hf. destruct (find_victim_spec (bcache (bunpin n s))) as [Hres _].
    rewrite Hf in Hres. destruct Hres as [Hr _]. intros Heq. rewrite Heq in Hr.
    rewrite Hw in Hr. discriminate.
  - intros s2 p d bn v Hr Hl Hv.
    unfold bget, bget_evict in Hv. fold (lookup (bcache s2) d bn) in Hv. rewrite Hl in Hv.
    destruct (find_victim_spec (bcache s2)) as [Hres _].
    destruct (find_victim (bcache s2)) as [[l|] hb]; [|discriminate].
    unfold bget_recycle in Hv. rewrite acquiresleep_buf in Hv. injection Hv as <-.
    destruct Hres as [Hr0 _]. intros Heq. rewrite Heq in Hr0. contradiction.
Qed.

Lemma bunpin_wraps_witness :
  refcnt (buf_at (bcache (bunpin 29 (run_state [OpBread 1 0 0; OpBrelse 1 29]))) 29)
  = 4294967295.
Proof.
  pose proof (bunpin_wraps 29 (run_state [OpBread 1 0 0; OpBrelse 1 29])) as Hs.
  destruct Hs as (H1 & _); [vm_compute; lia | vm_compute; reflexivity |].
  exact H1.
Defined.

(** C10 as stated fails: after the wrap the count is not stuck.  In this
    run buffer 29 is released, unpinned at count 0 (to 2^32 - 1) and
    pinned again (back to 0); the next bget that misses takes it. *)
Lemma bunpin_wrap_not_forever :
  (exists H, reachable (run_state ex_ops_wrap) H) /\
  run_state ex_ops_wrap
    = bpin 29 (bunpin 29 (run_state [OpBread 1 0 0; OpBrelse 1 29])) /\
  refcnt (buf_at (bcache (run_state [OpBread 1 0 0; OpBrelse 1 29])) 29) = 0 /\
  refcnt (buf_at (bcache (bunpin 29 (run_state [OpBread 1 0 0; OpBrelse 1 29]))) 29)
    = 2 ^ 32 - 1 /\
  lookup (bcache (run_state ex_ops_wrap)) 1 7 = None /\
  outcome_buf (bget 2 1 7 (run_state ex_ops_wrap)) = Some 29%nat.
Proof.
  split; [apply run_state_reachable; vm_compute; discriminate|].
  split; [vm_compute; reflexivity|].
  split; [vm_compute; reflexivity|].
  split; [vm_compute; reflexivity|].
  split; [vm_compute; reflexivity|].
  vm_compute. reflexivity.
Qed.

(** Right after the release the linkage alone is enough: the second
    bread returns the same buffer at once, valid, without a disk read
    and with the data the buffer held when it was released. *)
Lemma bread_release_bread_at_once (p q : nat) (d bn : Z) (s s1 s2 : kstate) (n : nat) :
  wf (bcache s) ->
  bread p d bn s = Done s1 n ->
  brelse p n s1 = Ok s2 ->
  exists s3,
    bread q d bn s2 = Done s3 n /\
    valid (buf_at (bcache s2) n) <> 0 /\
    valid (buf_at (bcache s3) n) <> 0 /\
    io s3 = io s2 /\
    data (buf_at (bcache s3) n) = data (buf_at (bcache s1) n) /\
    (clean s d bn -> data (buf_at (bcache s3) n) = dsk s3 d bn).
Proof.
  intros Hwf Hread Hrel. unfold bread in Hread.
  destruct (bget p d bn s) as [s0 n0 | s0 n0 | msg] eqn:Hget; try discriminate.
  injection Hread as <- <-.
  destruct (bget_done p d bn s s0 n0 Hwf Hget)
    as (Hn0 & Hlook0 & Hlock0 & Hd0 & Hb0 & Hdsk0 & Hio0 & Hcase).
  destruct (bread_fill_effect n0 s0 Hn0)
    as (Hv1 & Hlk1 & _ & Hlen1 & Hmap1 & Hfp1 & _ & Hdsk1 & _ & Hkeep & Hfill).
  set (s1 := bread_fill n0 s0) in *.
  assert (Hhold : holdingsleep p (buf_at (bcache s1) n0) = true).
  { unfold holdingsleep. rewrite Hlk1, Hlock0. apply Nat.eqb_refl. }
  destruct (brelse_effect p n0 s1) as (s2' & Hrel' & _ & _ & _ & _ & Hd2 & Hb2 & Hv2
      & Hdata2 & Hlock2 & Hmap2 & Hlen2 & Hoth2 & _ & Hio2 & Hdsk2);
    [now rewrite Hlen1 | exact Hhold |].
  rewrite Hrel in Hrel'. injection Hrel' as <-.
  assert (Hlook2 : lookup (bcache s2) d bn = Some n0).
  { rewrite (lookup_ext (bcache s1) (bcache s2)); [|exact Hmap2|].
    - rewrite (lookup_ext (bcache s0) (bcache s1)); auto.
    - intros m. destruct (decide (m = n0)) as [-> | Hm]; [auto|].
      now rewrite Hoth2. }
  destruct (bget_hit q d bn s2 n0 Hlook2)
    as (s3 & Hget3 & Hbuf3 & _ & _ & Hl3 & _ & Hio3 & Hdsk3);
    [rewrite Hlen2, Hlen1; exact Hn0 | exact Hlock2 |].
  assert (Hv3 : valid (buf_at (bcache s3) n0) <> 0).
  { rewrite Hbuf3. simpl. now rewrite Hv2. }
  assert (Hlen3 : (n0 < length (bufs (bcache s3)))%nat)
    by (now rewrite Hl3, Hlen2, Hlen1).
  exists s3. unfold bread. rewrite Hget3.
  destruct (bread_fill_effect n0 s3 Hlen3) as (_ & _ & _ & _ & _ & _ & _ & _ & _ & Hkeep3 & _).
  rewrite (Hkeep3 Hv3).
  split; [reflexivity|]. split; [now rewrite Hv2|]. split; [exact Hv3|].
  split; [exact Hio3|].
  assert (Hdata3 : data (buf_at (bcache s3) n0) = data (buf_at (bcache s1) n0)).
  { rewrite Hbuf3. simpl. exact Hdata2. }
  split; [exact Hdata3|].
  intros Hclean. rewrite Hdata3, Hdsk3, Hdsk2, Hdsk1, Hdsk0.
  destruct (Z.eq_dec (valid (buf_at (bcache s0) n0)) 0) as [Hz | Hnz].
  - destruct (Hfill Hz) as (_ & -> & _). now rewrite Hdsk0, Hd0, Hb0.
  - rewrite (Hkeep Hnz).
    destruct Hcase as [(Hl & Hv & Hdat) | (_ & Hv)]; [|contradiction].
    rewrite Hdat. apply Hclean; [exact Hl | now rewrite <- Hv].
Qed.

(** *** A buffer that is not evicted keeps its block *)




















(** C4 as amended.  After binit, with any tick count and disk, the
    first bread(1, 7) takes buffer NBUF - 1, the head of bucket 0's
    chain, moves it to bucket 2 = ((1 << 27) | 7) % 13, reads the block
    from the disk once and returns the buffer locked, valid, with one
    reference. *)
Theorem cold_read (p : nat) (t : Z) (d : Z -> Z -> block) :
  chain_at (bcache (boot t d)) 0 !! 0%nat = Some 29%nat /\
  BUFMAP_HASH 1 7 = 2 /\
  exists s',
    bread p 1 7 (boot t d) = Done s' 29%nat /\
    (29%nat ∉ chain_at (bcache s') 0) /\
    chain_at (bcache s') 2 = [29%nat] /\
    io s' = [IoRead 1 7] /\
    valid (buf_at (bcache s') 29) = 1 /\
    refcnt (buf_at (bcache s') 29) = 1 /\
    dev (buf_at (bcache s') 29) = 1 /\
    blockno (buf_at (bcache s') 29) = 7 /\
    lock (buf_at (bcache s') 29) = Some p /\
    data (buf_at (bcache s') 29) = d 1 7.
Proof.
  split; [vm_compute; reflexivity|]. split; [vm_compute; reflexivity|].
  eexists. split; [vm_compute; reflexivity|].
  split.
  { vm_compute. intros Hin. apply list_elem_of_In in Hin. simpl in Hin.
    repeat (destruct Hin as [Hin | Hin]; [discriminate|]). exact Hin. }
  split; [vm_compute; reflexivity|].
  split; [vm_compute; reflexivity|].
  split; [vm_compute; reflexivity|].
  split; [vm_compute; reflexivity|].
  split; [vm_compute; reflexivity|].
  split; [vm_compute; reflexivity|].
  split; [vm_compute; reflexivity|].
  vm_compute. reflexivity.
Qed.

(** C4 as stated fails: the hash of (1, 7) is not 7, and after the
    first bread(1, 7) bucket 7 is still empty. *)
Lemma cold_read_not_bucket_7 :
  BUFMAP_HASH 1 7 <> 7 /\
  bread 1 1 7 ex_boot = Done (run_state [OpBread 1 1 7]) 29%nat /\
  chain_at (bcache (run_state [OpBread 1 1 7])) 7 = [].
Proof.
  split; [vm_compute; discriminate|].
  split; vm_compute; reflexivity.
Qed.

End BioProofs.

(* ================================================================== *)
(** * Further properties of the page allocator *)
(* ================================================================== *)

Module KallocMore.
Import Kalloc KallocProofs.

Lemma arenas_ext NCPU s (L L' : nat -> list Z) :
  (forall i, L i = L' i) -> arenas NCPU s L -> arenas NCPU s L'.
Proof.
  intros He (H1 & H2 & H3 & H4). split; [|split; [|split]].
  - intros i Hi. rewrite <- (He i). now apply H1.
  - intros i p Hi. rewrite <- (He i). now apply H2.
  - intros i Hi. rewrite <- (He i). now apply H3.
  - intros i j p Hi Hj Hij. rewrite <- (He i), <- (He j). now apply H4.
Qed.

(** *** Allocation from a list that is not empty *)

Lemma kalloc_nonempty NCPU cpu s :
  freelist s cpu <> 0 ->
  kalloc NCPU cpu s =
  (freelist s cpu,
   set_mem (memset (mem s) (freelist s cpu) 5 PGSIZE)
     (set_freelist cpu (load64 (mem s) (freelist s cpu)) s)).
Proof.
  intros H. apply Z.eqb_neq in H. unfold kalloc. rewrite H.
  cbv beta iota zeta. rewrite H. reflexivity.
Qed.

(** X3.  When the current CPU's list is not empty, kalloc takes its head:
    it returns the first page of the list, the list keeps its tail,
    no other arena's list changes, and memory outside the returned
    page is untouched. *)
Theorem kalloc_local_pop (NCPU cpu : nat) (s : kmem_t) (L : nat -> list Z)
  (r : Z) (t : list Z) :
  (cpu < NCPU)%nat -> arenas NCPU s L -> L cpu = r :: t ->
  (kalloc NCPU cpu s).1 = r /\
  arenas NCPU (kalloc NCPU cpu s).2 (fupd L cpu t) /\
  (forall i, i <> cpu -> freelist (kalloc NCPU cpu s).2 i = freelist s i) /\
  (forall x, x < r \/ r + PGSIZE <= x -> mem (kalloc NCPU cpu s).2 x = mem s x).
Proof.
  intros Hc HA HL.
  destruct (kalloc_refines NCPU cpu s L HA Hc) as [Hr HA'].
  assert (Hm : kalloc_model NCPU cpu L = (r, fupd L cpu t))
    by (unfold kalloc_model; rewrite HL; cbn iota; rewrite HL; reflexivity).
  rewrite Hm in Hr, HA'.
  split; [exact Hr|]. split; [exact HA'|].
  destruct HA as (Hfl & Hok & _). pose proof (Hfl cpu Hc) as Hfc. rewrite HL in Hfc.
  destruct Hfc as [Hhead _].
  assert (Hnz : freelist s cpu <> 0).
  { rewrite Hhead. destruct (Hok cpu r Hc) as [_ ?]; [rewrite HL; left | lia]. }
  rewrite (kalloc_nonempty NCPU cpu s Hnz). cbn [fst snd freelist mem set_mem set_freelist].
  split.
  - intros i Hi. now apply fupd_ne.
  - intros x Hx. rewrite Hhead. now apply memset_out.
Qed.

Lemma kalloc_local_pop_witness :
  (kalloc 2 1%nat ex_small).1 = ex_end + 2 * PGSIZE /\
  arenas 2 (kalloc 2 1%nat ex_small).2
    (fupd ex_small_lists 1%nat [ex_end + PGSIZE; ex_end]).
Proof.
  assert (HA : arenas 2 ex_small ex_small_lists)
    by (apply arenasb_sound; vm_compute; reflexivity).
  assert (H0 : (1 < 2)%nat) by lia.
  assert (H3 : ex_small_lists 1%nat = [ex_end + 2 * PGSIZE; ex_end + PGSIZE; ex_end])
    by reflexivity.
  pose proof (kalloc_local_pop 2 1%nat ex_small ex_small_lists
                (ex_end + 2 * PGSIZE) [ex_end + PGSIZE; ex_end] H0 HA H3)
    as (H1 & H2 & _).
  split; [exact H1 | exact H2].
Defined.

(** *** A page freed and allocated again on the same CPU *)

(** X4.  A page freed on a CPU is the next page kalloc returns on that CPU:
    the pair of calls leaves every list head and all memory outside
    the page as they were, and the page comes back filled with 5. *)
Theorem kfree_then_kalloc (NCPU : nat) (kend PHYSTOP : Z) (cpu : nat) (pa : Z)
  (s : kmem_t) :
  0 < kend ->
  pa mod PGSIZE = 0 -> kend <= pa -> pa < PHYSTOP ->
  0 <= freelist s cpu < 2 ^ 64 ->
  exists s1,
    kfree kend PHYSTOP cpu pa s = Ok s1 /\
    (kalloc NCPU cpu s1).1 = pa /\
    (forall i, freelist (kalloc NCPU cpu s1).2 i = freelist s i) /\
    (forall x, x < pa \/ pa + PGSIZE <= x -> mem (kalloc NCPU cpu s1).2 x = mem s x) /\
    (forall x, pa <= x < pa + PGSIZE -> mem (kalloc NCPU cpu s1).2 x = 5).
Proof.
  intros Hk Hal Hlo Hhi Hrange. unfold kfree.
  destruct (Z.eqb_spec (pa mod PGSIZE) 0); [|lia].
  destruct (Z.ltb_spec pa kend); [lia|].
  destruct (Z.leb_spec PHYSTOP pa); [lia|]. cbn [negb orb].
  eexists. split; [reflexivity|].
  set (s1 := set_freelist cpu pa _).
  assert (Hh : freelist s1 cpu = pa) by apply fupd_eq.
  rewrite (kalloc_nonempty NCPU cpu s1) by (rewrite Hh; lia).
  rewrite Hh. clear Hh. cbn [fst snd]. subst s1.
  cbn [freelist mem set_mem set_freelist].
  rewrite load64_store64 by exact Hrange.
  split; [reflexivity|]. split; [|split].
  - intros i. unfold fupd. destruct (Nat.eqb i cpu) eqn:E; [|reflexivity].
    apply Nat.eqb_eq in E. now subst.
  - intros x Hx. rewrite memset_out by exact Hx.
    rewrite store64_out by (unfold PGSIZE in Hx; lia). now apply memset_out.
  - intros x Hx. now rewrite memset_in.
Qed.

Lemma kfree_then_kalloc_witness :
  exists s1,
    kfree ex_end ex_PHYSTOP 1%nat (ex_end + 5 * PGSIZE) ex_small = Ok s1 /\
    (kalloc 2 1%nat s1).1 = ex_end + 5 * PGSIZE /\
    freelist (kalloc 2 1%nat s1).2 1%nat = ex_end + 2 * PGSIZE.
Proof.
  assert (G1 : 0 < ex_end) by (vm_compute; reflexivity).
  assert (G2 : (ex_end + 5 * PGSIZE) mod PGSIZE = 0) by (vm_compute; reflexivity).
  assert (G3 : ex_end <= ex_end + 5 * PGSIZE) by (vm_compute; discriminate).
  assert (G4 : ex_end + 5 * PGSIZE < ex_PHYSTOP) by (vm_compute; reflexivity).
  assert (G5 : 0 <= freelist ex_small 1%nat < 2 ^ 64)
    by (vm_compute; split; [discriminate | reflexivity]).
  pose proof (kfree_then_kalloc 2 ex_end ex_PHYSTOP 1%nat (ex_end + 5 * PGSIZE)
                ex_small G1 G2 G3 G4 G5) as (s1 & H1 & H2 & H3 & _).
  exists s1. split; [exact H1|]. split; [exact H2|]. rewrite H3.
  vm_compute. reflexivity.
Defined.

(** *** No page is lost or made up *)

Lemma is_free_move_page NCPU L i cpu p t q :
  (i < NCPU)%nat -> (cpu < NCPU)%nat -> i <> cpu -> L i = p :: t ->
  is_free NCPU (move_page L i cpu p t) q <-> is_free NCPU L q.
Proof.
  intros Hi Hc Hne HL. unfold is_free, move_page. split.
  - intros (j & Hj & Hq). destruct (Nat.eq_dec j cpu) as [-> | Hjc].
    + rewrite fupd_eq, fupd_ne in Hq by congruence.
      apply elem_of_cons in Hq as [-> | Hq].
      * exists i. split; [exact Hi|]. rewrite HL. left.
      * exists cpu. auto.
    + rewrite fupd_ne in Hq by exact Hjc.
      destruct (Nat.eq_dec j i) as [-> | Hji].
      * rewrite fupd_eq in Hq. exists i. split; [exact Hi|]. rewrite HL. now right.
      * rewrite fupd_ne in Hq by exact Hji. eauto.
  - intros (j & Hj & Hq). destruct (Nat.eq_dec j i) as [-> | Hji].
    + rewrite HL in Hq. apply elem_of_cons in Hq as [-> | Hq].
      * exists cpu. split; [exact Hc|]. rewrite fupd_eq. left.
      * exists i. split; [exact Hi|]. rewrite fupd_ne by exact Hne.
        now rewrite fupd_eq.
    + destruct (Nat.eq_dec j cpu) as [-> | Hjc].
      * exists cpu. split; [exact Hc|]. rewrite fupd_eq, fupd_ne by congruence.
        now right.
      * exists j. split; [exact Hj|]. now rewrite !fupd_ne by assumption.
Qed.

Lemma is_free_steal_loop NCPU cpu i q : (i < NCPU)%nat -> (cpu < NCPU)%nat -> i <> cpu ->
  forall n L, is_free NCPU (steal_loop_model n cpu i L).1 q <-> is_free NCPU L q.
Proof.
  intros Hi Hc Hne. induction n as [|n IH]; intros L; cbn [steal_loop_model];
    [reflexivity|].
  destruct (L i) as [|p t] eqn:HL; [reflexivity|].
  rewrite IH. now apply is_free_move_page.
Qed.

Lemma is_free_steal_cpus NCPU cpu q : (cpu < NCPU)%nat ->
  forall cpus n L, (forall i, i ∈ cpus -> (i < NCPU)%nat) ->
  is_free NCPU (steal_cpus_model cpus cpu n L) q <-> is_free NCPU L q.
Proof.
  intros Hc. induction cpus as [|i rest IH]; intros n L Hin; cbn [steal_cpus_model];
    [reflexivity|].
  assert (Hrest : forall j, j ∈ rest -> (j < NCPU)%nat)
    by (intros j Hj; apply Hin; now right).
  destruct (Nat.eqb_spec i cpu) as [-> | Hne]; [now apply IH|].
  assert (Hi : (i < NCPU)%nat) by (apply Hin; left).
  pose proof (is_free_steal_loop NCPU cpu i q Hi Hc Hne n L) as Hloop.
  destruct (steal_loop_model n cpu i L) as [L1 n1]. simpl in Hloop.
  destruct (Nat.leb n1 0); [exact Hloop|]. rewrite IH by exact Hrest. exact Hloop.
Qed.

(** The lists after the stealing part of kalloc. *)
Lemma kalloc_steal_lists NCPU cpu s L :
  arenas NCPU s L -> (cpu < NCPU)%nat ->
  exists s1 L1,
    arenas NCPU s1 L1 /\
    (forall q, is_free NCPU L1 q <-> is_free NCPU L q) /\
    (L1 cpu = [] -> forall i, (i < NCPU)%nat -> L1 i = []) /\
    kalloc_model NCPU cpu L
      = match L1 cpu with [] => (0, L1) | r :: t => (r, fupd L1 cpu t) end.
Proof.
  intros HA Hc. destruct (L cpu) as [|r0 t0] eqn:HL.
  - exists (steal_cpus (seq 0 NCPU) cpu STEAL_BATCH s),
           (steal_cpus_model (seq 0 NCPU) cpu STEAL_BATCH L).
    assert (Hseq : forall i, i ∈ seq 0 NCPU -> (i < NCPU)%nat)
      by (intros i Hi; apply elem_of_seq in Hi; lia).
    split; [now apply steal_cpus_refines|]. split; [|split].
    + intros q. now apply is_free_steal_cpus.
    + destruct (steal_cpus_model_spec cpu (seq 0 NCPU) (NoDup_seq _ _) STEAL_BATCH L)
        as (_ & _ & Hlen & _ & Hfull).
      intros Hnil i Hi. rewrite Hnil, HL in Hlen. cbn [length] in Hlen.
      destruct (Nat.eq_dec i cpu) as [-> | Hic]; [exact Hnil|].
      destruct Hfull as [Hfull | Hempty];
        [rewrite Hfull in Hlen; unfold STEAL_BATCH in Hlen; lia|].
      apply Hempty; [apply elem_of_seq; lia | exact Hic].
    + unfold kalloc_model. now rewrite HL.
  - exists s, L. split; [exact HA|]. split; [reflexivity|]. split.
    + intros Hnil. rewrite HL in Hnil. discriminate.
    + unfold kalloc_model. rewrite HL. cbn iota. now rewrite HL.
Qed.

(** X5.  kalloc moves pages between the free lists and takes out at most the
    one it returns: a page is free before the call exactly when it is
    free after it or is the page returned.  The page returned is a page
    address and is on no free list afterwards. *)
Theorem kalloc_conserves_pages (NCPU cpu : nat) (s : kmem_t) (L : nat -> list Z) :
  (cpu < NCPU)%nat -> arenas NCPU s L ->
  exists L',
    arenas NCPU (kalloc NCPU cpu s).2 L' /\
    (forall q, is_free NCPU L q <->
       is_free NCPU L' q \/ ((kalloc NCPU cpu s).1 <> 0 /\ q = (kalloc NCPU cpu s).1)) /\
    ((kalloc NCPU cpu s).1 <> 0 ->
       page_ok (kalloc NCPU cpu s).1 /\ ~ is_free NCPU L' (kalloc NCPU cpu s).1).
Proof.
  intros Hc HA.
  destruct (kalloc_refines NCPU cpu s L HA Hc) as [Hr HA'].
  destruct (kalloc_steal_lists NCPU cpu s L HA Hc) as (s1 & L1 & HA1 & Hfree & _ & Hm).
  rewrite Hr. rewrite Hm in *. clear Hr Hm.
  destruct HA1 as (_ & Hok1 & Hnd1 & Hdj1).
  destruct (L1 cpu) as [|r t] eqn:HL1; cbn [fst snd] in *.
  - exists L1. split; [exact HA'|]. split.
    + intros q. rewrite <- Hfree. split; [auto | intros [? | [? _]]; [auto | lia]].
    + lia.
  - exists (fupd L1 cpu t). split; [exact HA'|].
    assert (Hr : page_ok r) by (apply (Hok1 cpu); [exact Hc | rewrite HL1; left]).
    pose proof (Hnd1 cpu Hc) as Hnd. rewrite HL1 in Hnd.
    apply NoDup_cons in Hnd as [Hrt _].
    split.
    + intros q. rewrite <- Hfree. unfold is_free. split.
      * intros (j & Hj & Hq). destruct (Nat.eq_dec j cpu) as [-> | Hjc].
        -- rewrite HL1 in Hq. apply elem_of_cons in Hq as [-> | Hq].
           ++ right. split; [destruct Hr; lia | reflexivity].
           ++ left. exists cpu. split; [exact Hc|]. now rewrite fupd_eq.
        -- left. exists j. split; [exact Hj|]. now rewrite fupd_ne.
      * intros [(j & Hj & Hq) | [_ ->]].
        -- destruct (Nat.eq_dec j cpu) as [-> | Hjc].
           ++ rewrite fupd_eq in Hq. exists cpu. split; [exact Hc|]. rewrite HL1. now right.
           ++ rewrite fupd_ne in Hq by exact Hjc. eauto.
        -- exists cpu. split; [exact Hc|]. rewrite HL1. left.
    + intros _. split; [exact Hr|]. intros (j & Hj & Hq).
      destruct (Nat.eq_dec j cpu) as [-> | Hjc].
      * rewrite fupd_eq in Hq. contradiction.
      * rewrite fupd_ne in Hq by exact Hjc. apply (Hdj1 cpu j r); auto.
        rewrite HL1. left.
Qed.

Lemma kalloc_conserves_pages_witness :
  exists L', arenas 2 (kalloc 2 0%nat ex_small).2 L' /\
             ~ is_free 2 L' (kalloc 2 0%nat ex_small).1.
Proof.
  assert (HA : arenas 2 ex_small ex_small_lists)
    by (apply arenasb_sound; vm_compute; reflexivity).
  assert (H0 : (0 < 2)%nat) by lia.
  pose proof (kalloc_conserves_pages 2 0%nat ex_small ex_small_lists H0 HA)
    as (L' & H1 & _ & H2).
  assert (Hr : (kalloc 2 0%nat ex_small).1 <> 0) by (vm_compute; discriminate).
  exists L'. split; [exact H1|]. exact (proj2 (H2 Hr)).
Defined.

(** X6.  kalloc returns the null pointer exactly when no arena has a free
    page. *)
Theorem kalloc_null_iff_exhausted (NCPU cpu : nat) (s : kmem_t) (L : nat -> list Z) :
  (cpu < NCPU)%nat -> arenas NCPU s L ->
  ((kalloc NCPU cpu s).1 = 0 <-> forall i, (i < NCPU)%nat -> L i = []).
Proof.
  intros Hc HA.
  destruct (kalloc_refines NCPU cpu s L HA Hc) as [Hr _].
  destruct (kalloc_steal_lists NCPU cpu s L HA Hc) as (s1 & L1 & HA1 & Hfree & Hall & Hm).
  rewrite Hr, Hm. clear Hr Hm. destruct HA1 as (_ & Hok1 & _).
  split.
  - intros Hz.
    assert (Hnil : L1 cpu = []).
    { destruct (L1 cpu) as [|r t] eqn:HL1; [reflexivity|]. simpl in Hz.
      destruct (Hok1 cpu r Hc) as [_ ?]; [rewrite HL1; left | lia]. }
    intros i Hi. destruct (L i) as [|q l] eqn:HLi; [reflexivity|]. exfalso.
    assert (Hq : is_free NCPU L q) by (exists i; split; [exact Hi | rewrite HLi; left]).
    apply Hfree in Hq as (j & Hj & Hq). rewrite (Hall Hnil j Hj) in Hq. inversion Hq.
  - intros Hempty. destruct (L1 cpu) as [|r t] eqn:HL1; [reflexivity|]. exfalso.
    assert (Hq : is_free NCPU L1 r) by (exists cpu; split; [exact Hc | rewrite HL1; left]).
    apply Hfree in Hq as (j & Hj & Hq). rewrite (Hempty j Hj) in Hq. inversion Hq.
Qed.

Lemma kalloc_null_iff_exhausted_witness : (kalloc 2 0%nat kmem_bss).1 = 0.
Proof.
  assert (HA : arenas 2 kmem_bss (fun _ => []))
    by (apply arenasb_sound; vm_compute; reflexivity).
  assert (H0 : (0 < 2)%nat) by lia.
  pose proof (kalloc_null_iff_exhausted 2 0%nat kmem_bss (fun _ => []) H0 HA) as Hp.
  apply (proj2 Hp). reflexivity.
Defined.

(** *** freerange and kinit *)

Lemma page_range_S p n : page_range p (S n) = p :: page_range (p + PGSIZE) n.
Proof.
  unfold page_range. cbn [seq map]. f_equal; [simpl; lia|].
  rewrite <- seq_shift, map_map. apply map_ext. intros k.
  rewrite Nat2Z.inj_succ. lia.
Qed.

Lemma elem_of_page_range p n q :
  q ∈ page_range p n <-> exists k, (k < n)%nat /\ q = p + Z.of_nat k * PGSIZE.
Proof.
  unfold page_range. rewrite list_elem_of_In, in_map_iff. split.
  - intros (k & <- & Hk). apply in_seq in Hk. exists k. split; [lia | reflexivity].
  - intros (k & Hk & ->). exists k. split; [reflexivity | apply in_seq; lia].
Qed.

Lemma wrap64_small z : 0 <= z < 2 ^ 64 -> wrap64 z = z.
Proof. intros H. unfold wrap64. now apply Z.mod_small. Qed.

(** As long as the pointer does not wrap, the loop frees the [n] whole
    pages below [pa_end] and stops. *)
Lemma freerange_loop_arenas NCPU kend PHYSTOP cpu pa_end :
  0 < kend -> PHYSTOP <= 2 ^ 64 -> pa_end <= PHYSTOP -> (cpu < NCPU)%nat ->
  forall n p s L,
    arenas NCPU s L ->
    p mod PGSIZE = 0 -> kend <= p ->
    p + Z.of_nat n * PGSIZE <= pa_end ->
    pa_end < p + Z.of_nat n * PGSIZE + PGSIZE ->
    p + Z.of_nat n * PGSIZE + PGSIZE < 2 ^ 64 ->
    (forall q, q ∈ page_range p n -> ~ is_free NCPU L q) ->
    exists s',
      (forall fuel, (n < fuel)%nat ->
         freerange_loop kend PHYSTOP fuel cpu pa_end p s = Some (Ok s')) /\
      arenas NCPU s' (fupd L cpu (rev (page_range p n) ++ L cpu)).
Proof.
  intros Hk Hp Hend Hc.
  induction n as [|n IH]; intros p s L HA Hal Hlo Hhi Hstop Hnowrap Hfresh.
  - exists s. split.
    + intros [|fuel] Hf; [lia|]. cbn [freerange_loop].
      rewrite wrap64_small by (unfold PGSIZE in *; lia).
      destruct (Z.leb_spec (p + PGSIZE) pa_end); [unfold PGSIZE in *; lia | reflexivity].
    + apply (arenas_ext NCPU s L); [|exact HA].
      intros i. unfold fupd. destruct (Nat.eqb_spec i cpu) as [-> | _]; reflexivity.
  - rewrite Nat2Z.inj_succ in Hhi, Hstop, Hnowrap.
    assert (Hnot : forall i, (i < NCPU)%nat -> p ∉ L i).
    { intros i Hi Hin. apply (Hfresh p); [|exists i; auto].
      rewrite page_range_S. left. }
    destruct (kfree_arenas NCPU kend PHYSTOP cpu p s L Hk Hp HA Hc Hal Hlo)
      as (s1 & Hfree & HA1); [unfold PGSIZE in *; lia | exact Hnot |].
    assert (Hal' : (p + PGSIZE) mod PGSIZE = 0).
    { unfold PGSIZE in *. rewrite Z.add_mod, Hal by lia. reflexivity. }
    destruct (IH (p + PGSIZE) s1 (kfree_model cpu p L) HA1 Hal') as (s' & Hrun & HA').
    + unfold PGSIZE. lia.
    + lia.
    + lia.
    + lia.
    + intros q Hq (j & Hj & Hqj). unfold kfree_model in Hqj.
      assert (Hq' : q ∈ page_range p (S n)) by (rewrite page_range_S; now right).
      destruct (Nat.eq_dec j cpu) as [-> | Hjc].
      * rewrite fupd_eq in Hqj. apply elem_of_cons in Hqj as [-> | Hqj].
        -- apply elem_of_page_range in Hq as (k & _ & Hk'). unfold PGSIZE in Hk'. lia.
        -- apply (Hfresh q Hq'). exists cpu. auto.
      * rewrite fupd_ne in Hqj by exact Hjc. apply (Hfresh q Hq'). exists j. auto.
    + exists s'. split.
      * intros [|fuel] Hf; [lia|]. cbn [freerange_loop].
        rewrite wrap64_small by (unfold PGSIZE in *; lia).
        destruct (Z.leb_spec (p + PGSIZE) pa_end); [|unfold PGSIZE in *; lia].
        rewrite Hfree. apply Hrun. lia.
      * revert HA'. apply arenas_ext.
        intros i. unfold kfree_model, fupd.
        destruct (Nat.eqb_spec i cpu) as [-> | _]; [|reflexivity].
        rewrite Nat.eqb_refl, page_range_S. cbn [rev]. now rewrite <- app_assoc.
Qed.

Lemma PGROUNDUP_spec sz :
  0 <= sz -> sz + PGSIZE <= 2 ^ 64 ->
  PGROUNDUP sz mod PGSIZE = 0 /\ sz <= PGROUNDUP sz < sz + PGSIZE.
Proof.
  intros H0 H1. unfold PGROUNDUP.
  rewrite wrap64_small by (unfold PGSIZE in *; lia).
  unfold PGSIZE. split.
  - apply Z.mod_mul. lia.
  - pose proof (Z.div_mod (sz + 4096 - 1) 4096 ltac:(lia)) as Hd.
    pose proof (Z.mod_pos_bound (sz + 4096 - 1) 4096 ltac:(lia)) as Hm. lia.
Qed.

(** X1.  On a machine whose free lists are all empty and whose kernel end
    and PHYSTOP lie at least two pages below the top of the 64-bit
    address space, so that no pointer of the loop wraps, kinit ends
    without a panic and leaves on the list of the booting CPU exactly
    the whole pages between the end of the kernel and PHYSTOP, the
    highest first; the other lists stay empty.  The loop makes its test
    once more than there are pages. *)
Theorem kinit_frees_all_pages (NCPU : nat) (kend PHYSTOP : Z) (cpu : nat)
  (s : kmem_t) :
  0 < kend -> kend + 2 * PGSIZE <= 2 ^ 64 -> PHYSTOP + 2 * PGSIZE <= 2 ^ 64 ->
  (cpu < NCPU)%nat ->
  arenas NCPU s (fun _ => []) ->
  exists s' pages,
    (forall fuel, (length pages < fuel)%nat ->
       kinit kend PHYSTOP fuel cpu s = Some (Ok s')) /\
    arenas NCPU s' (fupd (fun _ => []) cpu (rev pages)) /\
    pages = page_range (PGROUNDUP kend)
              (Z.to_nat ((PHYSTOP - PGROUNDUP kend) / PGSIZE)) /\
    (forall q, q ∈ pages <->
       q mod PGSIZE = 0 /\ kend <= q /\ q + PGSIZE <= PHYSTOP).
Proof.
  intros Hk Hktop Hptop Hc HA. unfold kinit, freerange.
  destruct (PGROUNDUP_spec kend) as [Hal Hup]; [lia | unfold PGSIZE in *; lia |].
  set (p0 := PGROUNDUP kend) in *.
  set (n := Z.to_nat ((PHYSTOP - p0) / PGSIZE)).
  assert (Hp0 : p0 + 2 * PGSIZE <= 2 ^ 64).
  { apply Z.mod_divide in Hal; [|unfold PGSIZE; lia]. destruct Hal as [b Hb].
    change (2 ^ 64) with (4503599627370496 * 4096) in *. unfold PGSIZE in *. lia. }
  assert (Hlenp : length (page_range p0 n) = n)
    by (unfold page_range; now rewrite length_map, length_seq).
  assert (Hn : (p0 + Z.of_nat n * PGSIZE <= PHYSTOP /\
                PHYSTOP < p0 + Z.of_nat n * PGSIZE + PGSIZE) \/
               (n = 0%nat /\ PHYSTOP < p0)).
  { destruct (Z_le_gt_dec p0 PHYSTOP) as [Hle | Hgt].
    - left. subst n. rewrite Z2Nat.id by (apply Z.div_pos; unfold PGSIZE; lia).
      pose proof (Z.div_mod (PHYSTOP - p0) PGSIZE ltac:(unfold PGSIZE; lia)) as Hd.
      pose proof (Z.mod_pos_bound (PHYSTOP - p0) PGSIZE ltac:(unfold PGSIZE; lia)) as Hm.
      unfold PGSIZE in *. lia.
    - right. split; [|lia]. subst n. apply Z2Nat.nonpos.
      apply Z.lt_le_incl, Z.div_lt_upper_bound; unfold PGSIZE; lia. }
  assert (Hrun : exists s',
            (forall fuel, (n < fuel)%nat ->
               freerange_loop kend PHYSTOP fuel cpu PHYSTOP p0 s = Some (Ok s')) /\
            arenas NCPU s' (fupd (fun _ => []) cpu (rev (page_range p0 n)))).
  { destruct Hn as [[Hn Hstop] | [Hn0 Hgt]].
    - destruct (freerange_loop_arenas NCPU kend PHYSTOP cpu PHYSTOP Hk
                  ltac:(unfold PGSIZE in *; lia) ltac:(lia) Hc n p0 s
                  (fun _ => []) HA Hal) as (s' & Hr & HA');
        [lia | exact Hn | exact Hstop | unfold PGSIZE in *; lia | |].
      + intros q _ (j & _ & Hq). inversion Hq.
      + exists s'. split; [exact Hr|]. revert HA'. apply arenas_ext.
        intros i. unfold fupd. destruct (Nat.eqb i cpu); [|reflexivity].
        apply app_nil_r.
    - rewrite Hn0. exists s. split.
      + intros [|fuel] Hf; [lia|]. cbn [freerange_loop].
        rewrite wrap64_small by (unfold PGSIZE in *; lia).
        destruct (Z.leb_spec (p0 + PGSIZE) PHYSTOP); [unfold PGSIZE in *; lia | reflexivity].
      + revert HA. apply arenas_ext.
        intros i. unfold fupd. destruct (Nat.eqb i cpu); reflexivity. }
  destruct Hrun as (s' & Hr & HA').
  exists s', (page_range p0 n). split; [rewrite Hlenp; exact Hr|]. split; [exact HA'|].
  split; [reflexivity|].
  intros q. rewrite elem_of_page_range. split.
  - intros (k & Hkn & ->). destruct Hn as [[Hn _] | [Hn0 _]]; [|lia].
    split; [|unfold PGSIZE in *; nia].
    unfold PGSIZE in *. rewrite Z.add_mod, Hal, Z.mod_mul by lia. reflexivity.
  - intros (Hqal & Hqlo & Hqhi).
    assert (Hq0 : p0 <= q).
    { (* p0 is the least aligned address not below kend *)
      apply Z.mod_divide in Hqal; [|unfold PGSIZE; lia]. destruct Hqal as [a ->].
      apply Z.mod_divide in Hal; [|unfold PGSIZE; lia]. destruct Hal as [b Hb].
      unfold PGSIZE in *. nia. }
    exists (Z.to_nat ((q - p0) / PGSIZE)).
    assert (Hdiv : (q - p0) mod PGSIZE = 0).
    { unfold PGSIZE in *. rewrite Zminus_mod, Hqal, Hal. reflexivity. }
    assert (Heq : q - p0 = PGSIZE * ((q - p0) / PGSIZE)).
    { pose proof (Z.div_mod (q - p0) PGSIZE ltac:(unfold PGSIZE; lia)). lia. }
    assert (Hnn : 0 <= (q - p0) / PGSIZE) by (apply Z.div_pos; unfold PGSIZE; lia).
    split.
    + subst n. apply Z2Nat.inj_lt; [exact Hnn | apply Z.div_pos; unfold PGSIZE; lia |].
      apply Z.div_lt_upper_bound; [unfold PGSIZE; lia|].
      pose proof (Z.div_mod (PHYSTOP - p0) PGSIZE ltac:(unfold PGSIZE; lia)) as Hd.
      pose proof (Z.mod_pos_bound (PHYSTOP - p0) PGSIZE ltac:(unfold PGSIZE; lia)) as Hm.
      unfold PGSIZE in *. nia.
    + rewrite Z2Nat.id by exact Hnn. lia.
Qed.

Lemma kinit_frees_all_pages_witness :
  exists s', kinit ex_end ex_small_PHYSTOP 4 1%nat kmem_bss = Some (Ok s') /\
    arenas 2 s' ex_small_lists.
Proof.
  assert (HA : arenas 2 kmem_bss (fun _ => []))
    by (apply arenasb_sound; vm_compute; reflexivity).
  assert (G1 : 0 < ex_end) by (vm_compute; reflexivity).
  assert (G2 : ex_end + 2 * PGSIZE <= 2 ^ 64) by (vm_compute; discriminate).
  assert (G3 : ex_small_PHYSTOP + 2 * PGSIZE <= 2 ^ 64) by (vm_compute; discriminate).
  assert (H0 : (1 < 2)%nat) by lia.
  pose proof (kinit_frees_all_pages 2 ex_end ex_small_PHYSTOP 1%nat kmem_bss
                G1 G2 G3 H0 HA) as (s' & pages & H1 & H2 & H3 & _).
  exists s'. subst pages. split; [|exact H2].
  apply H1. vm_compute. lia.
Defined.

(** Where the last page of the address space lies below PHYSTOP, the
    pointer of the loop wraps to 0 after that page: the test holds
    again, and kinit ends in the panic of kfree(0). *)
Lemma kinit_wraps_at_top (cpu : nat) (s : kmem_t) (fuel : nat) :
  (2 <= fuel)%nat ->
  kinit (2 ^ 64 - PGSIZE) (2 ^ 64 - 1) fuel cpu s = Some (Panic "kfree").
Proof.
  intros Hf. destruct fuel as [|[|fuel]]; [lia | lia |].
  unfold kinit, freerange. reflexivity.
Qed.

(** X2.  kfree of a page that is on no list keeps the lists sound and puts
    the page at the head of the current CPU's list; every other list
    is as before. *)
Theorem kfree_pushes_page (NCPU : nat) (kend PHYSTOP : Z) (cpu : nat) (pa : Z)
  (s : kmem_t) (L : nat -> list Z) :
  0 < kend -> PHYSTOP <= 2 ^ 64 ->
  arenas NCPU s L -> (cpu < NCPU)%nat ->
  pa mod PGSIZE = 0 -> kend <= pa -> pa < PHYSTOP ->
  (forall i, (i < NCPU)%nat -> pa ∉ L i) ->
  exists s', kfree kend PHYSTOP cpu pa s = Ok s' /\
             arenas NCPU s' (fupd L cpu (pa :: L cpu)).
Proof.
  intros Hk Hp HA Hc Hal Hlo Hhi Hfree.
  exact (kfree_arenas NCPU kend PHYSTOP cpu pa s L Hk Hp HA Hc Hal Hlo Hhi Hfree).
Qed.

Lemma kfree_pushes_page_witness :
  exists s', kfree ex_end ex_PHYSTOP 0%nat (ex_end + 5 * PGSIZE) ex_small = Ok s' /\
    arenas 2 s' (fupd ex_small_lists 0%nat [ex_end + 5 * PGSIZE]).
Proof.
  assert (HA : arenas 2 ex_small ex_small_lists)
    by (apply arenasb_sound; vm_compute; reflexivity).
  assert (G1 : 0 < ex_end) by (vm_compute; reflexivity).
  assert (G2 : ex_PHYSTOP <= 2 ^ 64) by (vm_compute; discriminate).
  assert (H0 : (0 < 2)%nat) by lia.
  assert (G3 : (ex_end + 5 * PGSIZE) mod PGSIZE = 0) by (vm_compute; reflexivity).
  assert (G4 : ex_end <= ex_end + 5 * PGSIZE) by (vm_compute; discriminate).
  assert (G5 : ex_end + 5 * PGSIZE < ex_PHYSTOP) by (vm_compute; reflexivity).
  assert (G6 : forall i, (i < 2)%nat -> ex_end + 5 * PGSIZE ∉ ex_small_lists i).
  { intros i Hi Hin. destruct i as [|[|i]]; [inversion Hin | | lia].
    vm_compute in Hin. apply list_elem_of_In in Hin. simpl in Hin.
    repeat (destruct Hin as [Hin | Hin]; [discriminate|]). exact Hin. }
  exact (kfree_pushes_page 2 ex_end ex_PHYSTOP 0%nat (ex_end + 5 * PGSIZE) ex_small
           ex_small_lists G1 G2 HA H0 G3 G4 G5 G6).
Defined.

(** X8.  kfree does not detect a page that is freed twice: the second kfree
    makes the page its own successor, and the next two calls of kalloc
    on that CPU both return it. *)
Theorem double_free_allocated_twice (NCPU : nat) (kend PHYSTOP : Z) (cpu : nat)
  (pa : Z) (s : kmem_t) :
  0 < kend -> PHYSTOP <= 2 ^ 64 ->
  pa mod PGSIZE = 0 -> kend <= pa -> pa < PHYSTOP ->
  exists s1 s2,
    kfree kend PHYSTOP cpu pa s = Ok s1 /\
    kfree kend PHYSTOP cpu pa s1 = Ok s2 /\
    load64 (mem s2) pa = pa /\
    (kalloc NCPU cpu s2).1 = pa /\
    (kalloc NCPU cpu (kalloc NCPU cpu s2).2).1 = pa.
Proof.
  intros Hk Hp Hal Hlo Hhi. unfold kfree.
  destruct (Z.eqb_spec (pa mod PGSIZE) 0); [|lia].
  destruct (Z.ltb_spec pa kend); [lia|].
  destruct (Z.leb_spec PHYSTOP pa); [lia|]. cbn [negb orb].
  eexists. eexists. split; [reflexivity|]. split; [reflexivity|].
  assert (Hld : forall m, load64 (store64 m pa pa) pa = pa)
    by (intros m; apply load64_store64; lia).
  split; [cbn [set_freelist set_mem freelist mem]; rewrite !fupd_eq; apply Hld|].
  set (s2 := set_freelist cpu pa _).
  assert (Hf2 : freelist s2 cpu = pa) by (unfold s2; cbn [set_freelist freelist];
    apply fupd_eq).
  assert (Hm2 : load64 (mem s2) pa = pa) by (unfold s2; cbn [set_freelist set_mem mem freelist];
    rewrite !fupd_eq; apply Hld).
  rewrite kalloc_nonempty by (rewrite Hf2; lia). cbn [fst snd]. rewrite Hf2, Hm2.
  split; [reflexivity|].
  rewrite kalloc_nonempty; cbn [set_mem set_freelist freelist fst]; rewrite fupd_eq;
    [reflexivity | lia].
Qed.

Lemma double_free_allocated_twice_witness :
  exists s1 s2,
    kfree ex_end ex_PHYSTOP 0%nat ex_end kmem_bss = Ok s1 /\
    kfree ex_end ex_PHYSTOP 0%nat ex_end s1 = Ok s2 /\
    load64 (mem s2) ex_end = ex_end /\
    (kalloc 2 0%nat s2).1 = ex_end /\
    (kalloc 2 0%nat (kalloc 2 0%nat s2).2).1 = ex_end.
Proof.
  assert (G1 : 0 < ex_end) by (vm_compute; reflexivity).
  assert (G2 : ex_PHYSTOP <= 2 ^ 64) by (vm_compute; discriminate).
  assert (G3 : ex_end mod PGSIZE = 0) by (vm_compute; reflexivity).
  assert (G4 : ex_end <= ex_end) by lia.
  assert (G5 : ex_end < ex_PHYSTOP) by (vm_compute; reflexivity).
  exact (double_free_allocated_twice 2 ex_end ex_PHYSTOP 0%nat ex_end kmem_bss
           G1 G2 G3 G4 G5).
Defined.

(** *** kalloc writes only into free pages *)

Lemma steal_loop_mem NCPU cpu i x :
  (i < NCPU)%nat -> (cpu < NCPU)%nat -> i <> cpu ->
  forall n s L, arenas NCPU s L ->
    (forall q, is_free NCPU L q -> x < q \/ q + PGSIZE <= x) ->
    mem (steal_loop n cpu i s).1 x = mem s x.
Proof.
  intros Hi Hc Hne. induction n as [|n IH]; intros s L HA Hout; [reflexivity|].
  cbn [steal_loop]. pose proof HA as (Hfl & Hok & _).
  destruct (Z.eqb_spec (freelist s i) 0) as [Hz | Hnz]; [reflexivity|].
  destruct (flist_nonnull _ _ _ (Hfl i Hi) Hnz) as (t & HLi & _).
  pose proof (move_page_arenas NCPU s L i cpu (freelist s i) t HA Hi Hc Hne HLi) as HA'.
  cbn [mem freelist set_freelist set_mem] in *.
  rewrite (fupd_ne (freelist s) i cpu) by congruence.
  rewrite (IH _ (move_page L i cpu (freelist s i) t) HA').
  - cbn [mem set_freelist set_mem]. apply store64_out.
    assert (Hq : is_free NCPU L (freelist s i))
      by (exists i; split; [exact Hi | rewrite HLi; left]).
    apply Hout in Hq. unfold PGSIZE in Hq. lia.
  - intros q Hq. apply Hout. now apply (is_free_move_page NCPU L i cpu _ t q Hi Hc Hne HLi).
Qed.

Lemma steal_cpus_mem NCPU cpu x : (cpu < NCPU)%nat ->
  forall cpus n s L, arenas NCPU s L -> (forall i, i ∈ cpus -> (i < NCPU)%nat) ->
    (forall q, is_free NCPU L q -> x < q \/ q + PGSIZE <= x) ->
    mem (steal_cpus cpus cpu n s) x = mem s x.
Proof.
  intros Hc. induction cpus as [|i rest IH]; intros n s L HA Hin Hout; [reflexivity|].
  cbn [steal_cpus].
  assert (Hrest : forall j, j ∈ rest -> (j < NCPU)%nat)
    by (intros j Hj; apply Hin; now right).
  destruct (Nat.eqb_spec i cpu) as [-> | Hne]; [now apply (IH n s L)|].
  assert (Hi : (i < NCPU)%nat) by (apply Hin; left).
  pose proof (steal_loop_mem NCPU cpu i x Hi Hc Hne n s L HA Hout) as Hm.
  destruct (steal_loop_refines NCPU n cpu i s L HA Hi Hc Hne) as [HA' _].
  pose proof (is_free_steal_loop NCPU cpu i) as Hfree.
  destruct (steal_loop n cpu i s) as [s' n']. cbn [fst] in *.
  destruct (Nat.leb n' 0); [exact Hm|].
  rewrite (IH n' s' (steal_loop_model n cpu i L).1 HA' Hrest); [exact Hm|].
  intros q Hq. apply Hout. now apply (Hfree q Hi Hc Hne n L).
Qed.

(** X7.  kalloc never writes into memory that is in use: a byte outside
    every free page is the same after kalloc as before, whether or not
    kalloc had to steal. *)
Theorem kalloc_writes_free_pages_only (NCPU cpu : nat) (s : kmem_t) (L : nat -> list Z)
  (x : Z) :
  (cpu < NCPU)%nat -> arenas NCPU s L ->
  (forall q, is_free NCPU L q -> x < q \/ q + PGSIZE <= x) ->
  mem (kalloc NCPU cpu s).2 x = mem s x.
Proof.
  intros Hc HA Hout. unfold kalloc.
  set (s1 := if freelist s cpu =? 0 then _ else s).
  assert (Hseq : forall i, i ∈ seq 0 NCPU -> (i < NCPU)%nat)
    by (intros i Hi; apply elem_of_seq in Hi; lia).
  assert (H1 : exists L1, arenas NCPU s1 L1 /\
                 (forall q, is_free NCPU L1 q -> is_free NCPU L q) /\
                 mem s1 x = mem s x).
  { subst s1. destruct (freelist s cpu =? 0).
    - exists (steal_cpus_model (seq 0 NCPU) cpu STEAL_BATCH L).
      split; [now apply steal_cpus_refines|]. split.
      + intros q. now apply is_free_steal_cpus.
      + now apply (steal_cpus_mem NCPU cpu x Hc _ _ s L).
    - exists L. auto. }
  clearbody s1. destruct H1 as (L1 & HA1 & Hsub & Hm1). cbn [snd].
  destruct (Z.eqb_spec (freelist s1 cpu) 0) as [Hz | Hnz]; [exact Hm1|].
  cbn [set_mem set_freelist mem]. rewrite <- Hm1.
  pose proof HA1 as (Hfl & _).
  destruct (flist_nonnull _ _ _ (Hfl cpu Hc) Hnz) as (t & HLc & _).
  apply memset_out. apply Hout, Hsub. exists cpu. split; [exact Hc|]. rewrite HLc. left.
Qed.

Lemma kalloc_writes_free_pages_only_witness :
  mem (kalloc 2 0%nat ex_small).2 (ex_end + 3 * PGSIZE) = mem ex_small (ex_end + 3 * PGSIZE).
Proof.
  assert (HA : arenas 2 ex_small ex_small_lists)
    by (apply arenasb_sound; vm_compute; reflexivity).
  assert (H0 : (0 < 2)%nat) by lia.
  assert (Hout : forall q, is_free 2 ex_small_lists q ->
            ex_end + 3 * PGSIZE < q \/ q + PGSIZE <= ex_end + 3 * PGSIZE).
  { intros q (i & Hi & Hq). destruct i as [|[|i]]; [inversion Hq | | lia].
    vm_compute in Hq. apply list_elem_of_In in Hq. simpl in Hq.
    destruct Hq as [<- | [<- | [<- | []]]]; right; vm_compute; discriminate. }
  exact (kalloc_writes_free_pages_only 2 0%nat ex_small ex_small_lists
           (ex_end + 3 * PGSIZE) H0 HA Hout).
Defined.

End KallocMore.

(* ================================================================== *)
(** * Further properties of the buffer cache *)
(* ================================================================== *)

Module BioMore.
Import Bio BioProofs.

(** *** The array keeps its size *)

Lemma acquiresleep_length p n s s' :
  outcome_state (acquiresleep p n s) = Some s' ->
  length (bufs (bcache s')) = length (bufs (bcache s)).
Proof.
  destruct (acquiresleep_cases p n s) as [[_ ->] | [_ ->]]; simpl; intros [= <-];
    [apply length_insert | reflexivity].
Qed.

Lemma bufs_relink l hb key c : bufs (relink l hb key c) = bufs c.
Proof. unfold relink. destruct (negb _); reflexivity. Qed.

Lemma bget_evict_length p d bn s s' :
  outcome_state (bget_evict p d bn s) = Some s' ->
  length (bufs (bcache s')) = length (bufs (bcache s)).
Proof.
  unfold bget_evict. destruct (chain_find _ _ _ _) as [m|].
  - unfold bget_found. intros Hs. apply acquiresleep_length in Hs. rewrite Hs.
    apply length_upd_buf_s.
  - destruct (find_victim (bcache s)) as [[l|] hb]; [|discriminate].
    unfold bget_recycle. intros Hs. apply acquiresleep_length in Hs. rewrite Hs.
    cbn [bcache set_bcache]. rewrite length_bufs_upd_buf. now rewrite bufs_relink.
Qed.

Lemma bget_length p d bn s s' :
  outcome_state (bget p d bn s) = Some s' ->
  length (bufs (bcache s')) = length (bufs (bcache s)).
Proof.
  unfold bget. destruct (chain_find _ _ _ _) as [m|]; [|apply bget_evict_length].
  unfold bget_found. intros Hs. apply acquiresleep_length in Hs. rewrite Hs.
  apply length_upd_buf_s.
Qed.

Lemma bread_fill_length n s :
  length (bufs (bcache (bread_fill n s))) = length (bufs (bcache s)).
Proof.
  unfold bread_fill. destruct (_ =? 0); [|reflexivity].
  rewrite length_upd_buf_s. apply length_bufs_upd_buf.
Qed.

Lemma brelse_length p n s s' :
  brelse p n s = Ok s' -> length (bufs (bcache s')) = length (bufs (bcache s)).
Proof.
  unfold brelse. destruct (negb _); [discriminate|].
  destruct (_ =? 0); intros [= <-]; rewrite ?length_upd_buf_s; reflexivity.
Qed.

Lemma step_length o s H s' H' :
  step o s H = Some (s', H') ->
  length (bufs (bcache s')) = length (bufs (bcache s)).
Proof.
  destruct o; simpl.
  - now intros [= <- <-].
  - intros Hs. apply hand_out_Some in Hs as (n & Hs & _). now apply bget_length in Hs.
  - intros Hs. apply hand_out_Some in Hs as (n & Hs & _).
    now apply bget_evict_length in Hs.
  - intros Hs. apply hand_out_Some in Hs as (n & Hs & _). unfold bread in Hs.
    destruct (bget p d bn s) as [s1 m|s1 m|] eqn:Hg; simpl in Hs; try discriminate;
      injection Hs as <-.
    + rewrite bread_fill_length. apply (bget_length p d bn s). now rewrite Hg.
    + apply (bget_length p d bn s). now rewrite Hg.
  - case_decide; [|discriminate].
    destruct (acquiresleep p n s) as [s1 m|s1 m|] eqn:Ha; try discriminate.
    intros [= <- <-]. apply (acquiresleep_length p n s). now rewrite Ha.
  - case_decide; [|discriminate]. intros [= <- <-]. apply bread_fill_length.
  - case_decide; [|discriminate]. destruct (holdingsleep _ _); [|discriminate].
    intros [= <- <-]. apply length_upd_buf_s.
  - case_decide; [|discriminate]. unfold bwrite.
    destruct (negb _); [discriminate|]. now intros [= <- <-].
  - case_decide; [|discriminate].
    destruct (brelse p n s) as [s1|] eqn:Hr; [|discriminate].
    intros [= <- <-]. now apply (brelse_length p n s).
  - case_decide; [|discriminate]. intros [= <- <-]. apply length_upd_buf_s.
  - case_decide; [|discriminate]. intros [= <- <-]. apply length_upd_buf_s.
Qed.

(** X10.  In every reachable state the cache has its NBUF buffers and 13
    buckets, every buffer is on exactly one chain, once, and that chain
    is the one of the hash of its (dev, blockno); every buffer handed
    out is a buffer of the array. *)
Theorem reachable_linkage (s : kstate) (H : list nat) :
  reachable s H ->
  length (bufs (bcache s)) = NBUF /\
  length (bufmap (bcache s)) = Z.to_nat NBUFMAP_BUCKET /\
  (forall n, (n < NBUF)%nat ->
     exists i, (i < Z.to_nat NBUFMAP_BUCKET)%nat /\
       n ∈ chain_at (bcache s) i /\
       Z.of_nat i = BUFMAP_HASH (dev (buf_at (bcache s) n)) (blockno (buf_at (bcache s) n)) /\
       forall j, n ∈ chain_at (bcache s) j -> j = i) /\
  (forall i, NoDup (chain_at (bcache s) i)) /\
  (forall i n, n ∈ chain_at (bcache s) i -> (n < NBUF)%nat) /\
  (forall n, n ∈ H -> (n < NBUF)%nat).
Proof.
  intros Hr.
  assert (Hlen : length (bufs (bcache s)) = NBUF).
  { induction Hr as [t d | s H o s' H' _ IH Hstep].
    - unfold boot. cbn [bcache]. rewrite binit_bss. cbn [bufs]. apply repeat_length.
    - rewrite (step_length o s H s' H' Hstep). exact IH. }
  apply reachable_inv in Hr. destruct Hr as ((Hl & Hnd & Hcov & Hhash) & Hhand & _).
  rewrite Hlen in *. split; [reflexivity|]. split; [exact Hl|].
  split; [|split; [exact Hnd|split]].
  - intros n Hn. apply Hcov in Hn as [i Hi]. exists i.
    pose proof (Hhash i n Hi) as Hh. pose proof (hash_range (dev (buf_at (bcache s) n))
      (blockno (buf_at (bcache s) n))) as Hrg.
    split; [lia|]. split; [exact Hi|]. split; [now rewrite Hh|].
    intros j Hj. apply Hhash in Hj. lia.
  - intros i n Hi. apply Hcov. eauto.
  - exact Hhand.
Qed.

Lemma reachable_linkage_witness :
  length (bufs (bcache (run_state ex_ops_busy))) = NBUF /\
  forall i, NoDup (chain_at (bcache (run_state ex_ops_busy)) i).
Proof.
  assert (Hr : reachable (run_state ex_ops_busy) [29; 28; 29]%nat).
  { apply (run_reachable ex_ops_busy ex_boot []); [apply reach_boot|].
    vm_compute. reflexivity. }
  pose proof (reachable_linkage _ _ Hr) as (H1 & _ & _ & H2 & _).
  split; [exact H1 | exact H2].
Defined.

(** X11.  A buffer with a reference is the one that bget finds for its block:
    while a block is in use, no bget for it can miss and take a second
    buffer. *)
Theorem referenced_is_found (s : kstate) (H : list nat) (p n : nat) :
  reachable s H ->
  refcnt (buf_at (bcache s) n) <> 0 ->
  outcome_buf (bget p (dev (buf_at (bcache s) n)) (blockno (buf_at (bcache s) n)) s)
    = Some n.
Proof.
  intros Hr Hrc. apply reachable_inv in Hr. destruct Hr as (_ & _ & Hshadow).
  assert (Hn : (n < length (bufs (bcache s)))%nat).
  { destruct (decide (n < length (bufs (bcache s)))%nat) as [|Hge]; [assumption|].
    exfalso. apply Hrc. unfold buf_at. rewrite nth_overflow by lia. reflexivity. }
  set (d := dev (buf_at (bcache s) n)). set (bn := blockno (buf_at (bcache s) n)).
  assert (Hl : lookup (bcache s) d bn = Some n).
  { destruct (decide (lookup (bcache s) d bn = Some n)) as [Hl | Hl]; [exact Hl|].
    destruct (Hshadow n Hn Hl) as [Hz _]. contradiction. }
  unfold bget. fold (lookup (bcache s) d bn). rewrite Hl. apply acquiresleep_buf.
Qed.

Lemma referenced_is_found_witness :
  outcome_buf (bget 5 1 20 (run_state [OpBread 1 1 7; OpBread 2 1 20])) = Some 28%nat.
Proof.
  assert (Hr : reachable (run_state [OpBread 1 1 7; OpBread 2 1 20]) [28; 29]%nat).
  { apply (run_reachable [OpBread 1 1 7; OpBread 2 1 20] ex_boot []);
      [apply reach_boot|]. vm_compute. reflexivity. }
  assert (Hc : refcnt (buf_at (bcache (run_state [OpBread 1 1 7; OpBread 2 1 20])) 28) <> 0)
    by (vm_compute; discriminate).
  pose proof (referenced_is_found _ _ 5%nat 28%nat Hr Hc) as Hf.
  assert (E1 : dev (buf_at (bcache (run_state [OpBread 1 1 7; OpBread 2 1 20])) 28) = 1)
    by (vm_compute; reflexivity).
  assert (E2 : blockno (buf_at (bcache (run_state [OpBread 1 1 7; OpBread 2 1 20])) 28) = 20)
    by (vm_compute; reflexivity).
  rewrite E1, E2 in Hf. exact Hf.
Defined.

(** *** bread *)

Lemma bread_effect (p : nat) (d bn : Z) (s s1 : kstate) (n : nat) :
  wf (bcache s) ->
  bread p d bn s = Done s1 n ->
  dev (buf_at (bcache s1) n) = d /\
  blockno (buf_at (bcache s1) n) = bn /\
  lock (buf_at (bcache s1) n) = Some p /\
  valid (buf_at (bcache s1) n) <> 0 /\
  lookup (bcache s1) d bn = Some n /\
  dsk s1 = dsk s /\
  ((lookup (bcache s) d bn = Some n /\ valid (buf_at (bcache s) n) <> 0 /\
    io s1 = io s /\ data (buf_at (bcache s1) n) = data (buf_at (bcache s) n)) \/
   ((lookup (bcache s) d bn = None \/ valid (buf_at (bcache s) n) = 0) /\
    io s1 = IoRead d bn :: io s /\
    data (buf_at (bcache s1) n) = dsk s d bn /\
    valid (buf_at (bcache s1) n) = 1)).
Proof.
  intros Hwf Hread. unfold bread in Hread.
  destruct (bget p d bn s) as [s0 n0 | s0 n0 | msg] eqn:Hget; try discriminate.
  injection Hread as <- <-.
  destruct (bget_done p d bn s s0 n0 Hwf Hget)
    as (Hn0 & Hlook0 & Hlock0 & Hd0 & Hb0 & Hdsk0 & Hio0 & Hcase).
  destruct (bread_fill_effect n0 s0 Hn0)
    as (Hv1 & Hlk1 & _ & _ & Hmap1 & Hfp1 & _ & Hdsk1 & _ & Hkeep & Hfill).
  destruct (Hfp1 n0) as [Ed Eb].
  split; [congruence|]. split; [congruence|]. split; [congruence|].
  split; [exact Hv1|].
  split; [rewrite (lookup_ext (bcache s0)); auto|].
  split; [congruence|].
  destruct (Z.eq_dec (valid (buf_at (bcache s0) n0)) 0) as [Hz | Hnz].
  - right. destruct (Hfill Hz) as (Hv & Hdat & Hio).
    rewrite Hd0, Hb0, Hdsk0 in Hdat. rewrite Hd0, Hb0, Hio0 in Hio.
    split; [|auto].
    destruct Hcase as [(Hl & Hv0 & _) | (Hl & _)]; [right; congruence | now left].
  - left. rewrite (Hkeep Hnz).
    destruct Hcase as [(Hl & Hv0 & Hdat) | (_ & Hv0)]; [|contradiction].
    repeat split; auto. congruence.
Qed.

(** X14.  bread, when it returns, returns the buffer of the requested block,
    locked by the caller and valid.  Either the block was cached and
    valid, and then nothing is read and the data are the cached ones;
    or it was not cached, or cached but not valid, and then the block
    is read once and the data are the disk's. *)
Theorem bread_returns_block (p : nat) (d bn : Z) (s s1 : kstate) (n : nat) :
  wf (bcache s) ->
  bread p d bn s = Done s1 n ->
  dev (buf_at (bcache s1) n) = d /\
  blockno (buf_at (bcache s1) n) = bn /\
  lock (buf_at (bcache s1) n) = Some p /\
  valid (buf_at (bcache s1) n) <> 0 /\
  lookup (bcache s1) d bn = Some n /\
  dsk s1 = dsk s /\
  ((lookup (bcache s) d bn = Some n /\ valid (buf_at (bcache s) n) <> 0 /\
    io s1 = io s /\ data (buf_at (bcache s1) n) = data (buf_at (bcache s) n)) \/
   ((lookup (bcache s) d bn = None \/ valid (buf_at (bcache s) n) = 0) /\
    io s1 = IoRead d bn :: io s /\
    data (buf_at (bcache s1) n) = dsk s d bn /\
    valid (buf_at (bcache s1) n) = 1)).
Proof.
  intros Hwf Hread. exact (bread_effect p d bn s s1 n Hwf Hread).
Qed.

Lemma bread_returns_block_witness :
  exists s1, bread 1 2 5 ex_boot = Done s1 29%nat /\
             io s1 = [IoRead 2 5] /\ valid (buf_at (bcache s1) 29) <> 0.
Proof.
  assert (Hwf : wf (bcache ex_boot)) by apply inv_binit.
  assert (H1 : bread 1 2 5 ex_boot = Done (run_state [OpBread 1 2 5]) 29%nat)
    by (vm_compute; reflexivity).
  pose proof (bread_returns_block 1 2 5 ex_boot _ 29%nat Hwf H1)
    as (_ & _ & _ & Hv & _ & _ & _).
  exists (run_state [OpBread 1 2 5]). split; [exact H1|]. split; [|exact Hv].
  vm_compute. reflexivity.
Defined.

(** *** Writing a block and reading it back *)

(** X15.  After bwrite and brelse by the holder, the next bread of the block
    returns the same buffer with the data that were written, and the
    disk holds these data. *)
Theorem write_release_read (p q n : nat) (s s1 s2 : kstate) :
  (n < length (bufs (bcache s)))%nat ->
  lookup (bcache s) (dev (buf_at (bcache s) n)) (blockno (buf_at (bcache s) n)) = Some n ->
  bwrite p n s = Ok s1 ->
  brelse p n s1 = Ok s2 ->
  exists s3,
    bread q (dev (buf_at (bcache s) n)) (blockno (buf_at (bcache s) n)) s2 = Done s3 n /\
    data (buf_at (bcache s3) n) = data (buf_at (bcache s) n) /\
    dsk s3 (dev (buf_at (bcache s) n)) (blockno (buf_at (bcache s) n))
      = data (buf_at (bcache s) n).
Proof.
  intros Hn Hlook Hw Hrel. set (d := dev (buf_at (bcache s) n)) in *.
  set (bn := blockno (buf_at (bcache s) n)) in *.
  unfold bwrite in Hw.
  destruct (holdingsleep p (buf_at (bcache s) n)) eqn:Hhold; [|discriminate].
  injection Hw as <-.
  assert (Hc1 : bcache (disk_write n s) = bcache s) by reflexivity.
  assert (Hdsk1 : dsk (disk_write n s) d bn = data (buf_at (bcache s) n)).
  { unfold disk_write. cbn [dsk]. fold d bn. now rewrite !Z.eqb_refl. }
  destruct (brelse_effect p n (disk_write n s)) as (s2' & Hrel' & _ & _ & _ & _ & Hd2
      & Hb2 & Hv2 & Hdata2 & Hlock2 & Hmap2 & Hlen2 & Hoth2 & _ & Hio2 & Hdsk2);
    [now rewrite Hc1 | now rewrite Hc1 |].
  rewrite Hrel in Hrel'. injection Hrel' as <-. rewrite Hc1 in *.
  assert (Hlook2 : lookup (bcache s2) d bn = Some n).
  { rewrite (lookup_ext (bcache s) (bcache s2)); [exact Hlook | exact Hmap2 |].
    intros m. destruct (decide (m = n)) as [-> | Hm]; [auto|]. now rewrite Hoth2. }
  destruct (bget_hit q d bn s2 n Hlook2)
    as (s3 & Hget3 & Hbuf3 & _ & _ & Hl3 & _ & Hio3 & Hdsk3);
    [now rewrite Hlen2 | exact Hlock2 |].
  assert (Hn3 : (n < length (bufs (bcache s3)))%nat) by (now rewrite Hl3, Hlen2).
  destruct (bread_fill_effect n s3 Hn3)
    as (_ & _ & _ & _ & _ & _ & _ & Hdsk4 & _ & Hkeep & Hfill).
  exists (bread_fill n s3). unfold bread. rewrite Hget3.
  split; [reflexivity|].
  assert (Hdisk : dsk s3 d bn = data (buf_at (bcache s) n))
    by (now rewrite Hdsk3, Hdsk2).
  split; [|now rewrite Hdsk4].
  destruct (Z.eq_dec (valid (buf_at (bcache s3) n)) 0) as [Hz | Hnz].
  - destruct (Hfill Hz) as (_ & -> & _). rewrite Hbuf3. cbn [dev blockno set_lock set_refcnt].
    rewrite Hd2, Hb2. exact Hdisk.
  - rewrite (Hkeep Hnz), Hbuf3. cbn [data set_lock set_refcnt]. exact Hdata2.
Qed.

Lemma write_release_read_witness :
  exists s3,
    bread 2 1 7 (run_state [OpBread 1 1 7; OpModify 1 29 ex_pattern; OpBwrite 1 29;
                            OpBrelse 1 29]) = Done s3 29%nat /\
    data (buf_at (bcache s3) 29) = ex_pattern /\ dsk s3 1 7 = ex_pattern.
Proof.
  set (s0 := run_state [OpBread 1 1 7; OpModify 1 29 ex_pattern]).
  assert (G1 : (29 < length (bufs (bcache s0)))%nat) by (vm_compute; lia).
  assert (E1 : dev (buf_at (bcache s0) 29) = 1) by (vm_compute; reflexivity).
  assert (E2 : blockno (buf_at (bcache s0) 29) = 7) by (vm_compute; reflexivity).
  assert (E3 : data (buf_at (bcache s0) 29) = ex_pattern) by (vm_compute; reflexivity).
  assert (G2 : lookup (bcache s0) (dev (buf_at (bcache s0) 29))
                 (blockno (buf_at (bcache s0) 29)) = Some 29%nat)
    by (vm_compute; reflexivity).
  assert (G3 : bwrite 1 29 s0
               = Ok (run_state [OpBread 1 1 7; OpModify 1 29 ex_pattern; OpBwrite 1 29]))
    by (vm_compute; reflexivity).
  assert (G4 : brelse 1 29 (run_state [OpBread 1 1 7; OpModify 1 29 ex_pattern;
                                       OpBwrite 1 29])
               = Ok (run_state [OpBread 1 1 7; OpModify 1 29 ex_pattern; OpBwrite 1 29;
                                OpBrelse 1 29]))
    by (vm_compute; reflexivity).
  pose proof (write_release_read 1 2 29 s0 _ _ G1 G2 G3 G4) as (s3 & H1 & H2 & H3).
  rewrite E1, E2 in H1, H3. rewrite E3 in H2, H3.
  exists s3. split; [exact H1|]. split; [exact H2 | exact H3].
Defined.

(** X16.  What bwrite has put on the disk is what a later bread gets when the
    block is no longer cached, as long as nothing else was written to
    the block. *)
Theorem write_then_cold_read (p q n m : nat) (s s1 s2 s3 : kstate) :
  bwrite p n s = Ok s1 ->
  wf (bcache s2) ->
  dsk s2 (dev (buf_at (bcache s) n)) (blockno (buf_at (bcache s) n))
    = dsk s1 (dev (buf_at (bcache s) n)) (blockno (buf_at (bcache s) n)) ->
  lookup (bcache s2) (dev (buf_at (bcache s) n)) (blockno (buf_at (bcache s) n)) = None ->
  bread q (dev (buf_at (bcache s) n)) (blockno (buf_at (bcache s) n)) s2 = Done s3 m ->
  data (buf_at (bcache s3) m) = data (buf_at (bcache s) n).
Proof.
  intros Hw Hwf Hdsk Hmiss Hread. unfold bwrite in Hw.
  destruct (negb _); [discriminate|]. injection Hw as <-.
  destruct (bread_effect q _ _ s2 s3 m Hwf Hread)
    as (_ & _ & _ & _ & _ & _ & [(Hl & _) | (_ & _ & Hdat & _)]); [congruence|].
  rewrite Hdat, Hdsk. unfold disk_write. cbn [dsk]. now rewrite !Z.eqb_refl.
Qed.


Lemma write_then_cold_read_witness :
  exists s3,
    bread 2 1 7 (set_bcache (binit bcache_bss)
                   (run_state [OpBread 1 1 7; OpModify 1 29 ex_pattern; OpBwrite 1 29]))
      = Done s3 29%nat /\
    data (buf_at (bcache s3) 29) = ex_pattern.
Proof.
  set (s0 := run_state [OpBread 1 1 7; OpModify 1 29 ex_pattern]).
  set (s1 := run_state [OpBread 1 1 7; OpModify 1 29 ex_pattern; OpBwrite 1 29]).
  set (s2 := set_bcache (binit bcache_bss) s1).
  assert (E1 : dev (buf_at (bcache s0) 29) = 1) by (vm_compute; reflexivity).
  assert (E2 : blockno (buf_at (bcache s0) 29) = 7) by (vm_compute; reflexivity).
  assert (E3 : data (buf_at (bcache s0) 29) = ex_pattern) by (vm_compute; reflexivity).
  assert (G1 : bwrite 1 29 s0 = Ok s1) by (vm_compute; reflexivity).
  assert (G2 : wf (bcache s2)) by apply inv_binit.
  assert (G3 : dsk s2 (dev (buf_at (bcache s0) 29)) (blockno (buf_at (bcache s0) 29))
               = dsk s1 (dev (buf_at (bcache s0) 29)) (blockno (buf_at (bcache s0) 29)))
    by (vm_compute; reflexivity).
  assert (G4 : lookup (bcache s2) (dev (buf_at (bcache s0) 29))
                 (blockno (buf_at (bcache s0) 29)) = None)
    by (vm_compute; reflexivity).
  assert (G5 : exists s3,
            bread 2 (dev (buf_at (bcache s0) 29)) (blockno (buf_at (bcache s0) 29)) s2
            = Done s3 29%nat).
  { rewrite E1, E2. vm_compute. eexists. reflexivity. }
  destruct G5 as (s3 & G5).
  pose proof (write_then_cold_read 1 2 29 29 s0 s1 s2 s3 G1 G2 G3 G4 G5) as Hd.
  rewrite E1, E2 in G5. rewrite E3 in Hd.
  exists s3. split; [exact G5 | exact Hd].
Defined.

(** *** bget and the buffers in use *)

(** X12.  bget leaves every buffer that has a reference where it is and as
    it is: its (dev, blockno), its valid flag, its data and its chain.
    Only a buffer without references is recycled. *)
Theorem bget_keeps_referenced (p : nat) (d bn : Z) (s s' : kstate) (m : nat) :
  wf (bcache s) ->
  outcome_state (bget p d bn s) = Some s' ->
  refcnt (buf_at (bcache s) m) <> 0 ->
  dev (buf_at (bcache s') m) = dev (buf_at (bcache s) m) /\
  blockno (buf_at (bcache s') m) = blockno (buf_at (bcache s) m) /\
  valid (buf_at (bcache s') m) = valid (buf_at (bcache s) m) /\
  data (buf_at (bcache s') m) = data (buf_at (bcache s) m) /\
  (forall i, m ∈ chain_at (bcache s') i <-> m ∈ chain_at (bcache s) i).
Proof.
  intros Hwf Hs Hrc.
  assert (Hlockf : forall (c : bcache_t) k v x,
            dev (buf_at (upd_buf k (set_lock v) c) x) = dev (buf_at c x) /\
            blockno (buf_at (upd_buf k (set_lock v) c) x) = blockno (buf_at c x) /\
            valid (buf_at (upd_buf k (set_lock v) c) x) = valid (buf_at c x) /\
            data (buf_at (upd_buf k (set_lock v) c) x) = data (buf_at c x)).
  { intros c k v x. repeat split; apply buf_at_upd_buf_field; reflexivity. }
  assert (Hacq : forall k s0,
            outcome_state (acquiresleep p k s0) = Some s' ->
            dev (buf_at (bcache s') m) = dev (buf_at (bcache s0) m) /\
            blockno (buf_at (bcache s') m) = blockno (buf_at (bcache s0) m) /\
            valid (buf_at (bcache s') m) = valid (buf_at (bcache s0) m) /\
            data (buf_at (bcache s') m) = data (buf_at (bcache s0) m) /\
            bufmap (bcache s') = bufmap (bcache s0)).
  { intros k s0. destruct (acquiresleep_cases p k s0) as [[_ ->] | [_ ->]]; simpl;
      intros [= <-]; [|repeat split].
    destruct (Hlockf (bcache s0) k (Some p) m) as (? & ? & ? & ?). repeat split; auto. }
  unfold bget, bget_evict in Hs. fold (lookup (bcache s) d bn) in Hs.
  assert (Hhit : forall k,
            outcome_state (bget_found p k s) = Some s' ->
            dev (buf_at (bcache s') m) = dev (buf_at (bcache s) m) /\
            blockno (buf_at (bcache s') m) = blockno (buf_at (bcache s) m) /\
            valid (buf_at (bcache s') m) = valid (buf_at (bcache s) m) /\
            data (buf_at (bcache s') m) = data (buf_at (bcache s) m) /\
            (forall i, m ∈ chain_at (bcache s') i <-> m ∈ chain_at (bcache s) i)).
  { intros k Hk. unfold bget_found in Hk. eapply Hacq in Hk. destruct Hk as (E1 & E2 & E3 & E4 & E5).
    rewrite E1, E2, E3, E4. cbn [bcache upd_buf_s set_bcache].
    repeat split; try (apply buf_at_upd_buf_field; reflexivity).
    all: unfold chain_at; rewrite E5; auto. }
  destruct (lookup (bcache s) d bn) as [k|] eqn:Hl; [exact (Hhit k Hs)|].
  destruct (find_victim_spec (bcache s)) as [Hres Hpos].
  destruct (find_victim (bcache s)) as [[l|] hb]; [|discriminate].
  destruct (Hpos l eq_refl) as [Hok Hhb]. simpl in Hhb, Hres.
  destruct Hres as [Hvz _].
  assert (Hmv : m <> c_buf l) by (intros ->; contradiction).
  destruct (relink_spec (bcache s) l hb d bn Hwf Hok Hhb) as (Hbufs & Hlen & Hch).
  destruct Hok as [_ Hlk].
  unfold bget_recycle in Hs. eapply Hacq in Hs. destruct Hs as (E1 & E2 & E3 & E4 & E5).
  rewrite E1, E2, E3, E4. cbn [bcache set_bcache].
  assert (Hg : forall b, dev (claim d bn b) = d /\ blockno (claim d bn b) = bn)
    by (intros b; split; reflexivity).
  assert (Hbm : buf_at (upd_buf (c_buf l) (claim d bn)
                          (relink l hb (BUFMAP_HASH d bn) (bcache s))) m
                = buf_at (bcache s) m)
    by (eapply recycle_buf_other; eauto).
  rewrite Hbm. repeat split; auto.
  - intros Hin. unfold chain_at in Hin. rewrite E5 in Hin.
    exact (recycle_sub (bcache s) (relink l hb (BUFMAP_HASH d bn) (bcache s)) d bn
             (c_buf l) (c_bucket l) (c_pos l) (claim d bn) Hlk Hch i m Hin Hmv).
  - intros Hin. unfold chain_at. rewrite E5.
    exact (recycle_sup (bcache s) (relink l hb (BUFMAP_HASH d bn) (bcache s)) d bn
             (c_buf l) (c_bucket l) (c_pos l) (claim d bn) Hlk Hch i m Hin Hmv).
Qed.

Lemma bget_keeps_referenced_witness :
  dev (buf_at (bcache (run_state [OpBread 1 1 7; OpBget 2 1 20])) 29) = 1 /\
  blockno (buf_at (bcache (run_state [OpBread 1 1 7; OpBget 2 1 20])) 29) = 7 /\
  (29%nat ∈ chain_at (bcache (run_state [OpBread 1 1 7; OpBget 2 1 20])) 2).
Proof.
  assert (Hr : reachable (run_state [OpBread 1 1 7]) [29]%nat).
  { apply (run_reachable [OpBread 1 1 7] ex_boot []); [apply reach_boot|].
    vm_compute. reflexivity. }
  apply reachable_inv in Hr. destruct Hr as [Hwf _].
  assert (Hs : outcome_state (bget 2 1 20 (run_state [OpBread 1 1 7]))
               = Some (run_state [OpBread 1 1 7; OpBget 2 1 20]))
    by (vm_compute; reflexivity).
  assert (Hc : refcnt (buf_at (bcache (run_state [OpBread 1 1 7])) 29) <> 0)
    by (vm_compute; discriminate).
  pose proof (bget_keeps_referenced 2 1 20 _ _ 29%nat Hwf Hs Hc) as (H1 & H2 & _ & _ & H3).
  assert (E1 : dev (buf_at (bcache (run_state [OpBread 1 1 7])) 29) = 1)
    by (vm_compute; reflexivity).
  assert (E2 : blockno (buf_at (bcache (run_state [OpBread 1 1 7])) 29) = 7)
    by (vm_compute; reflexivity).
  assert (E3 : chain_at (bcache (run_state [OpBread 1 1 7])) 2 = [29%nat])
    by (vm_compute; reflexivity).
  rewrite E1 in H1. rewrite E2 in H2. split; [exact H1|]. split; [exact H2|].
  apply H3. rewrite E3. left.
Defined.

(** *** bpin and bunpin *)

(** X17.  bunpin undoes bpin: away from the top of the uint range, a pin
    followed by an unpin gives back the very same state. *)
Theorem bpin_bunpin (n : nat) (s : kstate) :
  (n < length (bufs (bcache s)))%nat ->
  0 <= refcnt (buf_at (bcache s) n) < 2 ^ 32 - 1 ->
  bunpin n (bpin n s) = s.
Proof.
  intros Hn Hr. unfold bunpin, bpin, upd_buf_s, set_bcache, upd_buf. cbn [bcache bufs bufmap
    ticks dsk io].
  destruct s as [[bs bm] t d i]. cbn [bcache bufs bufmap ticks dsk io] in *.
  f_equal. f_equal.
  assert (Hb : buf_at {| bufs := <[n:=set_refcnt (wrap32 (refcnt (buf_at {| bufs := bs;
                  bufmap := bm |} n) + 1)) (buf_at {| bufs := bs; bufmap := bm |} n)]> bs;
                  bufmap := bm |} n
               = set_refcnt (wrap32 (refcnt (buf_at {| bufs := bs; bufmap := bm |} n) + 1))
                   (buf_at {| bufs := bs; bufmap := bm |} n)).
  { unfold buf_at at 1. cbn [bufs]. apply nth_lookup_Some with (d := zero_buf).
    now apply list_lookup_insert_eq. }
  rewrite Hb. rewrite list_insert_insert_eq. apply list_insert_id.
  unfold buf_at in *. cbn [bufs] in *.
  destruct (lookup_lt_is_Some_2 bs n Hn) as [b Hlk].
  rewrite (nth_lookup_Some _ _ zero_buf _ Hlk) in *. rewrite Hlk. f_equal.
  destruct b as [v dk dv bno lk rc lu dat]. cbn [set_refcnt refcnt valid disk dev blockno
    lock lastuse data] in *.
  unfold wrap32. rewrite (Z.mod_small (rc + 1)) by lia.
  replace (rc + 1 - 1) with rc by lia. rewrite Z.mod_small by lia.
  reflexivity.
Qed.

Lemma bpin_bunpin_witness :
  bunpin 29 (bpin 29 (run_state [OpBread 1 1 7])) = run_state [OpBread 1 1 7].
Proof.
  assert (G1 : (29 < length (bufs (bcache (run_state [OpBread 1 1 7]))))%nat)
    by (vm_compute; lia).
  assert (G2 : 0 <= refcnt (buf_at (bcache (run_state [OpBread 1 1 7])) 29) < 2 ^ 32 - 1)
    by (vm_compute; split; [discriminate | reflexivity]).
  exact (bpin_bunpin 29 (run_state [OpBread 1 1 7]) G1 G2).
Defined.

(** *** Waiting for a buffer that is in use *)

(** X13.  bget for a block whose buffer is locked takes its reference at once
    and then sleeps on the lock: the caller waits holding a reference,
    nothing else changes.  When the holder has released the buffer,
    the sleeper gets the lock. *)
Theorem bget_waits_for_holder (p q n : nat) (d bn : Z) (s : kstate) :
  lookup (bcache s) d bn = Some n ->
  (n < length (bufs (bcache s)))%nat ->
  holdingsleep p (buf_at (bcache s) n) = true ->
  exists s1,
    bget q d bn s = Blocked s1 n /\
    refcnt (buf_at (bcache s1) n) = wrap32 (refcnt (buf_at (bcache s) n) + 1) /\
    lock (buf_at (bcache s1) n) = Some p /\
    bufmap (bcache s1) = bufmap (bcache s) /\
    (forall m, m <> n -> buf_at (bcache s1) m = buf_at (bcache s) m) /\
    exists s2,
      brelse p n s1 = Ok s2 /\
      exists s3,
        bget_wakeup q n s2 = Done s3 n /\
        lock (buf_at (bcache s3) n) = Some q /\
        refcnt (buf_at (bcache s3) n)
          = wrap32 (wrap32 (refcnt (buf_at (bcache s) n) + 1) - 1) /\
        data (buf_at (bcache s3) n) = data (buf_at (bcache s) n) /\
        valid (buf_at (bcache s3) n) = valid (buf_at (bcache s) n).
Proof.
  intros Hl Hn Hhold. unfold bget. fold (lookup (bcache s) d bn). rewrite Hl.
  unfold bget_found. set (s1 := upd_buf_s n _ s).
  assert (Hb1 : buf_at (bcache s1) n
                = set_refcnt (wrap32 (refcnt (buf_at (bcache s) n) + 1))
                    (buf_at (bcache s) n))
    by (unfold s1; now rewrite buf_at_upd_buf_s_eq).
  assert (Hl1 : length (bufs (bcache s1)) = length (bufs (bcache s)))
    by apply length_upd_buf_s.
  assert (Hlk : lock (buf_at (bcache s) n) = Some p).
  { unfold holdingsleep in Hhold. destruct (lock (buf_at (bcache s) n)) as [x|];
      [|discriminate]. apply Nat.eqb_eq in Hhold. now subst. }
  assert (Hlk1 : lock (buf_at (bcache s1) n) = Some p) by (now rewrite Hb1).
  destruct (acquiresleep_cases q n s1) as [[Hfree _] | [_ ->]]; [congruence|].
  exists s1. split; [reflexivity|]. split; [now rewrite Hb1|]. split; [exact Hlk1|].
  split; [reflexivity|].
  split; [intros m Hm; unfold s1; now rewrite buf_at_upd_buf_s_ne|].
  assert (Hhold1 : holdingsleep p (buf_at (bcache s1) n) = true).
  { unfold holdingsleep. rewrite Hlk1. apply Nat.eqb_refl. }
  destruct (brelse_effect p n s1) as (s2 & Hrel & Hrc2 & _ & _ & _ & _ & _ & Hv2
      & Hdata2 & Hlock2 & _ & Hlen2 & _); [now rewrite Hl1 | exact Hhold1 |].
  exists s2. split; [exact Hrel|].
  unfold bget_wakeup.
  destruct (acquiresleep_cases q n s2) as [[_ ->] | [Hne _]]; [|contradiction].
  eexists. split; [reflexivity|].
  rewrite buf_at_upd_buf_s_eq by (now rewrite Hlen2, Hl1).
  cbn [set_lock lock refcnt data valid].
  rewrite Hrc2, Hdata2, Hv2, Hb1. repeat split; reflexivity.
Qed.

Lemma bget_waits_for_holder_witness :
  exists s1, bget 2 1 7 (run_state [OpBread 1 1 7]) = Blocked s1 29%nat /\
             refcnt (buf_at (bcache s1) 29) = 2.
Proof.
  assert (G1 : lookup (bcache (run_state [OpBread 1 1 7])) 1 7 = Some 29%nat)
    by (vm_compute; reflexivity).
  assert (G2 : (29 < length (bufs (bcache (run_state [OpBread 1 1 7]))))%nat)
    by (vm_compute; lia).
  assert (G3 : holdingsleep 1 (buf_at (bcache (run_state [OpBread 1 1 7])) 29) = true)
    by (vm_compute; reflexivity).
  pose proof (bget_waits_for_holder 1 2 29 1 7 _ G1 G2 G3) as (s1 & H1 & H2 & _).
  assert (E : wrap32 (refcnt (buf_at (bcache (run_state [OpBread 1 1 7])) 29) + 1) = 2)
    by (vm_compute; reflexivity).
  rewrite E in H2. exists s1. split; [exact H1 | exact H2].
Defined.

(** *** binit *)

Lemma binit_buckets_spec (c : bcache_t) (k : nat) :
  (k <= length (bufmap c))%nat ->
  let c' := fold_left (fun c i => set_chain i [] c) (seq 0 k) c in
  bufs c' = bufs c /\ length (bufmap c') = length (bufmap c) /\
  forall i, chain_at c' i = if decide (i < k)%nat then [] else chain_at c i.
Proof.
  induction k as [|k IH]; intros Hk c'.
  - subst c'. cbn [seq fold_left]. split; [reflexivity|]. split; [reflexivity|]. intros i.
    destruct (decide (i < 0)%nat); [lia | reflexivity].
  - subst c'. rewrite seq_S, fold_left_app. cbn [fold_left Nat.add].
    destruct IH as (Hb & Hl & Hc); [lia|].
    set (c1 := fold_left _ (seq 0 k) c) in *.
    split; [exact Hb|]. split; [unfold set_chain; cbn [bufmap]; now rewrite length_insert|].
    intros i. rewrite chain_at_set_chain by lia. rewrite Hc.
    destruct (decide (i = k)) as [-> | Hne].
    + destruct (decide (k < S k)%nat); [reflexivity | lia].
    + destruct (decide (i < k)%nat), (decide (i < S k)%nat); try lia; reflexivity.
Qed.

Lemma binit_bufs_spec (c : bcache_t) (k : nat) :
  (k <= length (bufs c))%nat -> (0 < length (bufmap c))%nat ->
  let c' := fold_left binit_buf (seq 0 k) c in
  length (bufs c') = length (bufs c) /\ length (bufmap c') = length (bufmap c) /\
  chain_at c' 0 = rev (seq 0 k) ++ chain_at c 0 /\
  (forall i, i <> 0%nat -> chain_at c' i = chain_at c i) /\
  forall n, buf_at c' n =
            if decide (n < k)%nat
            then set_refcnt 0 (set_lastuse 0 (set_lock None (buf_at c n)))
            else buf_at c n.
Proof.
  induction k as [|k IH]; intros Hk Hm c'.
  - subst c'. cbn [seq fold_left rev app].
    split; [reflexivity|]. split; [reflexivity|]. split; [reflexivity|].
    split; [reflexivity|]. intros n.
    destruct (decide (n < 0)%nat); [lia | reflexivity].
  - subst c'. rewrite seq_S, fold_left_app. cbn [fold_left Nat.add].
    destruct IH as (Hlb & Hlm & Hc0 & Hci & Hbuf); [lia | exact Hm |].
    set (c1 := fold_left binit_buf (seq 0 k) c) in *.
    unfold binit_buf.
    set (c2 := upd_buf k _ c1).
    assert (Hl2 : length (bufmap c2) = length (bufmap c)) by exact Hlm.
    split; [unfold set_chain; cbn [bufs]; unfold c2; now rewrite length_bufs_upd_buf|].
    split; [unfold set_chain; cbn [bufmap]; now rewrite length_insert|].
    split.
    { rewrite chain_at_set_chain by lia. rewrite decide_True by reflexivity.
      unfold c2. rewrite chain_at_upd_buf, Hc0. rewrite rev_app_distr. reflexivity. }
    split.
    { intros i Hi. rewrite chain_at_set_chain by lia. rewrite decide_False by exact Hi.
      unfold c2. rewrite chain_at_upd_buf. now apply Hci. }
    intros n.
    change (buf_at (set_chain 0 (k :: chain_at c2 0) c2) n) with (buf_at c2 n).
    unfold c2. rewrite buf_at_upd_buf by lia. rewrite !Hbuf.
    destruct (decide (n = k)) as [-> | Hne].
    + destruct (decide (k < k)%nat); [lia|].
      destruct (decide (k < S k)%nat); [reflexivity | lia].
    + destruct (decide (n < k)%nat), (decide (n < S k)%nat); try lia; reflexivity.
Qed.

(** X9.  binit does not depend on what the storage held: whatever the chains
    and the buffers' counters and locks were, afterwards bucket 0 chains
    all NBUF buffers with the last one at the head, every other bucket
    is empty, and every buffer has refcnt 0, lastuse 0 and a free lock.
    binit does not touch valid, dev, blockno or data: that valid is 0
    at boot comes from the zeroed static storage, not from binit. *)
Theorem binit_any_storage (c : bcache_t) :
  length (bufs c) = NBUF ->
  length (bufmap c) = Z.to_nat NBUFMAP_BUCKET ->
  chain_at (binit c) 0 = rev (seq 0 NBUF) /\
  (forall i, i <> 0%nat -> chain_at (binit c) i = []) /\
  forall n, (n < NBUF)%nat ->
    refcnt (buf_at (binit c) n) = 0 /\
    lastuse (buf_at (binit c) n) = 0 /\
    lock (buf_at (binit c) n) = None /\
    valid (buf_at (binit c) n) = valid (buf_at c n) /\
    dev (buf_at (binit c) n) = dev (buf_at c n) /\
    blockno (buf_at (binit c) n) = blockno (buf_at c n) /\
    data (buf_at (binit c) n) = data (buf_at c n).
Proof.
  intros Hb Hm. unfold binit, binit_buckets.
  destruct (binit_buckets_spec c (Z.to_nat NBUFMAP_BUCKET)) as (Hb1 & Hl1 & Hc1); [lia|].
  set (c1 := fold_left _ (seq 0 (Z.to_nat NBUFMAP_BUCKET)) c) in *.
  destruct (binit_bufs_spec c1 NBUF) as (_ & _ & H0 & Hi & Hbuf).
  { rewrite Hb1, Hb. lia. }
  { rewrite Hl1, Hm. unfold NBUFMAP_BUCKET. lia. }
  split.
  { rewrite H0, Hc1. rewrite decide_True by (unfold NBUFMAP_BUCKET; lia).
    apply app_nil_r. }
  split.
  { intros i Hne. rewrite Hi by exact Hne. rewrite Hc1.
    destruct (decide (i < Z.to_nat NBUFMAP_BUCKET)%nat) as [|Hge]; [reflexivity|].
    unfold chain_at. apply nth_overflow. lia. }
  intros n Hn. rewrite Hbuf. rewrite decide_True by exact Hn.
  assert (E : buf_at c1 n = buf_at c n) by (unfold buf_at; now rewrite Hb1).
  rewrite E. destruct (buf_at c n). repeat split; reflexivity.
Qed.

Lemma binit_any_storage_witness :
  chain_at (binit (bcache (run_state ex_ops_full))) 0 = rev (seq 0 NBUF) /\
  refcnt (buf_at (binit (bcache (run_state ex_ops_full))) 29) = 0.
Proof.
  assert (G1 : length (bufs (bcache (run_state ex_ops_full))) = NBUF)
    by (vm_compute; reflexivity).
  assert (G2 : length (bufmap (bcache (run_state ex_ops_full))) = Z.to_nat NBUFMAP_BUCKET)
    by (vm_compute; reflexivity).
  pose proof (binit_any_storage _ G1 G2) as (H0 & _ & Hn).
  split; [exact H0|].
  assert (G3 : (29 < NBUF)%nat) by (vm_compute; lia).
  exact (proj1 (Hn 29%nat G3)).
Defined.

End BioMore.
